(** * TalentScout hiring assistant: the conversation state machine and the
      question-selection engine of [chatbot.py], with the caller's turn
      handler of [app.py] and the persistence step of [data_handler.py].

    Python values are embedded shallowly: a [str] is its sequence of Unicode
    code points, an [int] is a [Z], a [dict] is a [gmap] (or an association
    list where iteration order matters), an exception is a value of [exn]
    carried by a state-and-error monad so that the mutations made before a
    [raise] are kept, as they are in Python. *)

From Stdlib Require Import ZArith NArith List String Ascii Lia Bool.
From stdpp Require Import gmap list pretty.

Local Open Scope N_scope.

(** ** Python strings *)

Module Py.

(** A [str] is a list of code points. *)
Definition str := list N.

(** String literals are written as in the source and decoded from the UTF-8
    bytes of the literal. [need] is the number of continuation bytes still
    expected and [acc] the bits gathered so far. *)
Fixpoint utf8_go (need : nat) (acc : N) (bs : list N) : str :=
  match bs with
  | [] => []
  | b :: bs' =>
      match need with
      | O => if b <? 128 then b :: utf8_go 0 0 bs'
             else if b <? 224 then utf8_go 1 (b - 192) bs'
             else if b <? 240 then utf8_go 2 (b - 224) bs'
             else utf8_go 3 (b - 240) bs'
      | S O => (acc * 64 + (b - 128)) :: utf8_go 0 0 bs'
      | S n => utf8_go n (acc * 64 + (b - 128)) bs'
      end
  end.

Definition lit (s : string) : str :=
  utf8_go 0 0 (map N_of_ascii (list_ascii_of_string s)).

(** [str.isspace] on one code point: the white-space table of CPython. *)
Definition isspace (c : N) : bool :=
  ((9 <=? c) && (c <=? 13)) || ((28 <=? c) && (c <=? 32))
  || (c =? 133) || (c =? 160) || (c =? 5760)
  || ((8192 <=? c) && (c <=? 8202))
  || (c =? 8232) || (c =? 8233) || (c =? 8239) || (c =? 8287) || (c =? 12288).

Fixpoint lstrip (s : str) : str :=
  match s with
  | c :: s' => if isspace c then lstrip s' else s
  | [] => []
  end.

Definition rstrip (s : str) : str := rev (lstrip (rev s)).

(** [s.strip()] *)
Definition strip (s : str) : str := rstrip (lstrip s).

(** [s.startswith(p)] *)
Fixpoint startswith (p s : str) : bool :=
  match p, s with
  | [], _ => true
  | a :: p', b :: s' => (a =? b) && startswith p' s'
  | _ :: _, [] => false
  end.

(** [sub in s] for strings: substring containment. *)
Fixpoint contains (sub s : str) : bool :=
  startswith sub s ||
  match s with
  | [] => false
  | _ :: s' => contains sub s'
  end.

(** [s.replace(old, new)], every non-overlapping occurrence from the left.
    [skip] counts the code points of a matched occurrence still to be
    dropped. With an empty [old] Python inserts [new] before every code
    point and at the end. *)
Fixpoint replace_go (old new : str) (skip : nat) (s : str) : str :=
  match s with
  | [] => []
  | c :: s' =>
      match skip with
      | S k => replace_go old new k s'
      | O => if startswith old s
             then new ++ replace_go old new (length old - 1) s'
             else c :: replace_go old new 0 s'
      end
  end.

Definition replace (s old new : str) : str :=
  match old with
  | [] => new ++ flat_map (fun c => c :: new) s
  | _ => replace_go old new 0 s
  end.

(** [str(n)] for an [int]. *)
Definition str_of_int (n : Z) : str := lit (pretty n).

(** Slices [l[:n]] and [l[n:]] with Python's reading of a negative bound. *)
Definition slice_to {A} (l : list A) (n : Z) : list A :=
  if (0 <=? n)%Z then take (Z.to_nat n) l
  else take (Z.to_nat (Z.of_nat (length l) + n)) l.

Definition slice_from {A} (l : list A) (n : Z) : list A :=
  if (0 <=? n)%Z then drop (Z.to_nat n) l
  else drop (Z.to_nat (Z.of_nat (length l) + n)) l.

(** [len(l)] *)
Definition len {A} (l : list A) : Z := Z.of_nat (length l).

(** Built-in exceptions the program can raise. *)
Inductive exn :=
| KeyError (key : str)
| IndexError
| ValueError
| TypeError
| AttributeError
| OSError.

(** What is left to the Python runtime: the tables of the Unicode database
    behind [str.isdigit], [str.lower], [repr], the [\d] class and
    case-insensitive matching of [re], and the text of [str(e)] for an
    exception [e]. They are kept abstract; what is fixed is their value on
    ASCII text. *)
Definition ascii_only (s : str) : bool := forallb (fun c => c <? 128) s.

Definition ascii_lower (c : N) : N :=
  if (65 <=? c) && (c <=? 90) then c + 32 else c.

Definition ascii_digit (c : N) : bool := (48 <=? c) && (c <=? 57).

Record runtime := {
  isdigit : N -> bool;
  isdecimal : N -> bool;
  lower : str -> str;
  ignorecase_eq : N -> N -> bool;
  repr : str -> str;
  str_of_exn : exn -> str;
  isdigit_ascii : forall c, c < 128 -> isdigit c = ascii_digit c;
  isdecimal_ascii : forall c, c < 128 -> isdecimal c = ascii_digit c;
  lower_ascii : forall s, ascii_only s = true -> lower s = map ascii_lower s;
  ignorecase_eq_ascii : forall a c,
    a < 128 -> c < 128 -> ignorecase_eq a c = (ascii_lower a =? ascii_lower c)
}.

(** Tables that are exact on ASCII text and treat every other code point as
    caseless and not a digit; [repr] and [str(e)] are given a plain
    rendering. *)
Definition ascii_runtime : runtime := {|
  isdigit := ascii_digit;
  isdecimal := ascii_digit;
  lower := map ascii_lower;
  ignorecase_eq := fun a c => ascii_lower a =? ascii_lower c;
  repr := fun s => 39 :: s ++ [39];
  str_of_exn := fun e =>
    match e with
    | KeyError k => 39 :: k ++ [39]
    | IndexError => lit "list index out of range"
    | ValueError => lit "value is not in list"
    | TypeError => lit "unsupported operand type(s)"
    | AttributeError => lit "object has no attribute"
    | OSError => lit "No such file or directory"
    end;
  isdigit_ascii := fun _ _ => eq_refl;
  isdecimal_ascii := fun _ _ => eq_refl;
  lower_ascii := fun _ _ => eq_refl;
  ignorecase_eq_ascii := fun _ _ _ _ => eq_refl
|}.

End Py.

Import Py.

(** ** Regular expressions

    [re.match] is modelled by Brzozowski derivatives over code points; the
    relation [Matches] is the usual meaning of a pattern and [matchb_spec]
    relates the two. *)

Module Re.

Inductive re :=
| Void
| Eps
| Cls (p : N -> bool)
| Cat (r1 r2 : re)
| Alt (r1 r2 : re)
| Star (r : re).

Definition plus (r : re) : re := Cat r (Star r).

Fixpoint nullable (r : re) : bool :=
  match r with
  | Void => false
  | Eps => true
  | Cls _ => false
  | Cat r1 r2 => nullable r1 && nullable r2
  | Alt r1 r2 => nullable r1 || nullable r2
  | Star _ => true
  end.

Fixpoint deriv (c : N) (r : re) : re :=
  match r with
  | Void => Void
  | Eps => Void
  | Cls p => if p c then Eps else Void
  | Cat r1 r2 =>
      if nullable r1 then Alt (Cat (deriv c r1) r2) (deriv c r2)
      else Cat (deriv c r1) r2
  | Alt r1 r2 => Alt (deriv c r1) (deriv c r2)
  | Star r1 => Cat (deriv c r1) (Star r1)
  end.

(** The whole of [s] is in the language of [r]. *)
Fixpoint matchb (r : re) (s : str) : bool :=
  match s with
  | [] => nullable r
  | c :: s' => matchb (deriv c r) s'
  end.

(** [re.match('^' + r + '$', s)] as a truth value. Without [re.MULTILINE]
    the [$] holds at the end of the string and also just before a newline
    that ends the string. *)
Definition match_anchored (r : re) (s : str) : bool :=
  matchb r s ||
  match rev s with
  | c :: t => (c =? 10) && matchb r (rev t)
  | [] => false
  end.

Inductive Matches : re -> str -> Prop :=
| MEps : Matches Eps []
| MCls p c : p c = true -> Matches (Cls p) [c]
| MCat r1 r2 s1 s2 :
    Matches r1 s1 -> Matches r2 s2 -> Matches (Cat r1 r2) (s1 ++ s2)
| MAltL r1 r2 s : Matches r1 s -> Matches (Alt r1 r2) s
| MAltR r1 r2 s : Matches r2 s -> Matches (Alt r1 r2) s
| MStarNil r : Matches (Star r) []
| MStarApp r s1 s2 :
    Matches r s1 -> Matches (Star r) s2 -> Matches (Star r) (s1 ++ s2).

End Re.

(** Prefix matching as [re.match] and [re.sub] with a pattern anchored by [^]
    use it: the length of the longest prefix of [s] in the language of [r].
    The patterns it is applied to below are runs of pairwise disjoint classes
    under greedy quantifiers, for which the match that Python's backtracking
    finds is the longest one. *)

Module RePrefix.
Import Re.

Fixpoint atleast (n : nat) (r : re) : re :=
  match n with
  | O => Star r
  | S k => Cat r (atleast k r)
  end.

Fixpoint longest_go (r : re) (s : str) (pos : nat) (best : option nat) : option nat :=
  let best' := if nullable r then Some pos else best in
  match s with
  | [] => best'
  | c :: s' => longest_go (deriv c r) s' (S pos) best'
  end.

Definition longest_prefix (r : re) (s : str) : option nat := longest_go r s 0 None.

(** [re.sub('^' + r, '', s)]: an anchored pattern is replaced at most once. *)
Definition sub_prefix (r : re) (s : str) : str :=
  match longest_prefix r s with
  | Some n => drop n s
  | None => s
  end.

(** A literal word as a pattern, one class per code point. *)
Fixpoint word (eq : N -> N -> bool) (w : str) : re :=
  match w with
  | [] => Eps
  | c :: w' => Cat (Cls (eq c)) (word eq w')
  end.

End RePrefix.

(** ** prompts/system_prompts.py *)

Definition QUESTION_GENERATION_PROMPT : str :=
  lit "Based on the following tech stack, please generate {num_questions} technical interview questions.

Tech Stack: {tech_stack}

Your questions should be:
- Appropriate for the technologies the candidate mentioned.
- A good mix of concepts and practical, real-world scenarios.
- Ranging from intermediate to advanced difficulty.
- Specific to the technologies listed, not generic.

Please number each question clearly and phrase them conversationally.".

Definition VALIDATION_PROMPTS : gmap str str :=
  list_to_map [
    (lit "email",
     lit "That doesn't look quite like a valid email. Could you please try again? (e.g., jane.doe@example.com)");
    (lit "phone",
     lit "Hmm, that doesn't seem to be a phone number. Could you please provide a number with digits?");
    (lit "experience",
     lit "Could you please provide your experience as a number (like 2, 5, or 10)? If you're a recent grad, '0' or 'fresher' works perfectly!");
    (lit "techstack",
     lit "Could you please list out your technical skills? For example: Python, React, Docker, SQL")
  ].

Definition FAREWELL_PROMPT : str :=
  lit "Thank you so much for your time today, {name}! ðŸŽ‰

We've successfully wrapped up the initial screening. Hereâ€™s what will happen next:

- Our recruitment team will carefully review your profile and answers.
- We'll get back to you within 3-5 business days.

Best of luck with your application! We really appreciate you chatting with us.

Have a wonderful day! ðŸ‘‹".

(** ** chatbot.py: ValidationAgent *)

Definition is_alnum (c : N) : bool :=
  ((97 <=? c) && (c <=? 122)) || ((65 <=? c) && (c <=? 90)) || ((48 <=? c) && (c <=? 57)).

Definition is_letter (c : N) : bool :=
  ((97 <=? c) && (c <=? 122)) || ((65 <=? c) && (c <=? 90)).

(** [[a-zA-Z0-9._%+-]] *)
Definition email_local (c : N) : bool :=
  is_alnum c || (c =? 46) || (c =? 95) || (c =? 37) || (c =? 43) || (c =? 45).

(** [[a-zA-Z0-9.-]] *)
Definition email_domain (c : N) : bool :=
  is_alnum c || (c =? 46) || (c =? 45).

(** The body of [r'^[a-zA-Z0-9._%+-]+@[a-zA-Z0-9.-]+\.[a-zA-Z]{2,}$']. *)
Definition email_pattern : Re.re :=
  Re.Cat (RePrefix.atleast 1 (Re.Cls email_local))
    (Re.Cat (Re.Cls (N.eqb 64))
       (Re.Cat (RePrefix.atleast 1 (Re.Cls email_domain))
          (Re.Cat (Re.Cls (N.eqb 46))
             (RePrefix.atleast 2 (Re.Cls is_letter))))).

(** [ValidationAgent.validate]: the pair [(is_valid, error_message)]. *)
Definition validate (rt : runtime) (stage value : str) : bool * option str :=
  let value := strip value in
  if bool_decide (stage = lit "email") then
    if Re.match_anchored email_pattern value then (true, None)
    else (false, Some (VALIDATION_PROMPTS !!! lit "email"))
  else if bool_decide (stage = lit "phone") then
    if existsb (isdigit rt) value then (true, None)
    else (false, Some (VALIDATION_PROMPTS !!! lit "phone"))
  else if bool_decide (stage = lit "experience") then
    if bool_decide (lower rt value ∈ [lit "fresher"; lit "fresh graduate"; lit "0"])
       || existsb (isdigit rt) value
    then (true, None)
    else (false, Some (VALIDATION_PROMPTS !!! lit "experience"))
  else if bool_decide (stage = lit "name") then
    if (2 <=? len value)%Z then (true, None)
    else (false, Some (lit "Please provide your full name (at least 2 characters)."))
  else if bool_decide (stage = lit "techstack") then
    if (3 <=? len value)%Z then (true, None)
    else (false, Some (VALIDATION_PROMPTS !!! lit "techstack"))
  else
    if (0 <? len value)%Z then (true, None)
    else (false, Some (lit "Please provide your " ++ stage ++ lit ".")).

(** ** chatbot.py: QuestionGenerationAgent *)

(** The text-generation collaborator: given the system and the user message it
    answers with the content of the first choice, or [None] when the call (or
    reading its answer) raises. *)
Definition client := str -> str -> option str.

(** [_load_question_knowledge]: a [dict] in insertion order. *)
Definition _load_question_knowledge : list (str * list str) :=
  [
  (lit "python",
    [lit "Explain the difference between a list and a tuple in Python. When would you use each?";
     lit "How do you handle exceptions in Python? Provide an example of a try-except block.";
     lit "What are Python decorators and how have you used them?";
     lit "Explain list comprehensions and give an example of when you'd use them."]);
  (lit "javascript",
    [lit "What's the difference between 'let', 'var', and 'const' in JavaScript?";
     lit "Explain closures in JavaScript with a practical example.";
     lit "What is the event loop and how does it work?";
     lit "How does 'this' keyword work in different contexts?"]);
  (lit "js",
    [lit "What are arrow functions and how do they differ from regular functions?";
     lit "Explain promises and async/await in JavaScript.";
     lit "What is event bubbling and capturing?";
     lit "How do you handle asynchronous operations in JavaScript?"]);
  (lit "react",
    [lit "What are React hooks? Which ones have you used most frequently?";
     lit "Explain the virtual DOM and how React uses it for optimization.";
     lit "What's the difference between state and props?";
     lit "How do you handle side effects in React applications?"]);
  (lit "django",
    [lit "Explain Django's MVT (Model-View-Template) architecture.";
     lit "How does Django's ORM work? What are its advantages?";
     lit "Describe Django's middleware and when you'd create custom middleware.";
     lit "How do you handle authentication and authorization in Django?"]);
  (lit "flask",
    [lit "What's the difference between Django and Flask?";
     lit "Explain Flask's application context and request context.";
     lit "How do you structure a large Flask application?";
     lit "How do you handle database migrations in Flask?"]);
  (lit "sql",
    [lit "What's the difference between INNER JOIN and LEFT JOIN?";
     lit "Explain database indexing and when you would use it.";
     lit "How do you optimize a slow database query?";
     lit "What are transactions and why are they important?"]);
  (lit "mysql",
    [lit "Explain the difference between MyISAM and InnoDB storage engines.";
     lit "How do you optimize MySQL queries for better performance?";
     lit "What is query caching in MySQL?";
     lit "How do you handle database replication in MySQL?"]);
  (lit "postgresql",
    [lit "What are the advantages of PostgreSQL over MySQL?";
     lit "Explain JSONB data type and when you'd use it.";
     lit "How does PostgreSQL handle concurrent transactions?";
     lit "What are PostgreSQL extensions and which ones have you used?"]);
  (lit "mongodb",
    [lit "Explain the difference between SQL and NoSQL databases.";
     lit "How does indexing work in MongoDB?";
     lit "What are the advantages and disadvantages of MongoDB?";
     lit "How do you design schemas in MongoDB?"]);
  (lit "node",
    [lit "Explain the event-driven architecture of Node.js.";
     lit "What is the difference between synchronous and asynchronous operations in Node?";
     lit "How do you handle errors in Node.js applications?";
     lit "Explain the concept of middleware in Express.js."]);
  (lit "express",
    [lit "How does Express.js middleware work?";
     lit "Explain routing in Express.js.";
     lit "How do you handle errors in Express applications?";
     lit "What are the best practices for structuring an Express.js application?"]);
  (lit "docker",
    [lit "What is Docker and why is it useful in development?";
     lit "Explain the difference between a Docker image and a container.";
     lit "How do you optimize Docker images for production?";
     lit "What is Docker Compose and when would you use it?"]);
  (lit "kubernetes",
    [lit "What is Kubernetes and what problems does it solve?";
     lit "Explain pods, services, and deployments in Kubernetes.";
     lit "How does Kubernetes handle scaling?";
     lit "What is the difference between Kubernetes and Docker Swarm?"]);
  (lit "aws",
    [lit "Explain the difference between EC2, ECS, and Lambda.";
     lit "What is S3 and what are its use cases?";
     lit "How do you ensure security in AWS environments?";
     lit "Describe a CI/CD pipeline using AWS services."]);
  (lit "git",
    [lit "Explain the difference between merge and rebase in Git.";
     lit "How do you resolve merge conflicts?";
     lit "What is a pull request and what's your review process?";
     lit "Explain Git branching strategies you've used."]);
  (lit "java",
    [lit "Explain the concept of inheritance and polymorphism in Java.";
     lit "What is the difference between abstract classes and interfaces?";
     lit "How does garbage collection work in Java?";
     lit "Explain the Java Collections Framework."]);
  (lit "spring",
    [lit "What is dependency injection in Spring?";
     lit "Explain the difference between @Component, @Service, and @Repository.";
     lit "How does Spring Boot simplify Spring development?";
     lit "What is Spring MVC and how does it work?"]);
  (lit "typescript",
    [lit "What are the advantages of TypeScript over JavaScript?";
     lit "Explain interfaces and types in TypeScript.";
     lit "How does TypeScript handle type inference?";
     lit "What are generics in TypeScript?"]);
  (lit "angular",
    [lit "What's the difference between Angular and React?";
     lit "Explain components, services, and modules in Angular.";
     lit "How does dependency injection work in Angular?";
     lit "What are Angular directives?"]);
  (lit "vue",
    [lit "What's the difference between Vue and React?";
     lit "Explain the Vue component lifecycle.";
     lit "How does Vue's reactivity system work?";
     lit "What is Vuex and when would you use it?"]);
  (lit "redis",
    [lit "What is Redis and what are its common use cases?";
     lit "Explain Redis data structures.";
     lit "How do you use Redis for caching?";
     lit "What is Redis pub/sub?"]);
  (lit "graphql",
    [lit "What's the difference between REST and GraphQL?";
     lit "Explain queries, mutations, and subscriptions in GraphQL.";
     lit "What are the advantages of GraphQL?";
     lit "How do you handle errors in GraphQL?"]);
  (lit "api",
    [lit "What are RESTful API best practices?";
     lit "How do you version APIs?";
     lit "Explain different HTTP methods and when to use them.";
     lit "How do you handle authentication in APIs?"]);
  (lit "rest",
    [lit "What are the principles of REST architecture?";
     lit "Explain HTTP status codes and when to use them.";
     lit "How do you design RESTful endpoints?";
     lit "What is HATEOAS in REST?"]);
  (lit "testing",
    [lit "What's the difference between unit testing and integration testing?";
     lit "How do you write testable code?";
     lit "Explain test-driven development (TDD).";
     lit "What testing frameworks have you used?"]);
  (lit "ci/cd",
    [lit "What is CI/CD and why is it important?";
     lit "Explain your experience with CI/CD pipelines.";
     lit "What tools have you used for continuous integration?";
     lit "How do you handle deployments in your workflow?"])
  ].

Definition knowledge_base : list (str * list str) := _load_question_knowledge.

Fixpoint assoc {V} (k : str) (d : list (str * V)) : option V :=
  match d with
  | [] => None
  | (k', v) :: d' => if bool_decide (k' = k) then Some v else assoc k d'
  end.

(** [self.knowledge_base[tech]]; it is only applied to keys of the dict. *)
Definition knowledge_base_get (tech : str) : list str :=
  default [] (assoc tech knowledge_base).

(** [content.split('\n')] for a one-character separator. *)
Fixpoint split (sep : N) (s : str) : list str :=
  match s with
  | [] => [[]]
  | c :: s' =>
      if c =? sep then [] :: split sep s'
      else match split sep s' with
           | l :: ls => (c :: l) :: ls
           | [] => [[c]]
           end
  end.

Definition is_marker (c : N) : bool := (c =? 46) || (c =? 41) || (c =? 58).

(** [r'^\d+[\.\):]'] *)
Definition numbered_pattern (rt : runtime) : Re.re :=
  Re.Cat (RePrefix.atleast 1 (Re.Cls (isdecimal rt))) (Re.Cls is_marker).

(** [r'^\d+[\.\):\s]+'] *)
Definition number_prefix_pattern (rt : runtime) : Re.re :=
  Re.Cat (RePrefix.atleast 1 (Re.Cls (isdecimal rt)))
    (RePrefix.atleast 1 (Re.Cls (fun c => is_marker c || isspace c))).

(** [r'^Question\s+\d+[\:\s]+'] under [re.IGNORECASE] *)
Definition question_prefix_pattern (rt : runtime) : Re.re :=
  Re.Cat (RePrefix.word (ignorecase_eq rt) (lit "Question"))
    (Re.Cat (RePrefix.atleast 1 (Re.Cls isspace))
       (Re.Cat (RePrefix.atleast 1 (Re.Cls (isdecimal rt)))
          (RePrefix.atleast 1 (Re.Cls (fun c => (c =? 58) || isspace c))))).

(** One turn of the loop of [_parse_questions]. *)
Definition parse_line (rt : runtime) (questions : list str) (line : str) : list str :=
  let line := strip line in
  if bool_decide (is_Some (RePrefix.longest_prefix (numbered_pattern rt) line))
     || startswith (lit "question") (lower rt line)
  then
    let question := RePrefix.sub_prefix (number_prefix_pattern rt) line in
    let question := RePrefix.sub_prefix (question_prefix_pattern rt) question in
    if negb (bool_decide (question = [])) && (15 <? len question)%Z
    then questions ++ [strip question]
    else questions
  else questions.

Definition _parse_questions (rt : runtime) (content : str) : list str :=
  fold_left (parse_line rt) (split 10 content) [].

(** [QUESTION_GENERATION_PROMPT.format(num_questions=num, tech_stack=tech_stack)].
    The template has these two fields and no other brace, and the decimal text
    of [num] has none, so filling one field after the other is what [format]
    does in one pass. *)
Definition format_question_prompt (num : Z) (tech_stack : str) : str :=
  replace (replace QUESTION_GENERATION_PROMPT (lit "{num_questions}") (str_of_int num))
    (lit "{tech_stack}") tech_stack.

(** The list returned by the [except] branch of [_generate_custom_questions]. *)
Definition fallback_questions (tech_stack : str) : list str :=
  [lit "Describe a challenging technical problem you've solved recently.";
   lit "How do you approach debugging complex issues?";
   lit "What best practices do you follow when working with " ++ tech_stack ++ lit "?"].

Definition _generate_custom_questions
    (rt : runtime) (llm : client) (tech_stack : str) (num : Z) : list str :=
  let prompt := format_question_prompt num tech_stack in
  match llm (lit "You are an expert technical interviewer.") prompt with
  | Some content => _parse_questions rt content
  | None => fallback_questions tech_stack
  end.

Definition generic : list str :=
  [lit "Describe a challenging technical problem you've solved recently and your approach.";
   lit "How do you ensure code quality and maintainability in your projects?";
   lit "What's your process for learning new technologies or frameworks?";
   lit "How do you approach debugging complex issues in production environments?"].

(** The second loop of [generate_questions]: extras from the matched
    technologies, in order, until [num_questions] is reached. *)
Fixpoint add_extras (questions_per_tech num_questions : Z) (techs : list str)
    (questions : list str) (remaining : Z) : list str :=
  match techs with
  | [] => questions
  | tech :: techs' =>
      if (num_questions <=? len questions)%Z then questions
      else
        let extra_questions := slice_from (knowledge_base_get tech) questions_per_tech in
        let questions := questions ++ slice_to extra_questions remaining in
        add_extras questions_per_tech num_questions techs' questions
          (num_questions - len questions)
  end.

(** The technologies of the knowledge base found in the lowercased text. *)
Definition matched_techs (rt : runtime) (tech_stack : str) : list str :=
  List.filter (fun tech => contains tech (lower rt tech_stack)) (map fst knowledge_base).

Definition questions_per_tech (num_questions : Z) (matched : list str) : Z :=
  Z.max 1 (num_questions `div` len matched).

(** The questions taken from the knowledge base (the [if matched_techs:]
    block). *)
Definition library_questions (num_questions : Z) (matched : list str) : list str :=
  match matched with
  | [] => []
  | _ :: _ =>
      let per_tech := questions_per_tech num_questions matched in
      let questions :=
        flat_map (fun tech => slice_to (knowledge_base_get tech) per_tech) matched in
      if (len questions <? num_questions)%Z
      then add_extras per_tech num_questions matched questions (num_questions - len questions)
      else questions
  end.

Definition generate_questions
    (rt : runtime) (llm : client) (tech_stack : str) (num_questions : Z) : list str :=
  let questions := library_questions num_questions (matched_techs rt tech_stack) in
  if (num_questions <=? len questions)%Z then slice_to questions num_questions
  else
    let remaining := (num_questions - len questions)%Z in
    let questions :=
      if (0 <? remaining)%Z
      then questions ++ _generate_custom_questions rt llm tech_stack remaining
      else questions in
    let questions :=
      if (len questions <? num_questions)%Z
      then questions ++ slice_to generic (num_questions - len questions)
      else questions in
    slice_to questions num_questions.

(** ** chatbot.py: HiringAssistant *)

(** The values kept in [candidate_data]: text, a list of texts (questions,
    answers, final questions) and the question cursor. *)
Inductive value :=
| VStr (s : str)
| VList (l : list str)
| VInt (n : Z).

(** One entry of the transcript. A reply is the value a handler returns; the
    handlers return [error_message], an [Optional[str]], so the content is an
    [option str] ([None] is Python's [None]). *)
Record message := Message { role : str; content : option str }.

Record HiringAssistant := {
  conversation_history : list message;
  candidate_data : gmap str value;
  current_stage : str;
  validation_attempts : gmap str Z
}.

(** The state set up by [__init__]. *)
Definition new_HiringAssistant : HiringAssistant := {|
  conversation_history := [];
  candidate_data := ∅;
  current_stage := lit "greeting";
  validation_attempts := ∅
|}.

Definition stages : list str :=
  [lit "greeting"; lit "name"; lit "email"; lit "phone"; lit "experience"; lit "position"; lit "location"; lit "techstack"; lit "questions"; lit "complete"].

Definition stage_questions : gmap str str :=
  list_to_map [
    (lit "name",
     lit "Great to meet you! What's your full name?");
    (lit "email",
     lit "Thanks! What's your email address?");
    (lit "phone",
     lit "And your phone number? (You can include country code)");
    (lit "experience",
     lit "How many years of professional experience do you have? (If you're a fresher, just say 0 or 'fresher')");
    (lit "position",
     lit "What position or role are you interested in?");
    (lit "location",
     lit "Where are you currently located? (City, Country)");
    (lit "techstack",
     lit "Now let's talk about your technical skills! 

What's your tech stack? Please list:
â€¢ Programming languages (e.g., Python, JavaScript, Java)
â€¢ Frameworks (e.g., React, Django, Spring)
â€¢ Databases (e.g., MySQL, MongoDB, PostgreSQL)
â€¢ Tools (e.g., Docker, Git, AWS)

You can list them separated by commas.")
  ].

(** *** The state-and-exception monad of the methods *)

Inductive outcome (A : Type) :=
| Return (a : A)
| Raise (e : exn).
Arguments Return {A} a.
Arguments Raise {A} e.

Definition M (A : Type) : Type := HiringAssistant -> HiringAssistant * outcome A.

#[global] Instance M_ret : MRet M := fun A a h => (h, Return a).

#[global] Instance M_bind : MBind M := fun A B f m h =>
  match m h with
  | (h', Return a) => f a h'
  | (h', Raise e) => (h', Raise e)
  end.

Definition raise {A} (e : exn) : M A := fun h => (h, Raise e).

Definition gets {A} (f : HiringAssistant -> A) : M A := fun h => (h, Return (f h)).

Definition modify (f : HiringAssistant -> HiringAssistant) : M unit :=
  fun h => (f h, Return tt).

Definition with_history (f : list message -> list message) (h : HiringAssistant) :=
  {| conversation_history := f (conversation_history h);
     candidate_data := candidate_data h;
     current_stage := current_stage h;
     validation_attempts := validation_attempts h |}.

Definition with_data (f : gmap str value -> gmap str value) (h : HiringAssistant) :=
  {| conversation_history := conversation_history h;
     candidate_data := f (candidate_data h);
     current_stage := current_stage h;
     validation_attempts := validation_attempts h |}.

Definition with_stage (s : str) (h : HiringAssistant) :=
  {| conversation_history := conversation_history h;
     candidate_data := candidate_data h;
     current_stage := s;
     validation_attempts := validation_attempts h |}.

Definition with_attempts (f : gmap str Z -> gmap str Z) (h : HiringAssistant) :=
  {| conversation_history := conversation_history h;
     candidate_data := candidate_data h;
     current_stage := current_stage h;
     validation_attempts := f (validation_attempts h) |}.

(** [self.conversation_history.append({"role": r, "content": c})] *)
Definition log (r : str) (c : option str) : M unit :=
  modify (with_history (fun l => l ++ [Message r c])).

(** [self.candidate_data[k] = v] *)
Definition set_data (k : str) (v : value) : M unit :=
  modify (with_data (insert k v)).

(** [self.candidate_data[k]] *)
Definition get_data (k : str) : M value :=
  fun h => match candidate_data h !! k with
           | Some v => (h, Return v)
           | None => (h, Raise (KeyError k))
           end.

(** [self.validation_attempts[k] = n] *)
Definition set_attempts (k : str) (n : Z) : M unit :=
  modify (with_attempts (insert k n)).

(** [self.current_stage = s] *)
Definition set_stage (s : str) : M unit := modify (with_stage s).

(** *** Dynamic operations on the values of [candidate_data] *)

(** Truth value of [v] in an [if]. *)
Definition truthy (v : value) : bool :=
  match v with
  | VStr s => negb (bool_decide (s = []))
  | VList l => negb (bool_decide (l = []))
  | VInt n => negb (n =? 0)%Z
  end.

(** [len(v)] *)
Definition value_len (v : value) : M Z :=
  match v with
  | VStr s => mret (len s)
  | VList l => mret (len l)
  | VInt _ => raise TypeError
  end.

(** [l[i]] with Python's reading of a negative index. *)
Definition index {A} (l : list A) (i : Z) : option A :=
  if (0 <=? i)%Z then l !! Z.to_nat i
  else if (0 <=? len l + i)%Z then l !! Z.to_nat (len l + i)
  else None.

(** [v[i]] *)
Definition value_index (v : value) (i : Z) : M str :=
  match v with
  | VList l => match index l i with Some x => mret x | None => raise IndexError end
  | VStr s => match index s i with Some c => mret [c] | None => raise IndexError end
  | VInt _ => raise TypeError
  end.

(** [', '.join(l)] *)
Fixpoint join (sep : str) (l : list str) : str :=
  match l with
  | [] => []
  | [x] => x
  | x :: l' => x ++ sep ++ join sep l'
  end.

(** [v] as a replacement field of an f-string. *)
Definition format_value (rt : runtime) (v : value) : str :=
  match v with
  | VStr s => s
  | VInt n => str_of_int n
  | VList l => lit "[" ++ join (lit ", ") (map (repr rt) l) ++ lit "]"
  end.

(** *** The methods *)

Definition greeting : str :=
  lit "Hello! ðŸ‘‹ I'm TalentScout's AI Hiring Assistant.

I'm here to help us get to know you better and understand your technical expertise. This initial screening will take about 10-15 minutes.

Here's what we'll cover:
â€¢ Your background and experience  
â€¢ Your technical skills  
â€¢ A few technical questions based on your expertise

Everything you share is confidential and used only for recruitment purposes.

Ready to begin? Please tell me your full name. ðŸ˜Š".

Definition start_conversation : M str :=
  log (lit "assistant") (Some greeting);;
  mret greeting.

Definition _handle_greeting (message : str) : M (option str) :=
  set_data (lit "name") (VStr (strip message));;
  set_attempts (lit "name_attempts") 0;;
  set_stage (lit "email");;
  mret (Some (stage_questions !!! lit "email")).

Definition _move_to_next_stage : M (option str) :=
  stage ← gets current_stage;
  match list_find (fun s => s = stage) stages with
  | None => raise ValueError
  | Some (current_index, _) =>
      match stages !! (current_index + 1)%nat with
      | None => raise IndexError
      | Some next_stage =>
          set_stage next_stage;;
          match stage_questions !! next_stage with
          | Some question => mret (Some question)
          | None => mret (Some (lit "Thank you!"))
          end
      end
  end.

Definition _handle_info_collection (rt : runtime) (message : str) : M (option str) :=
  stage ← gets current_stage;
  let '(is_valid, error_message) := validate rt stage message in
  if negb is_valid then
    let attempt_key := stage ++ lit "_attempts" in
    attempts ← gets (fun h => default 0%Z (validation_attempts h !! attempt_key));
    if (2 <=? attempts)%Z then
      set_attempts attempt_key 0;;
      set_data stage (VStr (strip message));;
      _move_to_next_stage
    else
      set_attempts attempt_key (attempts + 1);;
      mret error_message
  else
    set_attempts (stage ++ lit "_attempts") 0;;
    set_data stage (VStr (strip message));;
    _move_to_next_stage.

(** The reply that opens the technical questions (an f-string). *)
Definition techstack_intro (total : Z) (first_question : str) : str :=
  lit "Excellent! Based on your tech stack, I'd like to ask you some technical questions to better understand your expertise. âœ¨

We'll go through " ++ str_of_int total ++ lit " questions. Take your time with each answer - there's no rush!

**Question 1:** " ++ first_question.

Definition _handle_techstack (rt : runtime) (llm : client) (message : str) : M (option str) :=
  let '(is_valid, error_message) := validate rt (lit "techstack") message in
  if negb is_valid then mret error_message
  else
    set_data (lit "techstack") (VStr (strip message));;
    let questions := generate_questions rt llm message 4 in
    set_data (lit "questions") (VList questions);;
    set_data (lit "answers") (VList []);;
    set_data (lit "current_question") (VInt 0);;
    set_stage (lit "questions");;
    match index questions 0 with
    | None => raise IndexError
    | Some first_question =>
        mret (Some (techstack_intro (len questions) first_question))
    end.

(** The summary that closes the interview (an f-string). *)
Definition completion_message (rt : runtime)
    (name experience position techstack : value) (answered : Z) : str :=
  lit "Thank you so much, " ++ format_value rt name
  ++ lit "! ðŸŽ‰

We've completed the initial screening. Here's what we covered:

âœ… Personal Information
âœ… Professional Experience: " ++ format_value rt experience
  ++ lit "
âœ… Desired Position: " ++ format_value rt position
  ++ lit "
âœ… Tech Stack: " ++ format_value rt techstack
  ++ lit "
âœ… Technical Questions: " ++ str_of_int answered
  ++ lit " answered

**Next Steps:**
â€¢ Our recruitment team will review your profile and responses
â€¢ We'll carefully evaluate your technical answers
â€¢ You'll hear back from us within 3-5 business days

**Do you have any questions for us?**
If you have any questions about the role, company, or process, please feel free to ask! We'll get back to you via email within the next few days.

Otherwise, you can type 'bye' to end the conversation.".

Definition _generate_completion_message (rt : runtime) : M (option str) :=
  data ← gets candidate_data;
  let name := default (VStr (lit "there")) (data !! lit "name") in
  let experience := default (VStr (lit "N/A")) (data !! lit "experience") in
  let position := default (VStr (lit "N/A")) (data !! lit "position") in
  let techstack := default (VStr (lit "N/A")) (data !! lit "techstack") in
  answered ← value_len (default (VList []) (data !! lit "answers"));
  mret (Some (completion_message rt name experience position techstack answered)).

(** The reply that asks the next technical question (an f-string). *)
Definition next_question_message (next_q_num : Z) (next_question : str) : str :=
  lit "Great answer! Thank you for sharing that. ðŸ‘

**Question " ++ str_of_int next_q_num ++ lit ":** " ++ next_question.

Definition _handle_technical_questions (rt : runtime) (message : str) : M (option str) :=
  answers ← get_data (lit "answers");
  match answers with
  | VList l => set_data (lit "answers") (VList (l ++ [strip message]))
  | _ => raise AttributeError
  end;;
  current_q ← get_data (lit "current_question");
  questions ← get_data (lit "questions");
  total_q ← value_len questions;
  match current_q with
  | VInt current_q =>
      if (current_q <? total_q - 1)%Z then
        set_data (lit "current_question") (VInt (current_q + 1));;
        let next_q_num := (current_q + 2)%Z in
        next_question ← value_index questions (current_q + 1);
        mret (Some (next_question_message next_q_num next_question))
      else
        set_stage (lit "complete");;
        _generate_completion_message rt
  | _ => raise TypeError
  end.

(** The reply to a message received after the interview is complete. *)
Definition completion_reply : str :=
  lit "Thank you for your question! I've recorded it for our team.

We'll review your question along with your application and get back to you via email within the next few days with a detailed response.

Is there anything else you'd like to know? Otherwise, feel free to type 'bye' to end the conversation. 

Have a great day! ðŸ‘‹".

Definition _handle_completion (message : str) : M (option str) :=
  data ← gets candidate_data;
  match data !! lit "final_questions" with
  | None => set_data (lit "final_questions") (VList [])
  | Some _ => mret tt
  end;;
  final_questions ← get_data (lit "final_questions");
  match final_questions with
  | VList l => set_data (lit "final_questions") (VList (l ++ [strip message]))
  | _ => raise AttributeError
  end;;
  mret (Some completion_reply).

Definition info_stages : list str :=
  [lit "name"; lit "email"; lit "phone"; lit "experience"; lit "position"; lit "location"].

Definition process_message (rt : runtime) (llm : client) (user_message : str) : M (option str) :=
  log (lit "user") (Some user_message);;
  stage ← gets current_stage;
  response ←
    (if bool_decide (stage = lit "greeting") then _handle_greeting user_message
     else if bool_decide (stage ∈ info_stages) then _handle_info_collection rt user_message
     else if bool_decide (stage = lit "techstack") then _handle_techstack rt llm user_message
     else if bool_decide (stage = lit "questions") then _handle_technical_questions rt user_message
     else if bool_decide (stage = lit "complete") then _handle_completion user_message
     else mret (Some (lit "Let's continue with the interview.")));
  log (lit "assistant") response;;
  mret response.

Definition end_conversation : M str :=
  data ← gets candidate_data;
  let name := default (VStr []) (data !! lit "name") in
  let farewell := FAREWELL_PROMPT in
  if truthy name then
    match name with
    | VStr name => mret (replace farewell (lit "today") name)
    | _ => raise TypeError
    end
  else mret farewell.

(** The dict returned by [get_conversation_summary]. *)
Record summary := {
  summary_candidate_data : gmap str value;
  summary_current_stage : str;
  total_messages : Z;
  questions_asked : Z;
  answers_provided : Z
}.

Definition get_conversation_summary : M summary :=
  data ← gets candidate_data;
  stage ← gets current_stage;
  history ← gets conversation_history;
  questions ← value_len (default (VList []) (data !! lit "questions"));
  answers ← value_len (default (VList []) (data !! lit "answers"));
  mret {| summary_candidate_data := data;
          summary_current_stage := stage;
          total_messages := len history;
          questions_asked := questions;
          answers_provided := answers |}.

(** ** utils/data_handler.py *)

(** What a call of [save_candidate] reads from outside the program: the three
    renderings of [datetime.now()] it asks for, and whether the file at a path
    can be opened and written. *)
Record env := {
  now_isoformat : str;
  now_interview_id : str;
  now_filename : str;
  writable : str -> bool
}.

(** The handler and the directory it writes to; a file is the record dumped
    into it. *)
Record DataHandler := {
  data_dir : str;
  files : gmap str (gmap str value)
}.

Definition new_DataHandler : DataHandler :=
  {| data_dir := lit "data/candidates"; files := ∅ |}.

(** [os.path.join(a, b)] on POSIX. *)
Definition path_join (a b : str) : str :=
  if startswith (lit "/") b then b
  else if bool_decide (a = []) || bool_decide (last a = Some 47) then a ++ b
  else a ++ lit "/" ++ b.

(** [_generate_interview_id] *)
Definition _generate_interview_id (e : env) : str := lit "TS_" ++ now_interview_id e.

(** [save_candidate] writes into the dict it is given, which is the
    assistant's own [candidate_data]: the dict after the call is returned with
    the handler and the outcome. *)
Definition save_candidate (e : env) (dh : DataHandler) (candidate_data : gmap str value)
    : gmap str value * DataHandler * outcome str :=
  let candidate_data := <[lit "timestamp" := VStr (now_isoformat e)]> candidate_data in
  let candidate_data := <[lit "interview_id" := VStr (_generate_interview_id e)]> candidate_data in
  match default (VStr (lit "unknown_candidate")) (candidate_data !! lit "name") with
  | VStr name =>
      let name := replace name (lit " ") (lit "_") in
      let timestamp := now_filename e in
      let filename := name ++ lit "_" ++ timestamp ++ lit ".json" in
      let filepath := path_join (data_dir dh) filename in
      if writable e filepath then
        (candidate_data,
         {| data_dir := data_dir dh; files := <[filepath := candidate_data]> (files dh) |},
         Return filename)
      else (candidate_data, dh, Raise OSError)
  | _ => (candidate_data, dh, Raise AttributeError)
  end.

(** [load_candidate]: the files of the model are the records [save_candidate]
    has dumped, and [json.load] gives back the record [json.dump] wrote; a
    path with no file gives [None]. *)
Definition load_candidate (dh : DataHandler) (filename : str) : option (gmap str value) :=
  let filepath := path_join (data_dir dh) filename in
  files dh !! filepath.

(** [anonymize_candidate_data]: the copy is the dict itself, a value. A list
    or an int has no [split]; [email_parts[1]] raises when the text has no
    [@]; [len] of an int raises; a list formats as its [repr]. *)
Definition anonymize_candidate_data (rt : runtime) (candidate_data : gmap str value)
    : outcome (gmap str value) :=
  let anonymized := candidate_data in
  match
    match anonymized !! lit "email" with
    | None => Return anonymized
    | Some (VStr email) =>
        match split 64 email with
        | part0 :: part1 :: _ =>
            Return (<[lit "email" := VStr (slice_to part0 2 ++ lit "***@" ++ part1)]>
                      anonymized)
        | _ => Raise IndexError
        end
    | Some _ => Raise AttributeError
    end
  with
  | Raise e => Raise e
  | Return anonymized =>
      match anonymized !! lit "phone" with
      | None => Return anonymized
      | Some (VInt _) => Raise TypeError
      | Some phone =>
          match phone with
          | VStr s =>
              Return (<[lit "phone" :=
                         VStr (if (4 <=? len s)%Z
                               then lit "***-***-" ++ slice_from s (-4)
                               else lit "***-***")]> anonymized)
          | VList l =>
              Return (<[lit "phone" :=
                         VStr (if (4 <=? len l)%Z
                               then lit "***-***-"
                                    ++ format_value rt (VList (slice_from l (-4)))
                               else lit "***-***")]> anonymized)
          | VInt _ => Raise TypeError
          end
      end
  end.

(** ** app.py *)

Record session_state := {
  messages : list message;
  chatbot : HiringAssistant;
  conversation_started : bool;
  conversation_ended : bool;
  data_handler : DataHandler
}.

(** [initialize_session_state] on a fresh session. *)
Definition initialize_session_state : session_state := {|
  messages := [];
  chatbot := new_HiringAssistant;
  conversation_started := false;
  conversation_ended := false;
  data_handler := new_DataHandler
|}.

Definition exit_keywords : list str :=
  [lit "bye"; lit "exit"; lit "quit"; lit "goodbye"; lit "end"; lit "stop"].

(** [any(keyword in user_input.lower() for keyword in exit_keywords)] *)
Definition wants_exit (rt : runtime) (user_input : str) : bool :=
  existsb (fun keyword => contains keyword (lower rt user_input)) exit_keywords.

Definition add_message (r : str) (c : option str) (st : session_state) : session_state :=
  {| messages := messages st ++ [Message r c];
     chatbot := chatbot st;
     conversation_started := conversation_started st;
     conversation_ended := conversation_ended st;
     data_handler := data_handler st |}.

Definition with_chatbot (bot : HiringAssistant) (st : session_state) : session_state :=
  {| messages := messages st;
     chatbot := bot;
     conversation_started := conversation_started st;
     conversation_ended := conversation_ended st;
     data_handler := data_handler st |}.

Definition started (st : session_state) : session_state :=
  {| messages := messages st;
     chatbot := chatbot st;
     conversation_started := true;
     conversation_ended := conversation_ended st;
     data_handler := data_handler st |}.

Definition ended (st : session_state) : session_state :=
  {| messages := messages st;
     chatbot := chatbot st;
     conversation_started := conversation_started st;
     conversation_ended := true;
     data_handler := data_handler st |}.

(** [data_handler.save_candidate(chatbot.candidate_data)] inside a [try]
    whose handler only reports: the dict and the directory keep what the call
    did before it raised. *)
Definition try_save (e : env) (st : session_state) : session_state :=
  let '(data, dh, _) := save_candidate e (data_handler st) (candidate_data (chatbot st)) in
  {| messages := messages st;
     chatbot := with_data (fun _ => data) (chatbot st);
     conversation_started := conversation_started st;
     conversation_ended := conversation_ended st;
     data_handler := dh |}.

(** The branch of [main] taken on an exit keyword. [end_conversation] is
    called outside any [try]: if it raises, the run stops there. *)
Definition exit_branch (e : env) (st : session_state) : session_state :=
  match end_conversation (chatbot st) with
  | (_, Raise _) => st
  | (_, Return farewell) =>
      let st := add_message (lit "assistant") (Some farewell) st in
      let st :=
        if bool_decide (candidate_data (chatbot st) = ∅) then st else try_save e st in
      ended st
  end.

(** The other branch: the message goes through [process_message]. *)
Definition process_branch (rt : runtime) (llm : client) (e : env) (user_input : str)
    (st : session_state) : session_state :=
  match process_message rt llm user_input (chatbot st) with
  | (bot, Return response) =>
      let st := add_message (lit "assistant") response (with_chatbot bot st) in
      if bool_decide (current_stage (chatbot st) = lit "complete") then try_save e st else st
  | (bot, Raise ex) =>
      let error_msg := lit "My apologies, I seem to have encountered a small glitch. Let's try that again. Error: " ++ str_of_exn rt ex in
      add_message (lit "assistant") (Some error_msg) (with_chatbot bot st)
  end.

(** One run of [main]: the script is run once when the page opens and once
    for each input typed into the chat box, which is shown only while the
    conversation has not ended. *)
Definition main (rt : runtime) (llm : client) (e : env) (user_input : option str)
    (st : session_state) : session_state :=
  let st :=
    if conversation_started st then st
    else
      let '(bot, out) := start_conversation (chatbot st) in
      match out with
      | Return welcome_message =>
          started (add_message (lit "assistant") (Some welcome_message) (with_chatbot bot st))
      | Raise _ => with_chatbot bot st
      end in
  if conversation_ended st then st
  else
    match user_input with
    | None => st
    | Some user_input =>
        if bool_decide (user_input = []) then st
        else
          let st := add_message (lit "user") (Some user_input) st in
          if wants_exit rt user_input then exit_branch e st
          else process_branch rt llm e user_input st
    end.

(** ** Vocabulary of the statements *)

(** The stage that follows [s] in [stages]. *)
Definition next_stage (s : str) : option str :=
  match list_find (fun s' => s' = s) stages with
  | Some (i, _) => stages !! (i + 1)%nat
  | None => None
  end.

(** The retry counter of a stage: [validation_attempts.get(f"{s}_attempts", 0)]. *)
Definition retry_counter (h : HiringAssistant) (s : str) : Z :=
  default 0%Z (validation_attempts h !! (s ++ lit "_attempts")).

(** A call of the caller-facing interface, with the collaborator it meets. *)
Inductive call :=
| Start
| Process (llm : client) (user_message : str).

Definition step (rt : runtime) (h : HiringAssistant) (c : call) : HiringAssistant :=
  match c with
  | Start => (start_conversation h).1
  | Process llm user_message => (process_message rt llm user_message h).1
  end.

(** The state after a sequence of calls and the replies it produced. *)
Definition run (rt : runtime) (cs : list call) (h : HiringAssistant) : HiringAssistant :=
  fold_left (step rt) cs h.

(** A collaborator whose every call fails. *)
Definition failing : client := fun _ _ => None.

(** The email rule in the words of the specification: one or more of
    [alnum . _ % + -], a literal [@], one or more of [alnum . -], a literal
    dot, two or more letters, anchored start to end. *)
Definition email_shape (s : str) : Prop :=
  exists local domain tld,
    s = local ++ [64] ++ domain ++ [46] ++ tld /\
    local <> [] /\ forallb email_local local = true /\
    domain <> [] /\ forallb email_domain domain = true /\
    (2 <= length tld)%nat /\ forallb is_letter tld = true.

(** The state in which a field stage has accepted [message]. *)
Definition accepted (message : str) (h : HiringAssistant) : HiringAssistant :=
  with_data (insert (current_stage h) (VStr (strip message)))
    (with_attempts (insert (current_stage h ++ lit "_attempts") 0%Z) h).

(** The calls that deliver the messages of [turns], each with its own
    collaborator. *)
Definition deliveries (turns : list (client * str)) : list call :=
  map (fun t => Process t.1 t.2) turns.

(** Every retry counter is 0, 1 or 2. *)
Definition counters_bounded (h : HiringAssistant) : Prop :=
  map_Forall (fun _ n => (0 <= n <= 2)%Z) (validation_attempts h).

(** [FAREWELL_PROMPT] around its one occurrence of the word [today]. *)
Definition farewell_before : str :=
  lit "Thank you so much for your time ".

Definition farewell_after : str :=
  lit ", {name}! ðŸŽ‰

We've successfully wrapped up the initial screening. Hereâ€™s what will happen next:

- Our recruitment team will carefully review your profile and answers.
- We'll get back to you within 3-5 business days.

Best of luck with your application! We really appreciate you chatting with us.

Have a wonderful day! ðŸ‘‹".

(** The name field, when there is one, holds text. *)
Definition name_is_text (h : HiringAssistant) : Prop :=
  match candidate_data h !! lit "name" with
  | Some (VStr _) | None => True
  | Some _ => False
  end.

(** The dict as [save_candidate] leaves it: stamped with the time and the
    interview id. *)
Definition stamped (e : env) (data : gmap str value) : gmap str value :=
  <[lit "interview_id" := VStr (_generate_interview_id e)]>
    (<[lit "timestamp" := VStr (now_isoformat e)]> data).

(** The path [save_candidate] writes to for a candidate dict. *)
Definition candidate_path (e : env) (dh : DataHandler) (data : gmap str value) : str :=
  let name :=
    match data !! lit "name" with
    | Some (VStr name) => name
    | _ => lit "unknown_candidate"
    end in
  path_join (data_dir dh)
    (replace name (lit " ") (lit "_") ++ lit "_" ++ now_filename e ++ lit ".json").

(** How one call may change a retry counter: not at all, back to 0, or up by
    one from a value below 2. *)
Definition counter_move (before after : option Z) : Prop :=
  after = before \/ after = Some 0%Z \/
  (after = Some (default 0%Z before + 1)%Z /\ (default 0%Z before < 2)%Z).

(** The state in which the techstack stage has accepted [message] and stored
    [questions]. *)
Definition questions_ready (message : str) (questions : list str) (h : HiringAssistant)
    : HiringAssistant :=
  with_stage (lit "questions")
    (with_data
       (fun data =>
          <[lit "current_question" := VInt 0]>
            (<[lit "answers" := VList []]>
               (<[lit "questions" := VList questions]>
                  (<[lit "techstack" := VStr (strip message)]> data))))
       h).

(** One run of [main] per element: the collaborator and the outside world of
    the run, and the input typed, if any. *)
Definition session_run (rt : runtime) (runs : list (client * env * option str))
    (st : session_state) : session_state :=
  fold_left (fun st r => main rt r.1.1 r.1.2 r.2 st) runs st.

(** The technical questions are under way: [questions] were generated,
    [answers] were given so far and the cursor is at the next question. *)
Definition asking (questions answers : list str) (h : HiringAssistant) : Prop :=
  current_stage h = lit "questions" /\
  candidate_data h !! lit "questions" = Some (VList questions) /\
  candidate_data h !! lit "answers" = Some (VList answers) /\
  candidate_data h !! lit "current_question" = Some (VInt (len answers)) /\
  (len answers < len questions)%Z.

(** The summary [_generate_completion_message] builds from a candidate dict
    when [answered] answers were recorded. *)
Definition summary_of (rt : runtime) (data : gmap str value) (answered : Z) : str :=
  completion_message rt
    (default (VStr (lit "there")) (data !! lit "name"))
    (default (VStr (lit "N/A")) (data !! lit "experience"))
    (default (VStr (lit "N/A")) (data !! lit "position"))
    (default (VStr (lit "N/A")) (data !! lit "techstack"))
    answered.

(** The transcript of the questions stage: each message of [turns] followed
    by its reply, which is the next question under its number while one is
    left, and [closing] after the last answer. [answered] counts the answers
    given before. *)
Fixpoint question_turns (closing : str) (questions : list str) (answered : nat)
    (turns : list (client * str)) : list message :=
  match turns with
  | [] => []
  | t :: turns' =>
      Message (lit "user") (Some t.2)
      :: Message (lit "assistant")
           (Some match questions !! S answered with
                 | Some q => next_question_message (Z.of_nat answered + 2) q
                 | None => closing
                 end)
      :: question_turns closing questions (S answered) turns'
  end.

(** The remarks recorded after completion: [final_questions], or none yet. *)
Definition final_questions (h : HiringAssistant) : option (list str) :=
  match candidate_data h !! lit "final_questions" with
  | None => Some []
  | Some (VList l) => Some l
  | Some _ => None
  end.

(** The position of a stage in [stages]. *)
Definition stage_rank (s : str) : option nat :=
  fst <$> list_find (fun s' => s' = s) stages.

(** The states an interview can be in: the final questions, when present, are
    a list, and the stage is the greeting, a field stage after the name, the
    techstack stage, the questions stage with a question pending, or
    complete. *)
Definition well_formed (h : HiringAssistant) : Prop :=
  is_Some (final_questions h) /\
  (current_stage h = lit "greeting" \/
   current_stage h ∈ [lit "email"; lit "phone"; lit "experience"; lit "position";
                      lit "location"] \/
   current_stage h = lit "techstack" \/
   (exists questions answers, asking questions answers h) \/
   current_stage h = lit "complete").

(** A computation that leaves the transcript as it is. *)
Definition quiet {A} (m : M A) : Prop :=
  forall h, conversation_history (m h).1 = conversation_history h.

(** A value without white space around it: a text that is its own [strip],
    a list of such texts. *)
Definition trimmed (v : value) : Prop :=
  match v with
  | VStr s => strip s = s
  | VList l => Forall (fun s => strip s = s) l
  | VInt _ => True
  end.

(** Every field is trimmed, apart from the generated questions and the two
    stamps of [save_candidate]. *)
Definition fields_trimmed (data : gmap str value) : Prop :=
  forall (k : str) v, data !! k = Some v ->
    k ∈ [lit "questions"; lit "timestamp"; lit "interview_id"] \/ trimmed v.

(** Where the questions and the answers of an interview stand: none before
    the questions stage; then four questions and fewer than four answers
    while the questions are asked, four answers once the interview is
    complete. *)
Definition interview_shape (h : HiringAssistant) : Prop :=
  (current_stage h <> lit "questions" /\ current_stage h <> lit "complete" /\
   candidate_data h !! lit "questions" = None /\
   candidate_data h !! lit "answers" = None) \/
  (exists questions answers,
     candidate_data h !! lit "questions" = Some (VList questions) /\
     candidate_data h !! lit "answers" = Some (VList answers) /\
     len questions = 4%Z /\
     ((current_stage h = lit "questions" /\ (len answers < 4)%Z) \/
      (current_stage h = lit "complete" /\ len answers = 4%Z))).

(** The number of entries a list of calls adds to the transcript when none
    of them raises. *)
Definition entries (calls : list call) : Z :=
  fold_right (fun c n => match c with Start => 1 | Process _ _ => 2 end + n)%Z 0%Z calls.

(** * Properties *)

(** Closed tests [bool_decide P] are replaced by their value. *)
Ltac has_var t := match t with context [?v] => is_var v end.

Ltac eval_bool_decide :=
  repeat match goal with
  | |- context [bool_decide ?P] =>
      tryif has_var P then fail else
      let b := eval vm_compute in (bool_decide P) in
      lazymatch b with
      | true => change (bool_decide P) with true
      | false => change (bool_decide P) with false
      end
  end.

Ltac run_m :=
  cbv [mbind M_bind mret M_ret log modify gets raise set_data get_data set_attempts
       set_stage with_history with_data with_stage with_attempts];
  cbn [conversation_history candidate_data current_stage validation_attempts].

(** Handlers that never write to [validation_attempts]. *)
Ltac frame :=
  intros; run_m; repeat case_match; simplify_eq; run_m; cbn [fst]; try reflexivity.

(** Handlers that never write to the name field. *)
Ltac name_frame :=
  intros; run_m; repeat case_match; simplify_eq; cbn [fst]; run_m;
  rewrite ?lookup_insert_ne by (let H := fresh in intros H; vm_compute in H; discriminate);
  try reflexivity.

(** ** Python strings *)

Example lit_sample : lit "a€b" = [97; 8364; 98].
Proof. reflexivity. Qed.

Example strip_sample : strip (lit "  Jane Doe  ") = lit "Jane Doe".
Proof. reflexivity. Qed.

Example replace_sample :
  replace (lit "a today b today") (lit "today") (lit "X") = lit "a X b X".
Proof. reflexivity. Qed.

Example replace_empty_sample : replace (lit "abc") [] (lit "X") = lit "XaXbXcX".
Proof. reflexivity. Qed.

Example str_of_int_sample : str_of_int (-42) = lit "-42".
Proof. reflexivity. Qed.

(** ** Regular expressions and the validator *)

Module ReFacts.
Import Re RePrefix.

Create HintDb re.
#[local] Hint Constructors Matches : re.

Lemma Matches_Void_inv s : Matches Void s -> False.
Proof. inversion 1. Qed.

Lemma Matches_Eps_inv s : Matches Eps s -> s = [].
Proof. by inversion 1. Qed.

Lemma Matches_Cls_inv p s : Matches (Cls p) s -> exists c, s = [c] /\ p c = true.
Proof. inversion 1; eauto. Qed.

Lemma Matches_Cat_inv r1 r2 s :
  Matches (Cat r1 r2) s ->
  exists s1 s2, s = s1 ++ s2 /\ Matches r1 s1 /\ Matches r2 s2.
Proof. inversion 1; eauto 6. Qed.

Lemma Matches_Alt_inv r1 r2 s : Matches (Alt r1 r2) s -> Matches r1 s \/ Matches r2 s.
Proof. inversion 1; eauto. Qed.

Lemma Matches_Cat_cons r1 r2 c s1 s2 :
  Matches r1 (c :: s1) -> Matches r2 s2 -> Matches (Cat r1 r2) (c :: s1 ++ s2).
Proof. intros. change (c :: s1 ++ s2) with ((c :: s1) ++ s2). by constructor. Qed.

Lemma Matches_Cat_nil_l r1 r2 s :
  Matches r1 [] -> Matches r2 s -> Matches (Cat r1 r2) s.
Proof. intros. change s with ([] ++ s). by constructor. Qed.

Lemma nullable_Matches r : nullable r = true <-> Matches r [].
Proof.
  split.
  - induction r; cbn; intros H; try discriminate; eauto with re.
    + apply andb_true_iff in H as [H1 H2]. apply Matches_Cat_nil_l; auto.
    + apply orb_true_iff in H as [H|H]; eauto with re.
  - remember [] as s eqn:Hs. induction 1; cbn; try done.
    + apply app_eq_nil in Hs as [-> ->]. rewrite IHMatches1, IHMatches2; done.
    + rewrite IHMatches; done.
    + rewrite IHMatches; [apply orb_true_r | done].
Qed.

Lemma Matches_star_cons r c s :
  Matches (Star r) (c :: s) ->
  exists s1 s2, s = s1 ++ s2 /\ Matches r (c :: s1) /\ Matches (Star r) s2.
Proof.
  remember (Star r) as r' eqn:Hr. remember (c :: s) as cs eqn:Hcs.
  intros H. revert c s Hcs. induction H; intros c0 s0 Hcs; try discriminate.
  injection Hr as ->. destruct s1 as [|c1 s1].
  - cbn in Hcs. eauto.
  - cbn in Hcs. injection Hcs as -> <-. eauto.
Qed.

Lemma deriv_Matches c r s : Matches (deriv c r) s <-> Matches r (c :: s).
Proof.
  revert s. induction r as [| |p|r1 IH1 r2 IH2|r1 IH1 r2 IH2|r IH]; intros s; cbn.
  - split; intros H; inversion H.
  - split; intros H; inversion H.
  - destruct (p c) eqn:Hp; split; intros H.
    + apply Matches_Eps_inv in H as ->. by constructor.
    + apply Matches_Cls_inv in H as (c' & [= <- ->] & _). constructor.
    + by apply Matches_Void_inv in H.
    + apply Matches_Cls_inv in H as (c' & [= <- ->] & ?). congruence.
  - assert (Hcat : Matches (Cat (deriv c r1) r2) s ->  Matches (Cat r1 r2) (c :: s)).
    { intros H. apply Matches_Cat_inv in H as (s1 & s2 & -> & H1 & H2).
      apply Matches_Cat_cons; [by apply IH1 | done]. }
    destruct (nullable r1) eqn:Hn.
    + split; intros H.
      * apply Matches_Alt_inv in H as [H|H]; [by apply Hcat|].
        apply Matches_Cat_nil_l; [by apply nullable_Matches | by apply IH2].
      * apply Matches_Cat_inv in H as ([|c1 s1] & s2 & Heq & H1 & H2); cbn in Heq.
        -- subst. apply MAltR. by apply IH2.
        -- injection Heq as <- ->. apply MAltL. constructor; [by apply IH1 | done].
    + split; [exact Hcat|]. intros H.
      apply Matches_Cat_inv in H as ([|c1 s1] & s2 & Heq & H1 & H2); cbn in Heq.
      * apply nullable_Matches in H1. congruence.
      * injection Heq as <- ->. constructor; [by apply IH1 | done].
  - split; intros H; apply Matches_Alt_inv in H as [H|H].
    + apply MAltL. by apply IH1.
    + apply MAltR. by apply IH2.
    + apply MAltL. by apply IH1.
    + apply MAltR. by apply IH2.
  - split; intros H.
    + apply Matches_Cat_inv in H as (s1 & s2 & -> & H1 & H2).
      change (c :: s1 ++ s2) with ((c :: s1) ++ s2). constructor; [by apply IH | done].
    + apply Matches_star_cons in H as (s1 & s2 & -> & H1 & H2).
      constructor; [by apply IH | done].
Qed.

Lemma matchb_spec r s : matchb r s = true <-> Matches r s.
Proof.
  revert r. induction s as [|c s IH]; intros r; cbn.
  - apply nullable_Matches.
  - rewrite IH. apply deriv_Matches.
Qed.

(** A class repeated at least [n] times matches the runs of the class of
    length [n] or more. *)
Lemma Matches_star_cls p s : Matches (Star (Cls p)) s <-> forallb p s = true.
Proof.
  split.
  - remember (Star (Cls p)) as r eqn:Hr. induction 1; try discriminate; [done|].
    injection Hr as ->. apply Matches_Cls_inv in H as (c & -> & Hc).
    cbn. rewrite Hc. auto.
  - induction s as [|c s IH]; cbn; intros H; [constructor|].
    apply andb_true_iff in H as [Hc Hs].
    change (c :: s) with ([c] ++ s). constructor; [by constructor | auto].
Qed.

Lemma Matches_atleast_cls n p s :
  Matches (atleast n (Cls p)) s <-> (n <= length s)%nat /\ forallb p s = true.
Proof.
  revert s. induction n as [|n IH]; intros s; cbn.
  - rewrite Matches_star_cls. split; [intros; split; [lia|done] | by intros []].
  - split.
    + intros H. apply Matches_Cat_inv in H as (s1 & s2 & -> & H1 & H2).
      apply Matches_Cls_inv in H1 as (c & -> & Hc). apply IH in H2 as [Hl Hs].
      cbn. rewrite Hc. split; [lia | done].
    + intros [Hl Hs]. destruct s as [|c s]; cbn in *; [lia|].
      apply andb_true_iff in Hs as [Hc Hs].
      change (c :: s) with ([c] ++ s). constructor; [by constructor|].
      apply IH. split; [lia | done].
Qed.

Lemma nonempty_length {A} (l : list A) : l <> [] <-> (1 <= length l)%nat.
Proof. destruct l; cbn; split; (done || lia). Qed.

Lemma Matches_email s : Matches email_pattern s <-> email_shape s.
Proof.
  unfold email_pattern, email_shape. split.
  - intros H.
    apply Matches_Cat_inv in H as (l & s1 & -> & Hl & H).
    apply Matches_Cat_inv in H as (a & s2 & -> & Ha & H).
    apply Matches_Cat_inv in H as (d & s3 & -> & Hd & H).
    apply Matches_Cat_inv in H as (o & t & -> & Ho & Ht).
    apply Matches_Cls_inv in Ha as (c1 & -> & <-%N.eqb_eq).
    apply Matches_Cls_inv in Ho as (c2 & -> & <-%N.eqb_eq).
    apply Matches_atleast_cls in Hl as [Hl1 Hl2], Hd as [Hd1 Hd2], Ht as [Ht1 Ht2].
    exists l, d, t. rewrite !nonempty_length. done.
  - intros (l & d & t & -> & Hl1 & Hl2 & Hd1 & Hd2 & Ht1 & Ht2).
    apply nonempty_length in Hl1, Hd1.
    repeat constructor; try by apply Matches_atleast_cls.
Qed.

Lemma lstrip_head s :
  match lstrip s with c :: _ => isspace c = false | [] => True end.
Proof.
  induction s as [|c s IH]; cbn; [done|]. by destruct (isspace c) eqn:Hc.
Qed.

Lemma strip_not_newline_ended s t : rev (strip s) <> 10 :: t.
Proof.
  unfold strip, rstrip. rewrite rev_involutive.
  pose proof (lstrip_head (rev (lstrip s))) as H. intros Heq. by rewrite Heq in H.
Qed.

(** On trimmed text the [$] of the pattern can only hold at the very end. *)
Lemma match_anchored_strip r s : match_anchored r (strip s) = matchb r (strip s).
Proof.
  unfold match_anchored. pose proof (strip_not_newline_ended s) as H.
  destruct (rev (strip s)) as [|c t]; [apply orb_false_r|].
  destruct (N.eqb_spec c 10) as [->|Hc]; [by destruct (H t)|].
  apply orb_false_r.
Qed.

End ReFacts.


Lemma existsb_isdigit_ascii rt s :
  ascii_only s = true -> existsb (isdigit rt) s = existsb ascii_digit s.
Proof.
  induction s as [|c s IH]; cbn; [done|]. intros [Hc Hs]%andb_true_iff.
  rewrite isdigit_ascii, IH by (done || by apply N.ltb_lt). done.
Qed.

Lemma validate_email rt value :
  validate rt (lit "email") value =
    if Re.matchb email_pattern (strip value) then (true, None)
    else (false, Some (VALIDATION_PROMPTS !!! lit "email")).
Proof.
  unfold validate. eval_bool_decide. cbv iota.
  by rewrite ReFacts.match_anchored_strip.
Qed.

Lemma validate_experience rt value :
  validate rt (lit "experience") value =
    if bool_decide (lower rt (strip value) ∈ [lit "fresher"; lit "fresh graduate"; lit "0"])
       || existsb (isdigit rt) (strip value)
    then (true, None)
    else (false, Some (VALIDATION_PROMPTS !!! lit "experience")).
Proof. unfold validate. eval_bool_decide. reflexivity. Qed.

(** C7. The email and experience rules of [validate]: the four examples of
    the specification, and in general an email is accepted exactly when the
    trimmed text has the shape of the anchored pattern, an experience answer
    exactly when the lowercased trimmed text is [fresher], [fresh graduate]
    or [0], or the trimmed text has a digit; a refusal carries the canned
    error of the rule. *)
Theorem validate_email_experience rt :
  validate rt (lit "email") (lit "jane.doe@example.com") = (true, None) /\
  validate rt (lit "email") (lit "not-an-email") =
    (false, Some (VALIDATION_PROMPTS !!! lit "email")) /\
  validate rt (lit "experience") (lit "fresher") = (true, None) /\
  validate rt (lit "experience") (lit "abc") =
    (false, Some (VALIDATION_PROMPTS !!! lit "experience")) /\
  (forall value,
     (validate rt (lit "email") value = (true, None) <-> email_shape (strip value)) /\
     (validate rt (lit "email") value = (false, Some (VALIDATION_PROMPTS !!! lit "email"))
        <-> ~ email_shape (strip value))) /\
  (forall value,
     let accepted :=
       lower rt (strip value) ∈ [lit "fresher"; lit "fresh graduate"; lit "0"] \/
       exists c, c ∈ strip value /\ isdigit rt c = true in
     (validate rt (lit "experience") value = (true, None) <-> accepted) /\
     (validate rt (lit "experience") value =
        (false, Some (VALIDATION_PROMPTS !!! lit "experience")) <-> ~ accepted)).
Proof.
  split; [|split; [|split; [|split; [|split]]]].
  - rewrite validate_email. reflexivity.
  - rewrite validate_email. reflexivity.
  - rewrite validate_experience.
    change (strip (lit "fresher")) with (lit "fresher").
    rewrite lower_ascii by reflexivity. reflexivity.
  - rewrite validate_experience.
    change (strip (lit "abc")) with (lit "abc").
    rewrite lower_ascii, existsb_isdigit_ascii by reflexivity. reflexivity.
  - intros value. rewrite validate_email.
    pose proof (ReFacts.matchb_spec email_pattern (strip value)) as Hspec.
    rewrite ReFacts.Matches_email in Hspec.
    destruct (Re.matchb email_pattern (strip value)); split; split; try done.
    + intros _. by apply Hspec.
    + intros Hn. destruct Hn. by apply Hspec.
    + intros Hs. by apply Hspec in Hs.
    + intros _ Hs. by apply Hspec in Hs.
  - intros value accepted. rewrite validate_experience.
    assert (Hspec : bool_decide (lower rt (strip value) ∈
                       [lit "fresher"; lit "fresh graduate"; lit "0"])
                    || existsb (isdigit rt) (strip value) = true <-> accepted).
    { rewrite orb_true_iff, bool_decide_eq_true, existsb_exists. unfold accepted.
      by setoid_rewrite list_elem_of_In. }
    destruct (bool_decide _ || existsb _ _); split; split; try done.
    + intros _. by apply Hspec.
    + intros Hn. destruct Hn. by apply Hspec.
    + intros Hs. by apply Hspec in Hs.
    + intros _ Hs. by apply Hspec in Hs.
Qed.

(** ** The field stages *)

Lemma _handle_greeting_run message h :
  _handle_greeting message h =
    ({| conversation_history := conversation_history h;
        candidate_data := <[lit "name" := VStr (strip message)]> (candidate_data h);
        current_stage := lit "email";
        validation_attempts := <[lit "name_attempts" := 0%Z]> (validation_attempts h) |},
     Return (Some (stage_questions !!! lit "email"))).
Proof. reflexivity. Qed.

(** C5, amended. In the greeting stage every utterance is stored, trimmed of
    leading and trailing white space and through no validation rule, as the
    name field; the name retry counter is set to 0, the stage becomes email
    without passing through the name stage, and the reply is the email
    prompt. *)
Theorem greeting_stores_trimmed_name rt llm h utterance :
  current_stage h = lit "greeting" ->
  process_message rt llm utterance h =
    ({| conversation_history :=
          conversation_history h ++
            [Message (lit "user") (Some utterance);
             Message (lit "assistant") (Some (stage_questions !!! lit "email"))];
        candidate_data := <[lit "name" := VStr (strip utterance)]> (candidate_data h);
        current_stage := lit "email";
        validation_attempts := <[lit "name_attempts" := 0%Z]> (validation_attempts h) |},
     Return (Some (stage_questions !!! lit "email"))).
Proof.
  intros Hstage. unfold process_message. run_m. rewrite Hstage.
  eval_bool_decide. cbv iota. rewrite _handle_greeting_run. run_m.
  rewrite <- app_assoc. reflexivity.
Qed.

Lemma info_stage_cases (P : str -> Prop) :
  P (lit "name") -> P (lit "email") -> P (lit "phone") ->
  P (lit "experience") -> P (lit "position") -> P (lit "location") ->
  forall s, s ∈ info_stages -> P s.
Proof.
  intros H1 H2 H3 H4 H5 H6 s Hs. unfold info_stages in Hs.
  repeat (apply elem_of_cons in Hs; destruct Hs as [-> | Hs]); try assumption.
  by apply elem_of_nil in Hs.
Qed.

Lemma info_stage_next s :
  s ∈ info_stages ->
  exists next prompt, next_stage s = Some next /\ stage_questions !! next = Some prompt.
Proof.
  revert s. apply info_stage_cases; vm_compute; eauto.
Qed.

Lemma _move_to_next_stage_run h next :
  next_stage (current_stage h) = Some next ->
  _move_to_next_stage h =
    (with_stage next h, Return (Some (default (lit "Thank you!") (stage_questions !! next)))).
Proof.
  unfold next_stage, _move_to_next_stage. run_m.
  destruct (list_find _ stages) as [[i s]|]; [|discriminate].
  intros ->. run_m. by destruct (stage_questions !! next).
Qed.

Lemma _handle_info_collection_retry rt message h e :
  validate rt (current_stage h) message = (false, e) ->
  (retry_counter h (current_stage h) < 2)%Z ->
  _handle_info_collection rt message h =
    (with_attempts (insert (current_stage h ++ lit "_attempts")
                      (retry_counter h (current_stage h) + 1)%Z) h,
     Return e).
Proof.
  intros Hv Hn. unfold _handle_info_collection, retry_counter in *. run_m.
  rewrite Hv. cbn [negb]. run_m.
  destruct (Z.leb_spec 2 (default 0%Z (validation_attempts h !! (current_stage h ++ lit "_attempts")))); [lia|].
  reflexivity.
Qed.

Lemma _handle_info_collection_accept rt message h :
  (validate rt (current_stage h) message).1 = true \/
  (2 <= retry_counter h (current_stage h))%Z ->
  _handle_info_collection rt message h = _move_to_next_stage (accepted message h).
Proof.
  intros Hok. unfold _handle_info_collection, retry_counter, accepted in *. run_m.
  destruct (validate rt (current_stage h) message) as [[] e]; cbn [negb fst] in *.
  - reflexivity.
  - destruct Hok as [|Hn]; [discriminate|]. run_m.
    destruct (Z.leb_spec 2 (default 0%Z (validation_attempts h !! (current_stage h ++ lit "_attempts")))); [|lia].
    reflexivity.
Qed.

Lemma process_message_info rt llm message h :
  current_stage h ∈ info_stages ->
  process_message rt llm message h =
    match _handle_info_collection rt message
            (with_history (fun l => l ++ [Message (lit "user") (Some message)]) h) with
    | (h', Return r) =>
        (with_history (fun l => l ++ [Message (lit "assistant") r]) h', Return r)
    | (h', Raise e) => (h', Raise e)
    end.
Proof.
  intros Hs. unfold process_message. run_m.
  rewrite (bool_decide_eq_true_2 _ Hs).
  replace (bool_decide (current_stage h = lit "greeting")) with false; [reflexivity|].
  symmetry. apply bool_decide_eq_false_2. intros Heq. rewrite Heq in Hs.
  assert (Hf : bool_decide (lit "greeting" ∈ info_stages) = false) by reflexivity.
  by apply bool_decide_eq_false_1 in Hf.
Qed.

Lemma validate_shape rt stage value :
  validate rt stage value = (true, None) \/
  exists e, validate rt stage value = (false, Some e).
Proof.
  unfold validate.
  repeat match goal with |- context [if ?b then _ else _] => destruct b end; eauto.
Qed.

Lemma validate_error_is_text rt stage value :
  (validate rt stage value).1 = false -> is_Some (validate rt stage value).2.
Proof.
  destruct (validate_shape rt stage value) as [-> | [e ->]]; [discriminate | by eexists].
Qed.

Lemma process_message_retry rt llm message h :
  current_stage h ∈ info_stages ->
  (validate rt (current_stage h) message).1 = false ->
  (retry_counter h (current_stage h) < 2)%Z ->
  process_message rt llm message h =
    ({| conversation_history :=
          conversation_history h ++
            [Message (lit "user") (Some message);
             Message (lit "assistant") (validate rt (current_stage h) message).2];
        candidate_data := candidate_data h;
        current_stage := current_stage h;
        validation_attempts :=
          <[current_stage h ++ lit "_attempts" := (retry_counter h (current_stage h) + 1)%Z]>
            (validation_attempts h) |},
     Return (validate rt (current_stage h) message).2).
Proof.
  intros Hs Hv Hn. rewrite process_message_info by done.
  destruct (validate rt (current_stage h) message) as [v e] eqn:Hval.
  cbn [fst snd] in *. subst v.
  erewrite _handle_info_collection_retry; [| exact Hval | exact Hn].
  run_m. by rewrite <- app_assoc.
Qed.

Lemma process_message_accept rt llm message h next prompt :
  current_stage h ∈ info_stages ->
  (validate rt (current_stage h) message).1 = true \/
  (2 <= retry_counter h (current_stage h))%Z ->
  next_stage (current_stage h) = Some next ->
  stage_questions !! next = Some prompt ->
  process_message rt llm message h =
    ({| conversation_history :=
          conversation_history h ++
            [Message (lit "user") (Some message);
             Message (lit "assistant") (Some prompt)];
        candidate_data := <[current_stage h := VStr (strip message)]> (candidate_data h);
        current_stage := next;
        validation_attempts :=
          <[current_stage h ++ lit "_attempts" := 0%Z]> (validation_attempts h) |},
     Return (Some prompt)).
Proof.
  intros Hs Hok Hnext Hprompt. rewrite process_message_info by done.
  rewrite _handle_info_collection_accept by done.
  erewrite _move_to_next_stage_run by exact Hnext.
  rewrite Hprompt. unfold accepted. run_m. by rewrite <- app_assoc.
Qed.

(** C1. In each of the stages name, email, phone, experience, position and
    location, starting from a retry counter of 0: two messages that fail the
    stage's validation are each answered with the validation error, the stage
    and the fields stay as they are and the counter becomes 1, then 2; a third
    message, whatever it is, is stored trimmed in the stage's field, the
    counter is back to 0, the stage is the next one and the reply is the next
    stage's prompt. *)
Theorem three_strikes_then_advance rt llm h stage m1 m2 m3 :
  stage ∈ info_stages ->
  current_stage h = stage ->
  retry_counter h stage = 0%Z ->
  (validate rt stage m1).1 = false ->
  (validate rt stage m2).1 = false ->
  let r1 := process_message rt llm m1 h in
  let r2 := process_message rt llm m2 r1.1 in
  let r3 := process_message rt llm m3 r2.1 in
  (r1.2 = Return (validate rt stage m1).2 /\ is_Some (validate rt stage m1).2 /\
   current_stage r1.1 = stage /\ candidate_data r1.1 = candidate_data h /\
   retry_counter r1.1 stage = 1%Z) /\
  (r2.2 = Return (validate rt stage m2).2 /\ is_Some (validate rt stage m2).2 /\
   current_stage r2.1 = stage /\ candidate_data r2.1 = candidate_data h /\
   retry_counter r2.1 stage = 2%Z) /\
  (exists next prompt,
     next_stage stage = Some next /\ stage_questions !! next = Some prompt /\
     r3.2 = Return (Some prompt) /\
     current_stage r3.1 = next /\
     candidate_data r3.1 = <[stage := VStr (strip m3)]> (candidate_data h) /\
     validation_attempts r3.1 !! (stage ++ lit "_attempts") = Some 0%Z).
Proof.
  intros Hs <- H0 Hv1 Hv2 r1 r2 r3.
  destruct (info_stage_next _ Hs) as (next & prompt & Hnext & Hprompt).
  assert (Hr1 : r1 = process_message rt llm m1 h) by reflexivity.
  rewrite process_message_retry in Hr1 by (done || lia).
  assert (Hc1 : retry_counter r1.1 (current_stage h) = 1%Z).
  { rewrite Hr1. unfold retry_counter at 1. cbn [fst validation_attempts].
    rewrite lookup_insert_eq, H0. reflexivity. }
  assert (Hr2 : r2 = process_message rt llm m2 r1.1) by reflexivity.
  assert (Hs1 : current_stage r1.1 = current_stage h) by (by rewrite Hr1).
  rewrite process_message_retry in Hr2 by (rewrite ?Hs1, ?Hc1; done || lia).
  rewrite Hs1, Hc1 in Hr2.
  assert (Hs2 : current_stage r2.1 = current_stage h) by (by rewrite Hr2).
  assert (Hc2 : retry_counter r2.1 (current_stage h) = 2%Z).
  { rewrite Hr2. unfold retry_counter. cbn [fst validation_attempts].
    by rewrite lookup_insert_eq. }
  assert (Hr3 : r3 = process_message rt llm m3 r2.1) by reflexivity.
  rewrite (process_message_accept _ _ _ _ next prompt) in Hr3
    by (rewrite ?Hs2, ?Hc2; auto; lia).
  rewrite Hs2 in Hr3.
  split; [|split].
  - rewrite Hr1. cbn [fst snd current_stage candidate_data]. repeat split; try done.
    + by apply validate_error_is_text.
    + by rewrite Hr1 in Hc1.
  - rewrite Hr2. cbn [fst snd current_stage candidate_data]. repeat split; try done.
    + by apply validate_error_is_text.
    + by rewrite Hr1.
    + by rewrite Hr2 in Hc2.
  - exists next, prompt. rewrite Hr3. cbn [fst snd current_stage candidate_data validation_attempts].
    repeat split; try done.
    + by rewrite Hr2, Hr1.
    + by rewrite lookup_insert_eq.
Qed.

(** C5, as stated, fails: the greeting handler trims the utterance before it
    stores it. *)
Lemma greeting_verbatim_counterexample :
  current_stage new_HiringAssistant = lit "greeting" /\
  candidate_data (process_message ascii_runtime failing (lit " Jane ") new_HiringAssistant).1
    !! lit "name" = Some (VStr (lit "Jane")) /\
  VStr (lit "Jane") <> VStr (lit " Jane ").
Proof. split; [reflexivity|]. split; [reflexivity|]. intros [=]. Qed.

(** C5 at a new assistant and the utterance " J ": a single letter, which
    the name rule would refuse, is stored trimmed. *)
Lemma greeting_stores_trimmed_name_witness :
  process_message ascii_runtime failing (lit " J ") new_HiringAssistant =
    ({| conversation_history :=
          [Message (lit "user") (Some (lit " J "));
           Message (lit "assistant") (Some (stage_questions !!! lit "email"))];
        candidate_data := {[lit "name" := VStr (lit "J")]};
        current_stage := lit "email";
        validation_attempts := {[lit "name_attempts" := 0%Z]} |},
     Return (Some (stage_questions !!! lit "email"))).
Proof.
  exact (greeting_stores_trimmed_name ascii_runtime failing new_HiringAssistant (lit " J ") eq_refl).
Defined.

Lemma lit_in_info_stages s : bool_decide (s ∈ info_stages) = true -> s ∈ info_stages.
Proof. apply bool_decide_eq_true_1. Qed.

(** C1 at the email stage: two refused messages, then a third that is still
    no email address and is accepted all the same. *)
Lemma three_strikes_then_advance_witness :
  let h := with_stage (lit "email") new_HiringAssistant in
  let r1 := process_message ascii_runtime failing (lit "jane") h in
  let r2 := process_message ascii_runtime failing (lit "jane at example") r1.1 in
  let r3 := process_message ascii_runtime failing (lit "no email") r2.1 in
  r1.2 = Return (Some (VALIDATION_PROMPTS !!! lit "email")) /\
  r2.2 = Return (Some (VALIDATION_PROMPTS !!! lit "email")) /\
  r3.2 = Return (Some (stage_questions !!! lit "phone")) /\
  current_stage r3.1 = lit "phone" /\
  candidate_data r3.1 !! lit "email" = Some (VStr (lit "no email")) /\
  retry_counter r3.1 (lit "email") = 0%Z.
Proof.
  intros h r1 r2 r3.
  assert (H0 : retry_counter h (lit "email") = 0%Z) by (vm_compute; reflexivity).
  assert (Hv1 : (validate ascii_runtime (lit "email") (lit "jane")).1 = false)
    by (vm_compute; reflexivity).
  assert (Hv2 : (validate ascii_runtime (lit "email") (lit "jane at example")).1 = false)
    by (vm_compute; reflexivity).
  pose proof (three_strikes_then_advance ascii_runtime failing h (lit "email")
              (lit "jane") (lit "jane at example") (lit "no email")
              (lit_in_info_stages (lit "email") eq_refl) eq_refl H0 Hv1 Hv2) as H.
  cbv zeta in H. fold r1 r2 r3 in H.
  destruct H as ((H1 & _) & (H2 & _) & (next & prompt & Hn & Hp & H3 & H4 & H5 & H6)).
  assert (next = lit "phone") as -> by (vm_compute in Hn; vm_compute; congruence).
  assert (prompt = stage_questions !!! lit "phone") as ->
    by (vm_compute in Hp; vm_compute; congruence).
  unfold retry_counter. rewrite H1, H2, H3, H4, H5, H6. repeat split.
Defined.

(** ** The techstack stage and the retry counters *)

Lemma validate_techstack rt value :
  validate rt (lit "techstack") value =
    if (3 <=? len (strip value))%Z then (true, None)
    else (false, Some (VALIDATION_PROMPTS !!! lit "techstack")).
Proof. unfold validate. eval_bool_decide. reflexivity. Qed.

Lemma process_message_techstack_reject rt llm message h :
  current_stage h = lit "techstack" ->
  (len (strip message) < 3)%Z ->
  process_message rt llm message h =
    (with_history
       (fun l => l ++ [Message (lit "user") (Some message);
                       Message (lit "assistant") (Some (VALIDATION_PROMPTS !!! lit "techstack"))])
       h,
     Return (Some (VALIDATION_PROMPTS !!! lit "techstack"))).
Proof.
  intros Hstage Hshort. unfold process_message. run_m. rewrite Hstage.
  eval_bool_decide. cbv iota. unfold _handle_techstack.
  rewrite validate_techstack.
  destruct (Z.leb_spec 3 (len (strip message))); [lia|].
  cbn [negb]. run_m. by rewrite <- app_assoc.
Qed.

Lemma run_cons rt c cs h : run rt (c :: cs) h = run rt cs (step rt h c).
Proof. reflexivity. Qed.

Lemma run_nil rt h : run rt [] h = h.
Proof. reflexivity. Qed.

(** C6. In the techstack stage a message whose trimmed length is below 3 is
    answered with the canned techstack error and leaves the stage, the
    candidate fields and the retry counters as they were; this holds for any
    number of such messages in a row, so no retry cap ever lets one through:
    the transcript grows by the message and the same error each time. *)
Theorem techstack_rejects_without_cap rt h turns :
  current_stage h = lit "techstack" ->
  Forall (fun t : client * str => (len (strip t.2) < 3)%Z) turns ->
  let canned := VALIDATION_PROMPTS !!! lit "techstack" in
  let h' := run rt (deliveries turns) h in
  Forall (fun t : client * str =>
            forall g, current_stage g = lit "techstack" ->
                      (process_message rt t.1 t.2 g).2 = Return (Some canned)) turns /\
  current_stage h' = lit "techstack" /\
  candidate_data h' = candidate_data h /\
  validation_attempts h' = validation_attempts h /\
  conversation_history h' =
    conversation_history h ++
      flat_map (fun t : client * str =>
                  [Message (lit "user") (Some t.2);
                   Message (lit "assistant") (Some canned)]) turns.
Proof.
  intros Hstage Hshort canned h'. split.
  - eapply Forall_impl; [exact Hshort|]. intros t Ht g Hg. cbn beta in *.
    by rewrite process_message_techstack_reject.
  - subst h'. revert h Hstage.
    induction Hshort as [|t turns Ht _ IH]; intros h Hstage.
    + rewrite run_nil. cbn [flat_map]. by rewrite app_nil_r.
    + change (deliveries (t :: turns)) with (Process t.1 t.2 :: deliveries turns).
      rewrite run_cons. cbn [step flat_map].
      rewrite process_message_techstack_reject by done. cbn [fst].
      match goal with |- context [run rt _ ?g] =>
        destruct (IH g Hstage) as (-> & -> & -> & ->) end.
      cbn [with_history conversation_history candidate_data current_stage
           validation_attempts].
      by rewrite <- app_assoc.
Qed.

(** C6 on three short messages in a row. *)
Lemma techstack_rejects_without_cap_witness :
  let h := with_stage (lit "techstack") new_HiringAssistant in
  let h' := run ascii_runtime (deliveries [(failing, lit "C"); (failing, lit " Go ");
                                          (failing, lit "")]) h in
  current_stage h' = lit "techstack" /\
  candidate_data h' = ∅ /\
  validation_attempts h' = ∅ /\
  length (conversation_history h') = 6%nat.
Proof.
  intros h h'.
  assert (Hshort : Forall (fun t : client * str => (len (strip t.2) < 3)%Z)
            [(failing, lit "C"); (failing, lit " Go "); (failing, lit "")]).
  { repeat constructor; vm_compute; reflexivity. }
  destruct (techstack_rejects_without_cap ascii_runtime h _ eq_refl Hshort)
    as (_ & H1 & H2 & H3 & H4).
  fold h' in H1, H2, H3, H4. rewrite H1, H2, H3, H4. repeat split.
Defined.


Lemma attempts_move h :
  validation_attempts (_move_to_next_stage h).1 = validation_attempts h.
Proof. unfold _move_to_next_stage. frame. Qed.

Lemma attempts_techstack rt llm message h :
  validation_attempts (_handle_techstack rt llm message h).1 = validation_attempts h.
Proof. unfold _handle_techstack. frame. Qed.

Lemma attempts_technical_questions rt message h :
  validation_attempts (_handle_technical_questions rt message h).1 = validation_attempts h.
Proof.
  unfold _handle_technical_questions, _generate_completion_message, value_len, value_index.
  frame.
Qed.

Lemma attempts_completion message h :
  validation_attempts (_handle_completion message h).1 = validation_attempts h.
Proof. unfold _handle_completion. frame. Qed.

Lemma counters_bounded_insert k n h :
  (0 <= n <= 2)%Z -> counters_bounded h ->
  counters_bounded (with_attempts (insert k n) h).
Proof. intros Hn Hb. by apply map_Forall_insert_2. Qed.

Lemma retry_counter_bounded h s :
  counters_bounded h -> (0 <= retry_counter h s <= 2)%Z.
Proof.
  intros Hb. unfold retry_counter.
  destruct (validation_attempts h !! (s ++ lit "_attempts")) as [n|] eqn:Hn; cbn; [|lia].
  exact (Hb _ _ Hn).
Qed.

Lemma counters_bounded_info rt message h :
  counters_bounded h -> counters_bounded (_handle_info_collection rt message h).1.
Proof.
  intros Hb.
  destruct (validate rt (current_stage h) message) as [[] e] eqn:Hv.
  - rewrite _handle_info_collection_accept by (left; by rewrite Hv).
    unfold counters_bounded. rewrite attempts_move. unfold accepted.
    cbn [with_data validation_attempts]. by apply counters_bounded_insert.
  - pose proof (retry_counter_bounded h (current_stage h) Hb) as Hr.
    destruct (Z.lt_ge_cases (retry_counter h (current_stage h)) 2) as [Hlt|Hge].
    + erewrite _handle_info_collection_retry by done. cbn [fst].
      apply counters_bounded_insert; [lia | done].
    + rewrite _handle_info_collection_accept by (by right).
      unfold counters_bounded. rewrite attempts_move. unfold accepted.
      cbn [with_data validation_attempts]. by apply counters_bounded_insert.
Qed.

Lemma counters_bounded_process rt llm message h :
  counters_bounded h -> counters_bounded (process_message rt llm message h).1.
Proof.
  intros Hb. unfold process_message. run_m.
  set (g := {| conversation_history := _ |}).
  assert (Hg : counters_bounded g) by exact Hb.
  assert (Hlog : forall (r : HiringAssistant * outcome (option str)),
             counters_bounded r.1 ->
             counters_bounded
               (let (h', o) := r in
                match o with
                | Return a =>
                    ({| conversation_history :=
                          conversation_history h' ++ [Message (lit "assistant") a];
                        candidate_data := candidate_data h';
                        current_stage := current_stage h';
                        validation_attempts := validation_attempts h' |}, Return a)
                | Raise e => (h', Raise e)
                end).1).
  { intros [h' [a|e]]; done. }
  repeat case_bool_decide.
  - apply Hlog. rewrite _handle_greeting_run. cbn [fst].
    by apply map_Forall_insert_2.
  - apply Hlog. by apply counters_bounded_info.
  - apply Hlog. unfold counters_bounded. by rewrite attempts_techstack.
  - apply Hlog. unfold counters_bounded. by rewrite attempts_technical_questions.
  - apply Hlog. unfold counters_bounded. by rewrite attempts_completion.
  - exact Hb.
Qed.

Lemma counter_move_insert_zero (k k' : str) (m : gmap str Z) :
  counter_move (m !! k') (<[k := 0%Z]> m !! k').
Proof.
  destruct (decide (k = k')) as [->|Hne].
  - rewrite lookup_insert_eq. right; by left.
  - rewrite lookup_insert_ne by done. by left.
Qed.

Lemma counter_move_info rt message h (k : str) :
  counter_move (validation_attempts h !! k)
    (validation_attempts (_handle_info_collection rt message h).1 !! k).
Proof.
  destruct (validate rt (current_stage h) message) as [[] e] eqn:Hv.
  - rewrite _handle_info_collection_accept by (left; by rewrite Hv).
    rewrite attempts_move. apply counter_move_insert_zero.
  - destruct (Z.lt_ge_cases (retry_counter h (current_stage h)) 2) as [Hlt|Hge].
    + erewrite _handle_info_collection_retry by done.
      cbn [fst with_attempts validation_attempts].
      destruct (decide (current_stage h ++ lit "_attempts" = k)) as [<-|Hne].
      * rewrite lookup_insert_eq. right; right. done.
      * rewrite lookup_insert_ne by done. by left.
    + rewrite _handle_info_collection_accept by (by right).
      rewrite attempts_move. apply counter_move_insert_zero.
Qed.

Lemma counter_move_process rt llm message h (k : str) :
  counter_move (validation_attempts h !! k)
    (validation_attempts (process_message rt llm message h).1 !! k).
Proof.
  unfold process_message. run_m.
  set (g := {| conversation_history := _ |}).
  assert (Hlog : forall (r : HiringAssistant * outcome (option str)),
             counter_move (validation_attempts h !! k) (validation_attempts r.1 !! k) ->
             counter_move (validation_attempts h !! k)
               (validation_attempts
               (let (h', o) := r in
                match o with
                | Return a =>
                    ({| conversation_history :=
                          conversation_history h' ++ [Message (lit "assistant") a];
                        candidate_data := candidate_data h';
                        current_stage := current_stage h';
                        validation_attempts := validation_attempts h' |}, Return a)
                | Raise e => (h', Raise e)
                end).1 !! k)).
  { intros [h' [a|e]]; done. }
  repeat case_bool_decide.
  - apply Hlog. rewrite _handle_greeting_run. cbn [fst validation_attempts].
    apply counter_move_insert_zero.
  - apply Hlog. apply (counter_move_info rt message g k).
  - apply Hlog. rewrite attempts_techstack. by left.
  - apply Hlog. rewrite attempts_technical_questions. by left.
  - apply Hlog. rewrite attempts_completion. by left.
  - by left.
Qed.

(** C10. After any sequence of [start_conversation] and [process_message]
    calls on a new assistant, whatever the collaborator answers, every retry
    counter is 0, 1 or 2: one call leaves a counter as it was, puts it back to
    0, or adds one to a counter that was below 2. *)
Theorem retry_counters_stay_bounded rt calls :
  counters_bounded (run rt calls new_HiringAssistant) /\
  (forall llm message h (k : str),
     counter_move (validation_attempts h !! k)
       (validation_attempts (process_message rt llm message h).1 !! k)) /\
  (forall h, validation_attempts (start_conversation h).1 = validation_attempts h).
Proof.
  split; [|split; [intros; apply counter_move_process | done]].
  assert (Hinv : forall h, counters_bounded h -> counters_bounded (run rt calls h)).
  { induction calls as [|c calls IH]; intros h Hb; [done|].
    rewrite run_cons. apply IH. destruct c as [|llm message]; cbn [step].
    - exact Hb.
    - by apply counters_bounded_process. }
  apply Hinv. apply map_Forall_empty.
Qed.

(** ** The farewell *)

Lemma FAREWELL_PROMPT_split :
  FAREWELL_PROMPT = farewell_before ++ lit "today" ++ farewell_after.
Proof. vm_compute. reflexivity. Qed.

Lemma replace_today name :
  replace FAREWELL_PROMPT (lit "today") name = farewell_before ++ name ++ farewell_after.
Proof. vm_compute. reflexivity. Qed.

Lemma contains_app_r sub a b : contains sub b = true -> contains sub (a ++ b) = true.
Proof.
  intros Hb. induction a as [|c a IH]; [done|].
  cbn [app contains]. rewrite IH. apply orb_true_r.
Qed.

Lemma startswith_app p s : startswith p (p ++ s) = true.
Proof. induction p as [|c p IH]; [by destruct s|]. cbn. by rewrite N.eqb_refl. Qed.

Lemma end_conversation_named h name :
  candidate_data h !! lit "name" = Some (VStr name) -> name <> [] ->
  end_conversation h = (h, Return (replace FAREWELL_PROMPT (lit "today") name)).
Proof.
  intros Hname Hne. unfold end_conversation. run_m. rewrite Hname.
  cbn [default from_option id truthy]. by rewrite bool_decide_eq_false_2.
Qed.

Lemma end_conversation_unnamed h :
  candidate_data h !! lit "name" = None \/ candidate_data h !! lit "name" = Some (VStr []) ->
  end_conversation h = (h, Return FAREWELL_PROMPT).
Proof.
  intros [Hname|Hname]; unfold end_conversation; run_m; rewrite Hname; reflexivity.
Qed.

(** C9. When the stored name is a non-empty text, [end_conversation] returns
    the farewell template with its occurrence of the word [today] (there is
    exactly one) replaced by the name, and the placeholder [{name}] of the
    template is still in the message; when the name is empty or absent the
    template is returned as it is, [{name}] included. The session is not
    changed. *)
Theorem farewell_replaces_today h :
  (FAREWELL_PROMPT = farewell_before ++ lit "today" ++ farewell_after /\
   contains (lit "today") farewell_before = false /\
   contains (lit "today") farewell_after = false /\
   startswith (lit ", {name}!") farewell_after = true) /\
  (forall name,
     candidate_data h !! lit "name" = Some (VStr name) -> name <> [] ->
     end_conversation h = (h, Return (replace FAREWELL_PROMPT (lit "today") name)) /\
     replace FAREWELL_PROMPT (lit "today") name = farewell_before ++ name ++ farewell_after /\
     contains (lit "{name}") (replace FAREWELL_PROMPT (lit "today") name) = true) /\
  (candidate_data h !! lit "name" = None \/ candidate_data h !! lit "name" = Some (VStr []) ->
     end_conversation h = (h, Return FAREWELL_PROMPT) /\
     contains (lit "{name}") FAREWELL_PROMPT = true).
Proof.
  split; [|split].
  - split; [|split; [|split]]; vm_compute; reflexivity.
  - intros name Hname Hne. split; [by apply end_conversation_named|].
    rewrite replace_today. split; [done|].
    do 2 apply contains_app_r. vm_compute. reflexivity.
  - intros Hname. split; [by apply end_conversation_unnamed|].
    vm_compute. reflexivity.
Qed.

(** C9 for the candidate Jane Doe. *)
Lemma farewell_replaces_today_witness :
  let h := (process_message ascii_runtime failing (lit "Jane Doe") new_HiringAssistant).1 in
  end_conversation h =
    (h, Return (farewell_before ++ lit "Jane Doe" ++ farewell_after)).
Proof.
  intros h.
  assert (Hname : candidate_data h !! lit "name" = Some (VStr (lit "Jane Doe")))
    by (vm_compute; reflexivity).
  assert (Hne : lit "Jane Doe" <> []) by (vm_compute; discriminate).
  destruct (proj1 (proj2 (farewell_replaces_today h)) (lit "Jane Doe") Hname Hne)
    as (-> & -> & _).
  reflexivity.
Defined.

(** ** Question generation *)

Lemma matched_techs_ascii rt tech_stack :
  ascii_only tech_stack = true ->
  matched_techs rt tech_stack = matched_techs ascii_runtime tech_stack.
Proof. intros H. unfold matched_techs. by rewrite !lower_ascii. Qed.

(** C2. For the text "Python, React, Docker" and a count of 4 the matched
    keywords are python, react, docker in the order of the library; each gets
    max(1, 4 // 3) = 1 question in the first pass, the first of its list; the
    second pass adds one question, the next of python's list; the result has
    exactly 4 entries: the first question of python, of react and of docker,
    then the second question of python. The collaborator is not consulted. *)
Theorem python_react_docker rt llm :
  let text := lit "Python, React, Docker" in
  let matched := matched_techs rt text in
  let result := generate_questions rt llm text 4 in
  matched = [lit "python"; lit "react"; lit "docker"] /\
  questions_per_tech 4 matched = 1%Z /\
  flat_map (fun tech => slice_to (knowledge_base_get tech) (questions_per_tech 4 matched))
    matched =
    take 1 (knowledge_base_get (lit "python")) ++ take 1 (knowledge_base_get (lit "react"))
      ++ take 1 (knowledge_base_get (lit "docker")) /\
  Some <$> result =
    [knowledge_base_get (lit "python") !! 0%nat;
     knowledge_base_get (lit "react") !! 0%nat;
     knowledge_base_get (lit "docker") !! 0%nat;
     knowledge_base_get (lit "python") !! 1%nat] /\
  length result = 4%nat.
Proof.
  intros text matched result.
  assert (Hm : matched = [lit "python"; lit "react"; lit "docker"]).
  { subst matched text. rewrite matched_techs_ascii by reflexivity.
    vm_compute. reflexivity. }
  assert (Hr : result =
    take 1 (knowledge_base_get (lit "python")) ++ take 1 (knowledge_base_get (lit "react"))
      ++ take 1 (knowledge_base_get (lit "docker"))
      ++ take 1 (drop 1 (knowledge_base_get (lit "python")))).
  { subst result. unfold generate_questions. fold matched. rewrite Hm.
    vm_compute. reflexivity. }
  rewrite Hm, Hr. repeat split; vm_compute; reflexivity.
Qed.

Lemma slice_to_nonneg {A} (l : list A) n : (0 <= n)%Z -> slice_to l n = take (Z.to_nat n) l.
Proof. intros H. unfold slice_to. by destruct (Z.leb_spec 0 n); [|lia]. Qed.

Lemma len_app {A} (l1 l2 : list A) : len (l1 ++ l2) = (len l1 + len l2)%Z.
Proof. unfold len. rewrite length_app. lia. Qed.

Lemma len_slice_to {A} (l : list A) n :
  (0 <= n)%Z -> len (slice_to l n) = Z.min n (len l).
Proof. intros H. rewrite slice_to_nonneg by done. unfold len. rewrite length_take. lia. Qed.

Lemma len_nonneg {A} (l : list A) : (0 <= len l)%Z.
Proof. unfold len. lia. Qed.

(** [generate_questions] with every test of the source written as a case on
    how many questions the knowledge base gave. *)
Lemma generate_questions_short rt llm tech_stack num :
  let lib := library_questions num (matched_techs rt tech_stack) in
  (len lib < num)%Z ->
  let custom := _generate_custom_questions rt llm tech_stack (num - len lib) in
  generate_questions rt llm tech_stack num =
    slice_to (lib ++ custom ++ take (Z.to_nat (num - len (lib ++ custom))) generic) num.
Proof.
  intros lib Hshort custom. unfold generate_questions. fold lib.
  destruct (Z.leb_spec num (len lib)); [lia|].
  destruct (Z.ltb_spec 0 (num - len lib)); [|lia]. fold custom.
  destruct (Z.ltb_spec (len (lib ++ custom)) num) as [Hlt|Hge].
  - rewrite <- app_assoc. by rewrite (slice_to_nonneg generic) by lia.
  - replace (Z.to_nat (num - len (lib ++ custom))) with 0%nat by lia.
    by rewrite take_0, !app_nil_r.
Qed.

Lemma generate_questions_enough rt llm tech_stack num :
  let lib := library_questions num (matched_techs rt tech_stack) in
  (num <= len lib)%Z ->
  generate_questions rt llm tech_stack num = slice_to lib num.
Proof.
  intros lib Hle. unfold generate_questions. fold lib.
  by destruct (Z.leb_spec num (len lib)); [|lia].
Qed.

Lemma len_generic : len generic = 4%Z.
Proof. reflexivity. Qed.

(** C4, amended. For every text, collaborator and count from 0 up, the
    result has at most [count] entries, and exactly [count] when the count is
    at most 4 (the assistant always asks for 4). When the knowledge base gives
    fewer than [count] questions the shortfall is filled first with what the
    collaborator path returns, then from the four generic questions in their
    order, and the whole is cut at [count]. *)
Theorem generate_questions_length rt llm tech_stack num :
  (0 <= num)%Z ->
  let result := generate_questions rt llm tech_stack num in
  let lib := library_questions num (matched_techs rt tech_stack) in
  let custom := _generate_custom_questions rt llm tech_stack (num - len lib) in
  (len result <= num)%Z /\
  ((num <= 4)%Z -> len result = num) /\
  ((len lib < num)%Z ->
     result =
       slice_to (lib ++ custom ++ take (Z.to_nat (num - len (lib ++ custom))) generic) num /\
     len result = Z.min num (len lib + len custom + 4)).
Proof.
  intros Hnum result lib custom.
  destruct (Z.le_gt_cases num (len lib)) as [Hle|Hgt].
  - subst result. rewrite generate_questions_enough by done. fold lib.
    rewrite len_slice_to by done. repeat split; lia.
  - assert (Hres : result =
      slice_to (lib ++ custom ++ take (Z.to_nat (num - len (lib ++ custom))) generic) num)
      by (by apply generate_questions_short).
    assert (Hlen : len result = Z.min num (len lib + len custom + 4)).
    { rewrite Hres, len_slice_to, !len_app by done.
      pose proof (len_nonneg lib). pose proof (len_nonneg custom).
      assert (Hpad : len (take (Z.to_nat (num - (len lib + len custom))) generic)
                     = Z.min (Z.max 0 (num - (len lib + len custom))) 4).
      { unfold len at 1. rewrite length_take. change (length generic) with 4%nat. lia. }
      rewrite Hpad. lia. }
    pose proof (len_nonneg lib). pose proof (len_nonneg custom).
    repeat split; try done; lia.
Qed.

Lemma matched_techs_none rt tech_stack :
  Forall (fun keyword => contains keyword (lower rt tech_stack) = false)
    (map fst knowledge_base) ->
  matched_techs rt tech_stack = [].
Proof.
  unfold matched_techs. induction 1 as [|k ks Hk _ IH]; [done|].
  cbn [List.filter]. by rewrite Hk.
Qed.

Lemma _generate_custom_questions_failing rt llm tech_stack num :
  (forall system prompt, llm system prompt = None) ->
  _generate_custom_questions rt llm tech_stack num = fallback_questions tech_stack.
Proof. intros Hfail. unfold _generate_custom_questions. by rewrite Hfail. Qed.

(** C3, amended. When no keyword of the library occurs in the lowercased
    text and the collaborator fails, the failure stays inside
    [_generate_custom_questions], which answers with the three fallback
    questions, and the result is these three followed by as many of the four
    generic questions as the count still asks for, cut at the count: it has
    min(count, 7) entries, so it reaches the count only up to 7. *)
Theorem no_keyword_failing_collaborator rt llm tech_stack num :
  Forall (fun keyword => contains keyword (lower rt tech_stack) = false)
    (map fst knowledge_base) ->
  (forall system prompt, llm system prompt = None) ->
  let result := generate_questions rt llm tech_stack num in
  _generate_custom_questions rt llm tech_stack num = fallback_questions tech_stack /\
  result =
    take (Z.to_nat num) (fallback_questions tech_stack ++ take (Z.to_nat num - 3) generic) /\
  length result = (Z.to_nat num `min` 7)%nat.
Proof.
  intros Hnone Hfail result.
  split; [by apply _generate_custom_questions_failing|].
  assert (Hres : result =
    take (Z.to_nat num) (fallback_questions tech_stack ++ take (Z.to_nat num - 3) generic)).
  { subst result. destruct (Z.le_gt_cases num 0) as [Hle|Hgt].
    - rewrite generate_questions_enough; rewrite matched_techs_none by done.
      + cbn [library_questions]. replace (Z.to_nat num) with 0%nat by lia.
        rewrite take_0. unfold slice_to. by destruct (0 <=? num)%Z; rewrite take_nil.
      + exact Hle.
    - rewrite generate_questions_short; rewrite matched_techs_none by done.
      + cbn [library_questions app]. change (len []) with 0%Z.
        rewrite Z.sub_0_r, _generate_custom_questions_failing by done.
        rewrite slice_to_nonneg by lia. do 2 f_equal.
        change (len (fallback_questions tech_stack)) with 3%Z. f_equal. lia.
      + exact Hgt. }
  split; [exact Hres|]. rewrite Hres, length_take, length_app, length_take.
  change (length (fallback_questions tech_stack)) with 3%nat.
  change (length generic) with 4%nat. lia.
Qed.

(** C3, as stated, fails: asked for 8 questions with no keyword matched and
    the collaborator failing, the three fallback questions are padded with the
    four generic ones only, to 7 entries and not to the count. *)
Lemma no_keyword_padding_counterexample :
  matched_techs ascii_runtime (lit "Elixir Phoenix") = [] /\
  generate_questions ascii_runtime failing (lit "Elixir Phoenix") 8 =
    fallback_questions (lit "Elixir Phoenix") ++ generic /\
  length (generate_questions ascii_runtime failing (lit "Elixir Phoenix") 8) <> 8%nat.
Proof. split; [|split]; vm_compute; (reflexivity || discriminate). Qed.

Lemma Forall_contains_false s (l : list str) :
  forallb (fun k => negb (contains k s)) l = true ->
  Forall (fun k => contains k s = false) l.
Proof.
  induction l as [|k l IH]; cbn [forallb]; [constructor|].
  intros [Hk Hl]%andb_true_iff. constructor; [by apply negb_true_iff | auto].
Qed.

(** C3, amended, at the text "Elixir Phoenix" and the count 4 of the
    assistant: the three fallback questions and one generic question. *)
Lemma no_keyword_failing_collaborator_witness :
  generate_questions ascii_runtime failing (lit "Elixir Phoenix") 4 =
    fallback_questions (lit "Elixir Phoenix") ++ take 1 generic.
Proof.
  assert (Hnone : Forall (fun keyword =>
            contains keyword (lower ascii_runtime (lit "Elixir Phoenix")) = false)
            (map fst knowledge_base)).
  { apply Forall_contains_false. vm_compute. reflexivity. }
  exact (proj1 (proj2 (no_keyword_failing_collaborator ascii_runtime failing
                         (lit "Elixir Phoenix") 4 Hnone (fun _ _ => eq_refl)))).
Defined.

(** C4, as stated, fails: with one keyword matched and the collaborator
    failing, a count of 12 gets 4 + 3 + 4 = 11 questions; and with a count of
    5 the shortfall of one is filled by the first fallback question, not from
    the generic list. *)
Lemma generate_questions_length_counterexample :
  length (generate_questions ascii_runtime failing (lit "Python") 12) = 11%nat /\
  length (generate_questions ascii_runtime failing (lit "Python") 12) <> 12%nat /\
  generate_questions ascii_runtime failing (lit "Python") 5 !! 4%nat =
    fallback_questions (lit "Python") !! 0%nat /\
  fallback_questions (lit "Python") !! 0%nat <> generic !! 0%nat.
Proof. split; [|split; [|split]]; vm_compute; (reflexivity || discriminate). Qed.

(** C4, amended, at the count 4 of the assistant. *)
Lemma generate_questions_length_witness :
  len (generate_questions ascii_runtime failing (lit "Python, React, Docker") 4) = 4%Z.
Proof.
  assert (H0 : (0 <= 4)%Z) by lia. assert (H4 : (4 <= 4)%Z) by lia.
  exact (proj1 (proj2 (generate_questions_length ascii_runtime failing
                         (lit "Python, React, Docker") 4 H0)) H4).
Defined.

(** ** Entering the technical questions *)

(** A count of at most 4 is always met. *)
Lemma generate_questions_small rt llm tech_stack num :
  (0 <= num <= 4)%Z ->
  len (generate_questions rt llm tech_stack num) = num.
Proof.
  intros Hnum.
  set (lib := library_questions num (matched_techs rt tech_stack)).
  pose proof (len_nonneg lib) as Hlib.
  destruct (Z.le_gt_cases num (len lib)) as [Hle|Hgt].
  - rewrite generate_questions_enough by done. fold lib.
    rewrite len_slice_to by lia. lia.
  - rewrite generate_questions_short by done. fold lib.
    set (custom := _generate_custom_questions rt llm tech_stack (num - len lib)).
    pose proof (len_nonneg custom) as Hcustom.
    rewrite len_slice_to, !len_app by lia.
    assert (Hpad : len (take (Z.to_nat (num - (len lib + len custom))) generic)
                   = Z.min (Z.max 0 (num - (len lib + len custom))) 4).
    { unfold len at 1. rewrite length_take. change (length generic) with 4%nat. lia. }
    rewrite Hpad. lia.
Qed.

(** The assistant asks for 4 questions and gets 4. *)
Lemma generate_questions_four rt llm tech_stack :
  length (generate_questions rt llm tech_stack 4) = 4%nat.
Proof.
  assert (H : (0 <= 4 <= 4)%Z) by lia.
  pose proof (generate_questions_small rt llm tech_stack 4 H) as Hlen.
  revert Hlen. generalize (generate_questions rt llm tech_stack 4).
  intros l Hlen. unfold len in Hlen. lia.
Qed.

(** In the techstack stage a message of trimmed length 3 or more is stored,
    exactly 4 questions are generated whatever the collaborator does, the
    answers start empty with the cursor at 0, the stage becomes questions and
    the reply is the introduction with the first question: the call never
    raises. *)
Theorem techstack_accepts rt llm message h :
  current_stage h = lit "techstack" ->
  (3 <= len (strip message))%Z ->
  let questions := generate_questions rt llm message 4 in
  exists first_question,
    questions !! 0%nat = Some first_question /\
    length questions = 4%nat /\
    process_message rt llm message h =
      (with_history
         (fun l => l ++ [Message (lit "user") (Some message);
                         Message (lit "assistant")
                           (Some (techstack_intro 4 first_question))])
         (questions_ready message questions h),
       Return (Some (techstack_intro 4 first_question))).
Proof.
  intros Hstage Hlong. cbv zeta.
  pose proof (generate_questions_four rt llm message) as Hlen.
  unfold process_message, _handle_techstack. rewrite validate_techstack.
  destruct (Z.leb_spec 3 (len (strip message))); [|lia].
  revert Hlen. generalize (generate_questions rt llm message 4).
  intros [|first_question rest] Hlen; [discriminate|].
  exists first_question. split; [done|]. split; [done|].
  run_m. rewrite Hstage. eval_bool_decide. cbv iota. cbn [negb]. run_m.
  change (index (first_question :: rest) 0) with (Some first_question).
  replace (len (first_question :: rest)) with 4%Z by (unfold len; lia).
  unfold questions_ready. run_m. by rewrite <- app_assoc.
Qed.

(** The acceptance of the tech stack "Python, SQL". *)
Lemma techstack_accepts_witness :
  exists first_question,
    (process_message ascii_runtime failing (lit "Python, SQL")
       (with_stage (lit "techstack") new_HiringAssistant)).2
      = Return (Some (techstack_intro 4 first_question)).
Proof.
  assert (Hlong : (3 <= len (strip (lit "Python, SQL")))%Z) by (vm_compute; discriminate).
  destruct (techstack_accepts ascii_runtime failing (lit "Python, SQL")
              (with_stage (lit "techstack") new_HiringAssistant) eq_refl Hlong)
    as (q & _ & _ & Hrun).
  exists q. by rewrite Hrun.
Defined.

(** ** The exit branch of the caller *)

Lemma stamped_name e data : stamped e data !! lit "name" = data !! lit "name".
Proof.
  unfold stamped. rewrite !lookup_insert_ne; [done| |];
    intros H; vm_compute in H; discriminate.
Qed.

Lemma save_candidate_text e dh data :
  match data !! lit "name" with Some (VStr _) | None => True | Some _ => False end ->
  save_candidate e dh data =
    if writable e (candidate_path e dh data)
    then (stamped e data,
          {| data_dir := data_dir dh;
             files := <[candidate_path e dh data := stamped e data]> (files dh) |},
          Return (match data !! lit "name" with
                  | Some (VStr name) => replace name (lit " ") (lit "_")
                  | _ => replace (lit "unknown_candidate") (lit " ") (lit "_")
                  end ++ lit "_" ++ now_filename e ++ lit ".json"))
    else (stamped e data, dh, Raise OSError).
Proof.
  intros Hname. unfold save_candidate. fold (stamped e data).
  rewrite stamped_name. unfold candidate_path.
  destruct (data !! lit "name") as [[name| |]|]; try done.
Qed.

Lemma contains_nil_r sub : sub <> [] -> contains sub [] = false.
Proof. by destruct sub. Qed.






Lemma data_move h : candidate_data (_move_to_next_stage h).1 = candidate_data h.
Proof. unfold _move_to_next_stage. frame. Qed.

Lemma name_techstack rt llm message h :
  candidate_data (_handle_techstack rt llm message h).1 !! lit "name"
    = candidate_data h !! lit "name".
Proof. unfold _handle_techstack. name_frame. Qed.

Lemma name_technical_questions rt message h :
  candidate_data (_handle_technical_questions rt message h).1 !! lit "name"
    = candidate_data h !! lit "name".
Proof.
  unfold _handle_technical_questions, _generate_completion_message, value_len, value_index.
  name_frame.
Qed.

Lemma name_completion message h :
  candidate_data (_handle_completion message h).1 !! lit "name"
    = candidate_data h !! lit "name".
Proof. unfold _handle_completion. name_frame. Qed.

Lemma name_is_text_same h h' :
  candidate_data h' !! lit "name" = candidate_data h !! lit "name" ->
  name_is_text h -> name_is_text h'.
Proof. unfold name_is_text. by intros ->. Qed.

Lemma name_is_text_insert k s h :
  name_is_text h -> name_is_text (with_data (insert k (VStr s)) h).
Proof.
  unfold name_is_text. cbn [with_data candidate_data]. intros H.
  destruct (decide (k = lit "name")) as [->|Hne].
  - by rewrite lookup_insert_eq.
  - by rewrite lookup_insert_ne.
Qed.

Lemma name_is_text_info rt message h :
  name_is_text h -> name_is_text (_handle_info_collection rt message h).1.
Proof.
  intros Hn.
  assert (Hacc : name_is_text (_move_to_next_stage (accepted message h)).1).
  { unfold name_is_text. rewrite data_move. unfold accepted.
    apply (name_is_text_insert _ _ (with_attempts _ h)). exact Hn. }
  destruct (validate rt (current_stage h) message) as [[] e] eqn:Hv.
  - by rewrite _handle_info_collection_accept by (left; by rewrite Hv).
  - destruct (Z.lt_ge_cases (retry_counter h (current_stage h)) 2) as [Hlt|Hge].
    + by erewrite _handle_info_collection_retry by done.
    + by rewrite _handle_info_collection_accept by (by right).
Qed.

Lemma name_is_text_process rt llm message h :
  name_is_text h -> name_is_text (process_message rt llm message h).1.
Proof.
  intros Hn. unfold process_message. run_m.
  set (g := {| conversation_history := _ |}).
  assert (Hg : name_is_text g) by exact Hn.
  assert (Hlog : forall (r : HiringAssistant * outcome (option str)),
             name_is_text r.1 ->
             name_is_text
               (let (h', o) := r in
                match o with
                | Return a =>
                    ({| conversation_history :=
                          conversation_history h' ++ [Message (lit "assistant") a];
                        candidate_data := candidate_data h';
                        current_stage := current_stage h';
                        validation_attempts := validation_attempts h' |}, Return a)
                | Raise e => (h', Raise e)
                end).1).
  { intros [h' [a|e]]; done. }
  repeat case_bool_decide.
  - apply Hlog. rewrite _handle_greeting_run. unfold name_is_text.
    cbn [fst candidate_data]. by rewrite lookup_insert_eq.
  - apply Hlog. by apply name_is_text_info.
  - apply Hlog. eapply name_is_text_same; [apply name_techstack | done].
  - apply Hlog. eapply name_is_text_same; [apply name_technical_questions | done].
  - apply Hlog. eapply name_is_text_same; [apply name_completion | done].
  - exact Hn.
Qed.

Lemma name_is_text_try_save e st :
  name_is_text (chatbot st) -> name_is_text (chatbot (try_save e st)).
Proof.
  intros Hn. unfold try_save. rewrite save_candidate_text by exact Hn.
  destruct (writable e _); cbn [chatbot]; unfold name_is_text;
    cbn [with_data candidate_data]; by rewrite stamped_name.
Qed.

Lemma name_is_text_main rt llm e input st :
  name_is_text (chatbot st) -> name_is_text (chatbot (main rt llm e input st)).
Proof.
  intros Hn. unfold main.
  set (st1 := if conversation_started st then st else _).
  assert (H1 : name_is_text (chatbot st1)).
  { subst st1. by destruct (conversation_started st). }
  clearbody st1. clear Hn st.
  destruct (conversation_ended st1); [done|].
  destruct input as [user_input|]; [|done].
  case_bool_decide; [done|].
  set (st2 := add_message (lit "user") (Some user_input) st1).
  assert (H2 : name_is_text (chatbot st2)) by exact H1.
  clearbody st2.
  destruct (wants_exit rt user_input).
  - unfold exit_branch.
    destruct (end_conversation (chatbot st2)) as [bot [farewell|ex]]; [|done].
    case_bool_decide; [done|]. cbn [ended chatbot].
    apply (name_is_text_try_save e (add_message (lit "assistant") (Some farewell) st2)).
    exact H2.
  - unfold process_branch.
    pose proof (name_is_text_process rt llm user_input (chatbot st2) H2) as Hp.
    destruct (process_message rt llm user_input (chatbot st2)) as [bot [response|ex]];
      cbn [fst] in Hp; [|done].
    case_bool_decide; [|done].
    apply (name_is_text_try_save e
             (add_message (lit "assistant") response (with_chatbot bot st2))).
    exact Hp.
Qed.

(** In every session that runs of [main] can reach, the name field, once
    there, holds text: the typing assumption of the exit-branch theorem is
    met by all of them. *)
Theorem reachable_name_is_text rt runs :
  name_is_text (chatbot (session_run rt runs initialize_session_state)).
Proof.
  assert (Hinv : forall st, name_is_text (chatbot st) ->
                            name_is_text (chatbot (session_run rt runs st))).
  { induction runs as [|r runs IH]; intros st Hn; [done|].
    apply IH. by apply name_is_text_main. }
  apply Hinv. vm_compute. exact I.
Qed.

(** ** The happy path *)

(** The happy path of the specification, run on the model with a failing
    collaborator: the transcript is the greeting, then each input followed by
    the next prompt, the introduction with question 1, the three further
    questions and the completion summary, which carries the name, the
    experience, the position and the tech stack as typed and counts 4
    answers. *)
Example happy_path :
  let inputs :=
    [lit "Jane Doe"; lit "jane@x.com"; lit "+1 555 0100"; lit "3";
     lit "Software engineer"; lit "Paris, France"; lit "Python, React, Docker";
     lit "first"; lit "second"; lit "third"; lit "fourth"] in
  let h := run ascii_runtime (Start :: map (Process failing) inputs) new_HiringAssistant in
  let q := generate_questions ascii_runtime failing (lit "Python, React, Docker") 4 in
  let prompt s := stage_questions !!! lit s in
  current_stage h = lit "complete" /\
  map content (conversation_history h) =
    Some <$>
    [greeting;
     lit "Jane Doe"; prompt "email";
     lit "jane@x.com"; prompt "phone";
     lit "+1 555 0100"; prompt "experience";
     lit "3"; prompt "position";
     lit "Software engineer"; prompt "location";
     lit "Paris, France"; prompt "techstack";
     lit "Python, React, Docker"; techstack_intro 4 (q !!! 0%nat);
     lit "first"; next_question_message 2 (q !!! 1%nat);
     lit "second"; next_question_message 3 (q !!! 2%nat);
     lit "third"; next_question_message 4 (q !!! 3%nat);
     lit "fourth";
     completion_message ascii_runtime (VStr (lit "Jane Doe")) (VStr (lit "3"))
       (VStr (lit "Software engineer")) (VStr (lit "Python, React, Docker")) 4].
Proof. split; vm_compute; reflexivity. Qed.

(** * Further properties *)

(** ** Trimming *)

Lemma lstrip_fixed s :
  match s with c :: _ => isspace c = false | [] => True end -> lstrip s = s.
Proof. destruct s as [|c s]; [done|]. cbn. by intros ->. Qed.

Lemma lstrip_split s : exists w, s = w ++ lstrip s /\ forallb isspace w = true.
Proof.
  induction s as [|c s (w & Hs & Hw)]; [by exists []|].
  cbn [lstrip]. destruct (isspace c) eqn:Hc.
  - exists (c :: w). cbn. rewrite Hc, Hw. split; [by f_equal | done].
  - by exists [].
Qed.

Lemma lstrip_idempotent s : lstrip (lstrip s) = lstrip s.
Proof. apply lstrip_fixed, ReFacts.lstrip_head. Qed.

Lemma rstrip_split s : exists w, s = rstrip s ++ w /\ forallb isspace w = true.
Proof.
  unfold rstrip. destruct (lstrip_split (rev s)) as (w & Hs & Hw).
  exists (rev w). split.
  - rewrite <- rev_app_distr, <- Hs. by rewrite rev_involutive.
  - rewrite forallb_forall in *. intros c Hc. apply Hw. by apply in_rev.
Qed.

Lemma strip_head s :
  match strip s with c :: _ => isspace c = false | [] => True end.
Proof.
  unfold strip. destruct (rstrip_split (lstrip s)) as (w & Hs & _).
  pose proof (ReFacts.lstrip_head s) as Hh.
  destruct (rstrip (lstrip s)) as [|c t]; [done|]. by rewrite Hs in Hh.
Qed.

Lemma strip_idempotent s : strip (strip s) = strip s.
Proof.
  unfold strip at 1. rewrite (lstrip_fixed (strip s)) by apply strip_head.
  unfold strip, rstrip. rewrite rev_involutive. f_equal. apply lstrip_idempotent.
Qed.

Lemma lstrip_blank s : forallb isspace s = true -> lstrip s = [].
Proof.
  induction s as [|c s IH]; [done|]. cbn. intros [Hc Hs]%andb_true_iff.
  rewrite Hc. auto.
Qed.

Lemma strip_blank s : forallb isspace s = true -> strip s = [].
Proof. intros H. unfold strip. by rewrite lstrip_blank. Qed.

Lemma strip_ascii_only s : ascii_only s = true -> ascii_only (strip s) = true.
Proof.
  intros H. unfold ascii_only in *. rewrite forallb_forall in *. intros c Hc. apply H.
  unfold strip in Hc.
  destruct (rstrip_split (lstrip s)) as (w1 & H1 & _).
  destruct (lstrip_split s) as (w2 & H2 & _).
  rewrite H2, H1. apply in_or_app. right. apply in_or_app. by left.
Qed.

(** [validate] looks at the trimmed text only, and text that is blank (empty
    or white space only) is refused by the rule of every stage, with an error
    text. *)
Theorem validate_trims_and_refuses_blank rt stage :
  (forall value, validate rt stage value = validate rt stage (strip value)) /\
  (forall value, forallb isspace value = true ->
     exists e, validate rt stage value = (false, Some e)).
Proof.
  split.
  - intros value. unfold validate. by rewrite strip_idempotent.
  - intros value Hblank.
    destruct (validate_shape rt stage value) as [Hok | Hno]; [|done].
    exfalso. revert Hok. unfold validate. rewrite (strip_blank _ Hblank).
    rewrite (lower_ascii rt []) by reflexivity.
    change (Re.match_anchored email_pattern []) with false.
    change (existsb (isdigit rt) []) with false.
    change (len (@nil N)) with 0%Z. cbn [map].
    eval_bool_decide. cbn [orb Z.leb Z.ltb Z.compare].
    repeat case_bool_decide; discriminate.
Qed.

(** ** The technical questions and the completed interview *)

(** Two different literal keys. *)
Ltac lit_ne := let H := fresh in intros H; vm_compute in H; discriminate.

(** One more step of a method after a lookup has been rewritten. *)
Ltac step_m :=
  cbv beta iota zeta;
  cbn [conversation_history candidate_data current_stage validation_attempts];
  rewrite ?lookup_insert_ne by lit_ne.

Lemma index_nat {A} (l : list A) (i : nat) : index l (Z.of_nat i) = l !! i.
Proof.
  unfold index. destruct (Z.leb_spec 0 (Z.of_nat i)); [|lia]. by rewrite Nat2Z.id.
Qed.

Lemma _handle_technical_questions_next rt message h questions answers q :
  asking questions answers h ->
  questions !! (length answers + 1)%nat = Some q ->
  _handle_technical_questions rt message h =
    (with_data
       (fun data =>
          <[lit "current_question" := VInt (len answers + 1)]>
            (<[lit "answers" := VList (answers ++ [strip message])]> data)) h,
     Return (Some (next_question_message (len answers + 2) q))).
Proof.
  intros (Hstage & Hq & Ha & Hc & Hlt) Hnext.
  assert (Hlen : (len answers + 1 < len questions)%Z).
  { apply lookup_lt_Some in Hnext. unfold len. lia. }
  unfold _handle_technical_questions. run_m. rewrite Ha. step_m.
  rewrite Hc. step_m. rewrite Hq. step_m. unfold value_len. run_m.
  destruct (Z.ltb_spec (len answers) (len questions - 1)); [|lia].
  assert (Hidx : index questions (len answers + 1) = Some q).
  { replace (len answers + 1)%Z with (Z.of_nat (length answers + 1))
      by (unfold len; lia).
    by rewrite index_nat. }
  step_m. unfold value_index. rewrite Hidx. reflexivity.
Qed.

Lemma _handle_technical_questions_last rt message h questions answers :
  asking questions answers h ->
  (len answers + 1 = len questions)%Z ->
  _handle_technical_questions rt message h =
    (with_stage (lit "complete")
       (with_data (insert (lit "answers") (VList (answers ++ [strip message]))) h),
     Return (Some (summary_of rt (candidate_data h) (len questions)))).
Proof.
  intros (Hstage & Hq & Ha & Hc & Hlt) Hlast.
  unfold _handle_technical_questions. run_m. rewrite Ha. step_m.
  rewrite Hc. step_m. rewrite Hq. step_m. unfold value_len. run_m.
  destruct (Z.ltb_spec (len answers) (len questions - 1)); [lia|].
  step_m. unfold _generate_completion_message. run_m.
  rewrite lookup_insert_eq, !lookup_insert_ne by lit_ne.
  cbn [default from_option id value_len]. run_m.
  unfold summary_of. rewrite len_app. change (len [strip message]) with 1%Z.
  by rewrite Hlast.
Qed.

Lemma process_message_questions rt llm message h :
  current_stage h = lit "questions" ->
  process_message rt llm message h =
    match _handle_technical_questions rt message
            (with_history (fun l => l ++ [Message (lit "user") (Some message)]) h) with
    | (h', Return r) =>
        (with_history (fun l => l ++ [Message (lit "assistant") r]) h', Return r)
    | (h', Raise e) => (h', Raise e)
    end.
Proof.
  intros Hs. unfold process_message. run_m. rewrite Hs. eval_bool_decide. reflexivity.
Qed.

Lemma process_message_complete rt llm message h :
  current_stage h = lit "complete" ->
  process_message rt llm message h =
    match _handle_completion message
            (with_history (fun l => l ++ [Message (lit "user") (Some message)]) h) with
    | (h', Return r) =>
        (with_history (fun l => l ++ [Message (lit "assistant") r]) h', Return r)
    | (h', Raise e) => (h', Raise e)
    end.
Proof.
  intros Hs. unfold process_message. run_m. rewrite Hs. eval_bool_decide. reflexivity.
Qed.

Lemma asking_with_history f questions answers h :
  asking questions answers h -> asking questions answers (with_history f h).
Proof. done. Qed.

Lemma process_message_asking_next rt llm message h questions answers q :
  asking questions answers h ->
  questions !! (length answers + 1)%nat = Some q ->
  process_message rt llm message h =
    (with_history
       (fun l => l ++ [Message (lit "user") (Some message);
                       Message (lit "assistant")
                         (Some (next_question_message (len answers + 2) q))])
       (with_data
          (fun data =>
             <[lit "current_question" := VInt (len answers + 1)]>
               (<[lit "answers" := VList (answers ++ [strip message])]> data)) h),
     Return (Some (next_question_message (len answers + 2) q))).
Proof.
  intros Hask Hq. rewrite process_message_questions by apply Hask.
  erewrite _handle_technical_questions_next;
    [| apply asking_with_history, Hask | exact Hq].
  run_m. by rewrite <- app_assoc.
Qed.

Lemma process_message_asking_last rt llm message h questions answers :
  asking questions answers h ->
  (len answers + 1 = len questions)%Z ->
  process_message rt llm message h =
    (with_history
       (fun l => l ++ [Message (lit "user") (Some message);
                       Message (lit "assistant")
                         (Some (summary_of rt (candidate_data h) (len questions)))])
       (with_stage (lit "complete")
          (with_data (insert (lit "answers") (VList (answers ++ [strip message]))) h)),
     Return (Some (summary_of rt (candidate_data h) (len questions)))).
Proof.
  intros Hask Hlast. rewrite process_message_questions by apply Hask.
  erewrite _handle_technical_questions_last;
    [| apply asking_with_history, Hask | exact Hlast].
  run_m. by rewrite <- app_assoc.
Qed.

Lemma asking_next questions answers h x f :
  asking questions answers h ->
  (len answers + 1 < len questions)%Z ->
  asking questions (answers ++ [x])
    (with_history f
       (with_data
          (fun data =>
             <[lit "current_question" := VInt (len answers + 1)]>
               (<[lit "answers" := VList (answers ++ [x])]> data)) h)).
Proof.
  intros (Hstage & Hq & Ha & Hc & Hlt) Hnext. unfold asking.
  cbn [with_history with_data current_stage candidate_data].
  rewrite len_app. change (len [x]) with 1%Z.
  split; [done|]. split; [by rewrite !lookup_insert_ne by lit_ne|].
  split; [by rewrite lookup_insert_ne, lookup_insert_eq by lit_ne|].
  split; [by rewrite lookup_insert_eq|done].
Qed.

Lemma summary_of_ext (rt : runtime) (d1 d2 : gmap str value) n :
  (forall k : str, k <> lit "answers" -> k <> lit "current_question" -> d2 !! k = d1 !! k) ->
  summary_of rt d2 n = summary_of rt d1 n.
Proof.
  intros H. unfold summary_of. by rewrite !H by lit_ne.
Qed.

(** In the questions stage each message is recorded, trimmed, as the answer
    to the current question and is answered with the next question under
    its number, until the last question is answered: then the stage is
    complete, the answers are the trimmed messages in order, as many as the
    questions, and the reply is the summary. The transcript gains each
    message and its reply and nothing else; nothing else of the candidate
    data and no retry counter changes. *)
Theorem answers_lead_to_completion rt h questions answers turns :
  asking questions answers h ->
  let h' := run rt (deliveries turns) h in
  let given := answers ++ map (fun t : client * str => strip t.2) turns in
  ((len given < len questions)%Z -> asking questions given h') /\
  ((len given = len questions)%Z ->
     current_stage h' = lit "complete" /\
     candidate_data h' !! lit "answers" = Some (VList given) /\
     candidate_data h' !! lit "questions" = Some (VList questions) /\
     last (conversation_history h') =
       Some (Message (lit "assistant")
               (Some (summary_of rt (candidate_data h) (len questions))))) /\
  ((len given <= len questions)%Z ->
     conversation_history h' =
       conversation_history h ++
         question_turns (summary_of rt (candidate_data h) (len questions))
           questions (length answers) turns /\
     validation_attempts h' = validation_attempts h /\
     forall k : str, k <> lit "answers" -> k <> lit "current_question" ->
       candidate_data h' !! k = candidate_data h !! k).
Proof.
  intros Hask. cbv zeta. revert h answers Hask.
  induction turns as [|[llm message] turns IH]; intros h answers Hask.
  - rewrite !app_nil_r. change (run rt (deliveries []) h) with h.
    destruct Hask as (Hstage & Hq & Ha & Hc & Hlt).
    split; [done|]. split; [lia|]. done.
  - change (deliveries ((llm, message) :: turns))
      with (Process llm message :: deliveries turns).
    rewrite run_cons. cbn [step map snd question_turns].
    replace (answers ++ strip message :: map (fun t : client * str => strip t.2) turns)
      with ((answers ++ [strip message]) ++ map (fun t : client * str => strip t.2) turns)
      by (by rewrite <- app_assoc).
    pose proof Hask as (Hstage & Hq & Ha & Hc & Hlt).
    destruct (Z.lt_ge_cases (len answers + 1) (len questions)) as [Hmore|Hlast].
    + destruct (lookup_lt_is_Some_2 questions (length answers + 1)) as [q Hnext];
        [unfold len in Hmore; lia|].
      rewrite (process_message_asking_next _ _ _ _ _ _ _ Hask Hnext). cbn [fst].
      match goal with |- context [run rt _ ?g] =>
        assert (Hg : asking questions (answers ++ [strip message]) g)
          by (by apply asking_next);
        destruct (IH g _ Hg) as (IH1 & IH2 & IH3)
      end.
      assert (Hsummary : forall n,
        summary_of rt
          (<[lit "current_question" := VInt (len answers + 1)]>
             (<[lit "answers" := VList (answers ++ [strip message])]> (candidate_data h))) n =
        summary_of rt (candidate_data h) n).
      { intros n. apply summary_of_ext. intros k Hk1 Hk2. by rewrite !lookup_insert_ne. }
      cbn [with_history with_data candidate_data conversation_history] in IH2, IH3.
      rewrite Hsummary in IH2, IH3.
      split; [exact IH1|]. split; [exact IH2|].
      intros Hlen. destruct (IH3 Hlen) as (Hhist & Hatt & Hdata).
      split; [|split].
      * rewrite Hhist, <- app_assoc. f_equal. cbn [app].
        rewrite Nat.add_1_r in Hnext. rewrite Hnext.
        rewrite length_app, Nat.add_1_r. reflexivity.
      * by rewrite Hatt.
      * intros k Hk1 Hk2. rewrite Hdata by done. by rewrite !lookup_insert_ne.
    + assert (Heq : (len answers + 1 = len questions)%Z) by lia.
      rewrite (process_message_asking_last _ _ _ _ _ _ Hask Heq). cbn [fst].
      rewrite len_app, len_app.
      change (len [strip message]) with 1%Z.
      pose proof (len_nonneg (map (fun t : client * str => strip t.2) turns)) as Hn.
      split; [lia|].
      assert (Hnil : (len answers + 1 + len (map (fun t : client * str => strip t.2) turns)
                      <= len questions)%Z -> turns = []).
      { intros Hle. destruct turns; [done|]. unfold len in *.
        rewrite map_cons in Hle. cbn [length] in Hle. lia. }
      split.
      * intros Hlen. rewrite (Hnil ltac:(lia)). cbn [map]. rewrite app_nil_r.
        change (run rt (deliveries []) ?g) with g.
        cbn [with_history with_stage with_data current_stage candidate_data
             conversation_history].
        rewrite lookup_insert_eq, lookup_insert_ne by lit_ne.
        split; [done|]. split; [done|].
        split; [done|]. by rewrite last_app.
      * intros Hlen. rewrite (Hnil Hlen).
        change (run rt (deliveries []) ?g) with g.
        cbn [with_history with_stage with_data current_stage candidate_data
             validation_attempts conversation_history question_turns].
        split; [|split; [done|]].
        -- rewrite (lookup_ge_None_2 questions (S (length answers)))
             by (unfold len in Heq; lia).
           reflexivity.
        -- intros k Hk1 Hk2. by rewrite lookup_insert_ne.
Qed.

(** Two questions, two answers, the first of them padded. *)
Lemma answers_lead_to_completion_witness :
  let h := questions_ready (lit "Python") [lit "First?"; lit "Second?"] new_HiringAssistant in
  let turns := [(failing, lit " one "); (failing, lit "two")] in
  let h' := run ascii_runtime (deliveries turns) h in
  current_stage h' = lit "complete" /\
  candidate_data h' !! lit "answers" = Some (VList [lit "one"; lit "two"]) /\
  map content (conversation_history h') =
    [Some (lit " one "); Some (next_question_message 2 (lit "Second?"));
     Some (lit "two"); Some (summary_of ascii_runtime (candidate_data h) 2)].
Proof.
  intros h turns h'.
  assert (Hask : asking [lit "First?"; lit "Second?"] [] h).
  { split; [reflexivity|]. split; [vm_compute; reflexivity|].
    split; [vm_compute; reflexivity|]. split; [vm_compute; reflexivity|].
    vm_compute. reflexivity. }
  pose proof (answers_lead_to_completion ascii_runtime h _ [] turns Hask) as (_ & H & H3).
  destruct H as (Hstage & Hanswers & _); [vm_compute; reflexivity|].
  destruct H3 as (Hhist & _); [vm_compute; discriminate|].
  split; [exact Hstage|]. unfold h'. split.
  - rewrite Hanswers. vm_compute. reflexivity.
  - rewrite Hhist. reflexivity.
Defined.

Lemma process_message_remark rt llm message h remarks :
  current_stage h = lit "complete" ->
  final_questions h = Some remarks ->
  process_message rt llm message h =
    (with_history
       (fun l => l ++ [Message (lit "user") (Some message);
                       Message (lit "assistant") (Some completion_reply)])
       (with_data (insert (lit "final_questions") (VList (remarks ++ [strip message]))) h),
     Return (Some completion_reply)).
Proof.
  intros Hstage Hfinal. rewrite process_message_complete by done.
  unfold final_questions in Hfinal. unfold _handle_completion. run_m.
  destruct (candidate_data h !! lit "final_questions") as [[]|] eqn:Hkey;
    simplify_eq; run_m.
  - rewrite Hkey. run_m. by rewrite <- app_assoc.
  - rewrite lookup_insert_eq. run_m. rewrite insert_insert_eq.
    by rewrite <- app_assoc.
Qed.

(** Once the interview is complete every further message is recorded,
    trimmed, at the end of the final questions and answered with the same
    fixed reply; the stage stays complete and nothing else of the candidate
    data and no retry counter changes. *)
Theorem completion_collects_remarks rt h remarks turns :
  current_stage h = lit "complete" ->
  final_questions h = Some remarks ->
  let h' := run rt (deliveries turns) h in
  current_stage h' = lit "complete" /\
  final_questions h' = Some (remarks ++ map (fun t : client * str => strip t.2) turns) /\
  conversation_history h' =
    conversation_history h ++
      flat_map (fun t : client * str =>
                  [Message (lit "user") (Some t.2);
                   Message (lit "assistant") (Some completion_reply)]) turns /\
  validation_attempts h' = validation_attempts h /\
  forall k : str, k <> lit "final_questions" ->
    candidate_data h' !! k = candidate_data h !! k.
Proof.
  cbv zeta. revert h remarks.
  induction turns as [|[llm message] turns IH]; intros h remarks Hstage Hfinal.
  - change (run rt (deliveries []) h) with h. cbn [map flat_map].
    by rewrite !app_nil_r.
  - change (deliveries ((llm, message) :: turns))
      with (Process llm message :: deliveries turns).
    rewrite run_cons. cbn [step map flat_map snd].
    rewrite (process_message_remark _ _ _ _ _ Hstage Hfinal). cbn [fst].
    match goal with |- context [run rt _ ?g] =>
      destruct (IH g (remarks ++ [strip message])) as (IH1 & IH2 & IH3 & IH4 & IH5)
    end.
    + done.
    + unfold final_questions. cbn [with_history with_data candidate_data].
      by rewrite lookup_insert_eq.
    + split; [done|]. split; [by rewrite IH2, <- app_assoc|].
      split; [by rewrite IH3; cbn [with_history conversation_history]; rewrite <- app_assoc|].
      split; [done|]. intros k Hk. rewrite IH5 by done.
      cbn [with_history with_data candidate_data]. by rewrite lookup_insert_ne.
Qed.

(** One padded remark after completion. *)
Lemma completion_collects_remarks_witness :
  let h := with_stage (lit "complete") new_HiringAssistant in
  let h' := run ascii_runtime (deliveries [(failing, lit " When do I hear back? ")]) h in
  current_stage h' = lit "complete" /\
  final_questions h' = Some [lit "When do I hear back?"].
Proof.
  intros h h'.
  assert (Hfinal : final_questions h = Some []) by (vm_compute; reflexivity).
  pose proof (completion_collects_remarks ascii_runtime h []
                [(failing, lit " When do I hear back? ")] eq_refl Hfinal)
    as (Hstage & Hremarks & _).
  split; [exact Hstage|]. unfold h'. rewrite Hremarks. vm_compute. reflexivity.
Defined.

(** ** The course of an interview *)

Lemma next_stage_rank s next :
  next_stage s = Some next ->
  exists i, stage_rank s = Some i /\ stage_rank next = Some (S i).
Proof.
  unfold next_stage, stage_rank.
  destruct (list_find (fun s' => s' = s) stages) as [[i x]|] eqn:Hfind; [|done].
  apply list_find_Some in Hfind as (Hi & -> & _). intros Hnext.
  do 10 (destruct i as [|i];
         [vm_compute in Hi; vm_compute in Hnext; simplify_eq;
          eexists; split; vm_compute; reflexivity|]).
  done.
Qed.

Lemma final_questions_insert k v f h :
  k <> lit "final_questions" ->
  final_questions (with_history f (with_data (insert k v) h)) = final_questions h.
Proof.
  intros Hk. unfold final_questions. cbn [with_history with_data candidate_data].
  by rewrite lookup_insert_ne.
Qed.

Lemma later_field_is_info s :
  s ∈ [lit "email"; lit "phone"; lit "experience"; lit "position"; lit "location"] ->
  s ∈ info_stages /\ s <> lit "final_questions" /\
  exists i, stage_rank s = Some i /\
  exists next prompt,
    next_stage s = Some next /\ stage_questions !! next = Some prompt /\
    (next ∈ [lit "email"; lit "phone"; lit "experience"; lit "position"; lit "location"]
     \/ next = lit "techstack").
Proof.
  intros Hs. repeat (apply elem_of_cons in Hs as [->|Hs]);
    [..|by apply elem_of_nil in Hs].
  all: split; [apply (bool_decide_unpack _); vm_compute; exact I|].
  all: split; [lit_ne|].
  all: eexists; split; [vm_compute; reflexivity|].
  all: eexists; eexists; split; [vm_compute; reflexivity|].
  all: split; [vm_compute; reflexivity|].
  all: first [right; reflexivity | left; apply (bool_decide_unpack _); vm_compute; exact I].
Qed.

Lemma process_message_greeting rt llm message h :
  current_stage h = lit "greeting" ->
  process_message rt llm message h =
    (with_history
       (fun l => l ++ [Message (lit "user") (Some message);
                       Message (lit "assistant") (Some (stage_questions !!! lit "email"))])
       (with_stage (lit "email")
          (with_attempts (insert (lit "name_attempts") 0%Z)
             (with_data (insert (lit "name") (VStr (strip message))) h))),
     Return (Some (stage_questions !!! lit "email"))).
Proof.
  intros Hstage. unfold process_message. run_m. rewrite Hstage.
  eval_bool_decide. cbv iota. unfold _handle_greeting. run_m.
  by rewrite <- app_assoc.
Qed.

Lemma process_message_techstack_accept rt llm message h :
  current_stage h = lit "techstack" ->
  (3 <= len (strip message))%Z ->
  exists first_question,
    process_message rt llm message h =
      (with_history
         (fun l => l ++ [Message (lit "user") (Some message);
                         Message (lit "assistant")
                           (Some (techstack_intro 4 first_question))])
         (questions_ready message (generate_questions rt llm message 4) h),
       Return (Some (techstack_intro 4 first_question))).
Proof.
  intros Hstage Hlong.
  pose proof (generate_questions_four rt llm message) as Hlen.
  unfold process_message, _handle_techstack. rewrite validate_techstack.
  destruct (Z.leb_spec 3 (len (strip message))); [|lia].
  revert Hlen. generalize (generate_questions rt llm message 4).
  intros [|first_question rest] Hlen; [discriminate|].
  exists first_question.
  run_m. rewrite Hstage. eval_bool_decide. cbv iota. cbn [negb]. run_m.
  change (index (first_question :: rest) 0) with (Some first_question).
  replace (len (first_question :: rest)) with 4%Z by (unfold len; lia).
  unfold questions_ready. run_m. by rewrite <- app_assoc.
Qed.

Lemma asking_questions_ready message questions f h :
  (0 < len questions)%Z ->
  asking questions [] (with_history f (questions_ready message questions h)).
Proof.
  intros Hlen. unfold asking, questions_ready.
  cbn [with_history with_stage with_data current_stage candidate_data].
  split; [done|]. split; [by rewrite !lookup_insert_ne, lookup_insert_eq by lit_ne|].
  split; [by rewrite lookup_insert_ne, lookup_insert_eq by lit_ne|].
  split; [by rewrite lookup_insert_eq|done].
Qed.

Lemma final_questions_questions_ready message questions f h :
  final_questions (with_history f (questions_ready message questions h)) =
  final_questions h.
Proof.
  unfold final_questions, questions_ready.
  cbn [with_history with_stage with_data candidate_data].
  by rewrite !lookup_insert_ne by lit_ne.
Qed.

Lemma asking_stage_rank : stage_rank (lit "questions") = Some 8%nat.
Proof. vm_compute. reflexivity. Qed.

Lemma complete_stage_rank : stage_rank (lit "complete") = Some 9%nat.
Proof. vm_compute. reflexivity. Qed.

(** One message delivered to a well-formed state: the call returns a text,
    the state stays well formed and the stage does not move back. *)
Lemma well_formed_process rt llm message h :
  well_formed h ->
  exists reply h',
    process_message rt llm message h = (h', Return (Some reply)) /\
    well_formed h' /\
    exists i j,
      stage_rank (current_stage h) = Some i /\
      stage_rank (current_stage h') = Some j /\ (i <= j)%nat.
Proof.
  intros [Hfinal [Hstage|[Hstage|[Hstage|[(questions & answers & Hask)|Hstage]]]]].
  - rewrite process_message_greeting by done.
    eexists; eexists; split; [reflexivity|]. split.
    + split.
      * unfold final_questions.
        cbn [with_history with_stage with_attempts with_data candidate_data].
        rewrite lookup_insert_ne by lit_ne. exact Hfinal.
      * right; left. cbn [with_history with_stage current_stage].
        apply (bool_decide_unpack _). vm_compute. exact I.
    + rewrite Hstage. exists 0%nat, 2%nat.
      split; [vm_compute; reflexivity|]. split; [vm_compute; reflexivity|lia].
  - destruct (later_field_is_info _ Hstage)
      as (Hinfo & Hkey & i & Hi & next & prompt & Hnext & Hprompt & Hlater).
    destruct (next_stage_rank _ _ Hnext) as (i' & Hi' & Hj).
    assert (Haccept :
      (validate rt (current_stage h) message).1 = true \/
      (2 <= retry_counter h (current_stage h))%Z ->
      exists reply h',
        process_message rt llm message h = (h', Return (Some reply)) /\
        well_formed h' /\
        exists i j,
          stage_rank (current_stage h) = Some i /\
          stage_rank (current_stage h') = Some j /\ (i <= j)%nat).
    { intros Hok.
      rewrite (process_message_accept _ _ _ _ _ _ Hinfo Hok Hnext Hprompt).
      eexists; eexists; split; [reflexivity|]. split.
      - split.
        + unfold final_questions. cbn [candidate_data].
          rewrite lookup_insert_ne by done. exact Hfinal.
        + cbn [current_stage]. destruct Hlater as [Hlater| ->]; tauto.
      - cbn [current_stage]. exists i', (S i'). split; [done|]. split; [done|lia]. }
    destruct (validate_shape rt (current_stage h) message) as [Hv|[e Hv]].
    + apply Haccept. left. by rewrite Hv.
    + destruct (Z.lt_ge_cases (retry_counter h (current_stage h)) 2) as [Hlow|Hhigh].
      * rewrite process_message_retry by (by rewrite ?Hv).
        rewrite Hv. eexists; eexists; split; [reflexivity|]. split.
        -- split; [exact Hfinal|]. cbn [current_stage]. tauto.
        -- cbn [current_stage]. exists i, i. split; [done|]. split; [done|lia].
      * apply Haccept. by right.
  - destruct (Z.lt_ge_cases (len (strip message)) 3) as [Hshort|Hlong].
    + rewrite process_message_techstack_reject by done.
      eexists; eexists; split; [reflexivity|]. split.
      * split; [exact Hfinal|]. cbn [with_history current_stage]. tauto.
      * cbn [with_history current_stage]. rewrite Hstage. exists 7%nat, 7%nat.
        split; [vm_compute; reflexivity|]. split; [vm_compute; reflexivity|lia].
    + destruct (process_message_techstack_accept rt llm message h Hstage Hlong)
        as [first_question ->].
      eexists; eexists; split; [reflexivity|]. split.
      * split; [by rewrite final_questions_questions_ready|].
        right; right; right; left. eexists; eexists.
        apply asking_questions_ready.
        rewrite generate_questions_small by lia. lia.
      * cbn [with_history questions_ready with_stage current_stage].
        rewrite Hstage, asking_stage_rank. exists 7%nat, 8%nat.
        split; [vm_compute; reflexivity|]. split; [done|lia].
  - pose proof Hask as (Hstage & Hq & Ha & Hc & Hlt).
    destruct (Z.lt_ge_cases (len answers + 1) (len questions)) as [Hmore|Hlast].
    + destruct (lookup_lt_is_Some_2 questions (length answers + 1)) as [q Hnext];
        [unfold len in Hmore; lia|].
      rewrite (process_message_asking_next _ _ _ _ _ _ _ Hask Hnext).
      eexists; eexists; split; [reflexivity|]. split.
      * split.
        -- unfold final_questions. cbn [with_history with_data candidate_data].
           rewrite !lookup_insert_ne by lit_ne. exact Hfinal.
        -- right; right; right; left. eexists; eexists. by apply asking_next.
      * cbn [with_history with_data current_stage]. rewrite Hstage, asking_stage_rank.
        exists 8%nat, 8%nat. split; [done|]. split; [done|lia].
    + assert (Heq : (len answers + 1 = len questions)%Z) by lia.
      rewrite (process_message_asking_last _ _ _ _ _ _ Hask Heq).
      eexists; eexists; split; [reflexivity|]. split.
      * split.
        -- unfold final_questions.
           cbn [with_history with_stage with_data candidate_data].
           rewrite lookup_insert_ne by lit_ne. exact Hfinal.
        -- cbn [with_history with_stage current_stage]. tauto.
      * cbn [with_history with_stage current_stage].
        rewrite Hstage, asking_stage_rank, complete_stage_rank.
        exists 8%nat, 9%nat. split; [done|]. split; [done|lia].
  - destruct Hfinal as [remarks Hfinal].
    rewrite (process_message_remark _ _ _ _ _ Hstage Hfinal).
    eexists; eexists; split; [reflexivity|]. split.
    + split.
      * unfold final_questions. cbn [with_history with_data candidate_data].
        by rewrite lookup_insert_eq.
      * cbn [with_history with_data current_stage]. tauto.
    + cbn [with_history with_data current_stage].
      rewrite Hstage, complete_stage_rank.
      exists 9%nat, 9%nat. split; [done|]. split; [done|lia].
Qed.

Lemma well_formed_step rt h c : well_formed h -> well_formed (step rt h c).
Proof.
  intros Hwf. destruct c as [|llm message]; [exact Hwf|].
  destruct (well_formed_process rt llm message h Hwf) as (reply & h' & Hrun & Hwf' & _).
  cbn [step]. by rewrite Hrun.
Qed.

Lemma well_formed_run rt calls h : well_formed h -> well_formed (run rt calls h).
Proof.
  revert h. induction calls as [|c calls IH]; intros h Hwf; [done|].
  rewrite run_cons. by apply IH, well_formed_step.
Qed.

Lemma well_formed_new : well_formed new_HiringAssistant.
Proof. split; [by exists []|]. by left. Qed.

(** Whatever calls a fresh assistant has received and whatever the
    collaborator does, the next message is processed without raising and the
    reply is a text: no lookup of a key, of a question or of a stage fails. *)
Theorem interview_never_raises rt calls llm message :
  exists reply,
    (process_message rt llm message (run rt calls new_HiringAssistant)).2 =
    Return (Some reply).
Proof.
  destruct (well_formed_process rt llm message (run rt calls new_HiringAssistant))
    as (reply & h' & Hrun & _); [apply well_formed_run, well_formed_new|].
  exists reply. by rewrite Hrun.
Qed.

(** The stage of an assistant that started fresh is always one of [stages],
    and no call moves it to an earlier one. *)
Theorem stage_never_moves_back rt calls c :
  let h := run rt calls new_HiringAssistant in
  exists i j,
    stage_rank (current_stage h) = Some i /\
    stage_rank (current_stage (step rt h c)) = Some j /\ (i <= j)%nat.
Proof.
  cbv zeta.
  assert (Hwf : well_formed (run rt calls new_HiringAssistant))
    by apply well_formed_run, well_formed_new.
  destruct (well_formed_process rt failing [] _ Hwf)
    as (_ & _ & _ & _ & i & _ & Hi & _).
  destruct c as [|llm message].
  - exists i, i. cbn [step]. split; [done|]. split; [done|lia].
  - destruct (well_formed_process rt llm message _ Hwf)
      as (reply & h' & Hrun & _ & i' & j & Hi' & Hj & Hle).
    exists i', j. cbn [step]. rewrite Hrun. done.
Qed.

(** The name stage is never entered: the greeting stores the name and goes
    straight to the email stage, so the name rule of the validator and the
    name prompt are never used by an interview. *)
Theorem name_stage_is_skipped rt calls :
  current_stage (run rt calls new_HiringAssistant) <> lit "name".
Proof.
  destruct (well_formed_run rt calls _ well_formed_new)
    as [_ [Hs|[Hs|[Hs|[(questions & answers & Hs & _)|Hs]]]]]; intros Hname.
  - rewrite Hname in Hs. vm_compute in Hs. discriminate.
  - rewrite Hname in Hs. revert Hs. apply (bool_decide_eq_false_1 _).
    vm_compute. reflexivity.
  - rewrite Hname in Hs. vm_compute in Hs. discriminate.
  - rewrite Hname in Hs. vm_compute in Hs. discriminate.
  - rewrite Hname in Hs. vm_compute in Hs. discriminate.
Qed.

(** ** The data handler *)

Lemma split_nonempty sep s : split sep s <> [].
Proof.
  destruct s as [|c s]; [done|]. cbn [split].
  destruct (c =? sep); [done|]. by destruct (split sep s).
Qed.

Lemma split_app sep a b : split sep (a ++ sep :: b) = split sep a ++ split sep b.
Proof.
  induction a as [|c a IH].
  - cbn [app split]. by rewrite N.eqb_refl.
  - cbn [app split]. destruct (c =? sep); [by rewrite IH|].
    rewrite IH. pose proof (split_nonempty sep a) as Hne.
    by destruct (split sep a).
Qed.

Lemma split_none sep s : sep ∉ s -> split sep s = [s].
Proof.
  induction s as [|c s IH]; [done|]. intros Hsep.
  apply not_elem_of_cons in Hsep as [Hc Hs]. cbn [split].
  destruct (N.eqb_spec c sep); [done|]. by rewrite IH.
Qed.

Lemma startswith_replace_slash name rest :
  startswith (lit "/") name = true ->
  startswith (lit "/") (replace name (lit " ") (lit "_") ++ rest) = true.
Proof.
  change (lit "/") with [47]. change (lit " ") with [32]. change (lit "_") with [95].
  destruct name as [|c name]; [done|]. cbn [startswith].
  destruct (N.eqb_spec 47 c) as [<-|]; [|done]. intros _.
  unfold replace. cbn [replace_go startswith]. change (32 =? 47) with false.
  cbv iota. reflexivity.
Qed.

Lemma save_candidate_shape e dh data data' dh' filename :
  save_candidate e dh data = (data', dh', Return filename) ->
  data' = stamped e data /\
  data_dir dh' = data_dir dh /\
  files dh' = <[path_join (data_dir dh) filename := stamped e data]> (files dh) /\
  path_join (data_dir dh) filename = candidate_path e dh data /\
  match data !! lit "name" with Some (VStr _) | None => True | Some _ => False end.
Proof.
  unfold save_candidate. fold (stamped e data). rewrite stamped_name.
  unfold candidate_path.
  destruct (data !! lit "name") as [[name| |]|]; cbn [default from_option id];
    try done.
  - destruct (writable e _); [|done]. intros [= <- <- <-]. done.
  - destruct (writable e _); [|done]. intros [= <- <- <-]. done.
Qed.

(** A record that was saved is what [load_candidate] returns for the file
    name [save_candidate] gave back, whatever the directory held before: the
    record with its time stamp and interview id, which are also written into
    the dict handed in. *)
Theorem load_after_save e dh data data' dh' filename :
  save_candidate e dh data = (data', dh', Return filename) ->
  load_candidate dh' filename = Some (stamped e data) /\
  data' = stamped e data.
Proof.
  intros Hsave. apply save_candidate_shape in Hsave as (-> & Hdir & Hfiles & _).
  unfold load_candidate. rewrite Hdir, Hfiles. cbv zeta.
  split; [by rewrite lookup_insert_eq|done].
Qed.

(** Jane Doe saved into an empty directory and loaded again. *)
Lemma load_after_save_witness :
  let e := {| now_isoformat := lit "2024-05-01T10:00:00";
              now_interview_id := lit "20240501100000";
              now_filename := lit "20240501_100000";
              writable := fun _ => true |} in
  let data : gmap str value := <[lit "name" := VStr (lit "Jane Doe")]> ∅ in
  let saved := save_candidate e new_DataHandler data in
  saved.2 = Return (lit "Jane_Doe_20240501_100000.json") /\
  load_candidate saved.1.2 (lit "Jane_Doe_20240501_100000.json") = Some (stamped e data).
Proof.
  intros e data saved.
  assert (Hsave : saved = (saved.1.1, saved.1.2, Return (lit "Jane_Doe_20240501_100000.json")))
    by (vm_compute; reflexivity).
  split; [by rewrite Hsave|].
  exact (proj1 (load_after_save e new_DataHandler data _ _ _ Hsave)).
Defined.

(** The file name is made of the name and the time to the second only: when
    two candidates of the same name are saved within the same second, the
    second save goes to the same file and the first record can no longer be
    loaded. *)
Theorem same_name_same_second_overwrites e1 e2 dh d1 d2 d1' d2' dh1 dh2 f1 f2 :
  save_candidate e1 dh d1 = (d1', dh1, Return f1) ->
  save_candidate e2 dh1 d2 = (d2', dh2, Return f2) ->
  d1 !! lit "name" = d2 !! lit "name" ->
  now_filename e1 = now_filename e2 ->
  f1 = f2 /\
  load_candidate dh2 f1 = Some (stamped e2 d2) /\
  files dh2 = <[path_join (data_dir dh) f1 := stamped e2 d2]> (files dh).
Proof.
  intros Hs1 Hs2 Hname Hnow.
  assert (Hf : f1 = f2).
  { revert Hs1 Hs2. unfold save_candidate.
    fold (stamped e1 d1). fold (stamped e2 d2). rewrite !stamped_name, <- Hname, Hnow.
    destruct (d1 !! lit "name") as [[name| |]|]; cbn [default from_option id];
      try done.
    - destruct (writable e1 _); [|done]. destruct (writable e2 _); [|done].
      by intros [= <- <- <-] [= <- <- <-].
    - destruct (writable e1 _); [|done]. destruct (writable e2 _); [|done].
      by intros [= <- <- <-] [= <- <- <-]. }
  subst f2. split; [done|].
  apply save_candidate_shape in Hs1 as (-> & Hdir1 & Hfiles1 & _).
  apply save_candidate_shape in Hs2 as (-> & Hdir2 & Hfiles2 & _).
  unfold load_candidate. cbv zeta.
  rewrite Hdir2, Hfiles2, Hdir1, Hfiles1.
  split; [by rewrite lookup_insert_eq|]. by rewrite insert_insert_eq.
Qed.

(** Two candidates named Jane Doe saved within one second. *)
Lemma same_name_same_second_overwrites_witness :
  let e := {| now_isoformat := lit "2024-05-01T10:00:00";
              now_interview_id := lit "20240501100000";
              now_filename := lit "20240501_100000";
              writable := fun _ => true |} in
  let d1 : gmap str value :=
    <[lit "email" := VStr (lit "first@example.com")]> (<[lit "name" := VStr (lit "Jane Doe")]> ∅) in
  let d2 : gmap str value :=
    <[lit "email" := VStr (lit "second@example.com")]> (<[lit "name" := VStr (lit "Jane Doe")]> ∅) in
  let first := save_candidate e new_DataHandler d1 in
  let second := save_candidate e first.1.2 d2 in
  load_candidate second.1.2 (lit "Jane_Doe_20240501_100000.json") = Some (stamped e d2).
Proof.
  intros e d1 d2 first second.
  assert (H1 : first = (first.1.1, first.1.2, Return (lit "Jane_Doe_20240501_100000.json")))
    by (vm_compute; reflexivity).
  assert (H2 : second = (second.1.1, second.1.2, Return (lit "Jane_Doe_20240501_100000.json")))
    by (vm_compute; reflexivity).
  assert (Hname : d1 !! lit "name" = d2 !! lit "name") by (vm_compute; reflexivity).
  exact (proj1 (proj2 (same_name_same_second_overwrites e e new_DataHandler d1 d2
                         _ _ _ _ _ _ H1 H2 Hname eq_refl))).
Defined.

(** The name goes into the path unchecked: when it begins with a slash the
    record is written to the path made of the name itself, outside the data
    directory. *)
Theorem absolute_name_leaves_data_dir e dh data name :
  data !! lit "name" = Some (VStr name) ->
  startswith (lit "/") name = true ->
  let filename := replace name (lit " ") (lit "_") ++ lit "_" ++ now_filename e ++ lit ".json" in
  startswith (lit "/") filename = true /\
  save_candidate e dh data =
    if writable e filename
    then (stamped e data,
          {| data_dir := data_dir dh;
             files := <[filename := stamped e data]> (files dh) |},
          Return filename)
    else (stamped e data, dh, Raise OSError).
Proof.
  intros Hname Hslash. cbv zeta.
  pose proof (startswith_replace_slash name (lit "_" ++ now_filename e ++ lit ".json") Hslash)
    as Hfile.
  split; [exact Hfile|].
  rewrite save_candidate_text by (by rewrite Hname).
  unfold candidate_path. rewrite Hname. unfold path_join. by rewrite Hfile.
Qed.

(** A candidate whose name is a path under /tmp. *)
Lemma absolute_name_leaves_data_dir_witness :
  let e := {| now_isoformat := lit "2024-05-01T10:00:00";
              now_interview_id := lit "20240501100000";
              now_filename := lit "20240501_100000";
              writable := fun _ => true |} in
  let data : gmap str value := <[lit "name" := VStr (lit "/tmp/x")]> ∅ in
  files (save_candidate e new_DataHandler data).1.2 !! lit "/tmp/x_20240501_100000.json" =
    Some (stamped e data).
Proof.
  intros e data.
  assert (Hname : data !! lit "name" = Some (VStr (lit "/tmp/x")))
    by (vm_compute; reflexivity).
  assert (Hslash : startswith (lit "/") (lit "/tmp/x") = true) by (vm_compute; reflexivity).
  destruct (absolute_name_leaves_data_dir e new_DataHandler data (lit "/tmp/x") Hname Hslash)
    as [_ ->].
  assert (Hfile : replace (lit "/tmp/x") (lit " ") (lit "_") ++ lit "_" ++ now_filename e
                  ++ lit ".json" = lit "/tmp/x_20240501_100000.json")
    by (vm_compute; reflexivity).
  rewrite Hfile. cbn [e writable fst snd files]. apply lookup_insert_eq.
Defined.

Lemma split_at email local domain :
  email = local ++ [64] ++ domain -> 64 ∉ local -> 64 ∉ domain ->
  split 64 email = [local; domain].
Proof.
  intros -> Hlocal Hdomain. cbn [app]. rewrite split_app.
  by rewrite !split_none.
Qed.

Lemma slice_from_last4 {A} (l : list A) :
  (4 <= len l)%Z -> slice_from l (-4) = drop (length l - 4) l.
Proof.
  intros Hlen. unfold slice_from. cbn [Z.leb Z.compare]. f_equal.
  unfold len in Hlen. lia.
Qed.

Lemma email_shape_at s :
  email_shape s ->
  exists local domain, s = local ++ [64] ++ domain /\ (64 ∉ local) /\ (64 ∉ domain).
Proof.
  intros (local & domain & tld & -> & _ & Hlocal & _ & Hdomain & _ & Htld).
  exists local, (domain ++ [46] ++ tld). split; [done|].
  rewrite forallb_forall in Hlocal, Hdomain, Htld.
  setoid_rewrite <- list_elem_of_In in Hlocal.
  setoid_rewrite <- list_elem_of_In in Hdomain.
  setoid_rewrite <- list_elem_of_In in Htld.
  split; [intros Hin; by apply Hlocal in Hin|].
  rewrite !elem_of_app, list_elem_of_singleton.
  intros [Hin|[Hin|Hin]]; [by apply Hdomain in Hin|done|by apply Htld in Hin].
Qed.

(** A record whose email has one [@] and whose phone is a text is returned
    with the email cut to the first two characters before the [@], three
    stars, and the part after the [@] in full, and the phone replaced by a
    mask that keeps its last four characters, or none when it is shorter
    than four. A phone of exactly four characters is therefore shown whole;
    every other field, the name included, is returned as it is. *)
Theorem anonymize_masks_email_and_phone rt data local domain phone :
  data !! lit "email" = Some (VStr (local ++ [64] ++ domain)) ->
  64 ∉ local -> 64 ∉ domain ->
  data !! lit "phone" = Some (VStr phone) ->
  anonymize_candidate_data rt data =
    Return
      (<[lit "phone" :=
           VStr (if (4 <=? len phone)%Z
                 then lit "***-***-" ++ drop (length phone - 4) phone
                 else lit "***-***")]>
         (<[lit "email" := VStr (take 2 local ++ lit "***@" ++ domain)]> data)).
Proof.
  intros Hemail Hlocal Hdomain Hphone. unfold anonymize_candidate_data.
  rewrite Hemail. rewrite (split_at _ local domain) by done.
  rewrite lookup_insert_ne by lit_ne. rewrite Hphone.
  destruct (Z.leb_spec 4 (len phone)); [|done].
  by rewrite slice_from_last4.
Qed.

(** A phone of four characters stays readable. *)
Lemma anonymize_masks_email_and_phone_witness :
  let data : gmap str value :=
    <[lit "phone" := VStr (lit "5551")]>
      (<[lit "email" := VStr (lit "jane.doe@example.com")]>
         (<[lit "name" := VStr (lit "Jane Doe")]> ∅)) in
  anonymize_candidate_data ascii_runtime data =
    Return (<[lit "phone" := VStr (lit "***-***-5551")]>
              (<[lit "email" := VStr (lit "ja***@example.com")]> data)).
Proof.
  intros data.
  assert (Hemail : data !! lit "email" =
                   Some (VStr (lit "jane.doe" ++ [64] ++ lit "example.com")))
    by (vm_compute; reflexivity).
  assert (Hlocal : 64 ∉ lit "jane.doe")
    by (apply (bool_decide_eq_false_1 _); vm_compute; reflexivity).
  assert (Hdomain : 64 ∉ lit "example.com")
    by (apply (bool_decide_eq_false_1 _); vm_compute; reflexivity).
  assert (Hphone : data !! lit "phone" = Some (VStr (lit "5551")))
    by (vm_compute; reflexivity).
  rewrite (anonymize_masks_email_and_phone ascii_runtime data _ _ _
             Hemail Hlocal Hdomain Hphone).
  vm_compute. reflexivity.
Defined.

(** An email that passed the validator is always masked: the call does not
    raise, whether the record has no phone, as when the candidate left at
    the phone stage, or a phone that is a text or a list; with no phone the
    result has none either. *)
Theorem validated_email_is_masked rt data value :
  validate rt (lit "email") value = (true, None) ->
  data !! lit "email" = Some (VStr (strip value)) ->
  (forall n, data !! lit "phone" <> Some (VInt n)) ->
  exists local domain out,
    strip value = local ++ [64] ++ domain /\
    anonymize_candidate_data rt data = Return out /\
    out !! lit "email" = Some (VStr (take 2 local ++ lit "***@" ++ domain)) /\
    (data !! lit "phone" = None -> out !! lit "phone" = None).
Proof.
  intros Hvalid Hemail Hphone. rewrite validate_email in Hvalid.
  destruct (Re.matchb email_pattern (strip value)) eqn:Hmatch; [|done].
  apply ReFacts.matchb_spec, ReFacts.Matches_email, email_shape_at in Hmatch
    as (local & domain & Hsplit & Hlocal & Hdomain).
  exists local, domain. unfold anonymize_candidate_data.
  rewrite Hemail. rewrite (split_at _ local domain) by done.
  rewrite lookup_insert_ne by lit_ne.
  destruct (data !! lit "phone") as [[phone|phones|n]|] eqn:Hkey.
  - eexists. split; [done|]. split; [reflexivity|].
    split; [|done]. by rewrite lookup_insert_ne, lookup_insert_eq by lit_ne.
  - eexists. split; [done|]. split; [reflexivity|].
    split; [|done]. by rewrite lookup_insert_ne, lookup_insert_eq by lit_ne.
  - by destruct (Hphone n).
  - eexists. split; [done|]. split; [reflexivity|].
    split; [by rewrite lookup_insert_eq|]. intros _. by rewrite lookup_insert_ne by lit_ne.
Qed.

(** A padded, valid email and no phone: the record of a candidate who left
    at the phone stage. *)
Lemma validated_email_is_masked_witness :
  let data : gmap str value :=
    <[lit "email" := VStr (lit "jane.doe@example.com")]>
      (<[lit "name" := VStr (lit "Jane Doe")]> ∅) in
  exists local domain out,
    strip (lit " jane.doe@example.com ") = local ++ [64] ++ domain /\
    anonymize_candidate_data ascii_runtime data = Return out /\
    out !! lit "email" = Some (VStr (take 2 local ++ lit "***@" ++ domain)) /\
    (data !! lit "phone" = None -> out !! lit "phone" = None).
Proof.
  intros data.
  assert (Hvalid : validate ascii_runtime (lit "email") (lit " jane.doe@example.com ") =
                   (true, None)) by (vm_compute; reflexivity).
  assert (Hemail : data !! lit "email" = Some (VStr (strip (lit " jane.doe@example.com "))))
    by (vm_compute; reflexivity).
  assert (Hphone : forall n, data !! lit "phone" <> Some (VInt n)).
  { intros n. assert (Hnone : data !! lit "phone" = None) by (vm_compute; reflexivity).
    rewrite Hnone. discriminate. }
  exact (validated_email_is_masked ascii_runtime data _ Hvalid Hemail Hphone).
Defined.

(** An email text without [@] makes the call raise [IndexError]: the stored
    email is not checked before its second part is taken. *)
Theorem anonymize_raises_without_at rt data email :
  data !! lit "email" = Some (VStr email) ->
  64 ∉ email ->
  anonymize_candidate_data rt data = Raise IndexError.
Proof.
  intros Hemail Hat. unfold anonymize_candidate_data.
  by rewrite Hemail, split_none.
Qed.

(** An email stored after three rejected attempts. *)
Lemma anonymize_raises_without_at_witness :
  anonymize_candidate_data ascii_runtime (<[lit "email" := VStr (lit "not-an-email")]> ∅) =
    Raise IndexError.
Proof.
  assert (Hemail : (<[lit "email" := VStr (lit "not-an-email")]> ∅ : gmap str value)
                     !! lit "email" = Some (VStr (lit "not-an-email")))
    by (vm_compute; reflexivity).
  assert (Hat : 64 ∉ lit "not-an-email")
    by (apply (bool_decide_eq_false_1 _); vm_compute; reflexivity).
  exact (anonymize_raises_without_at ascii_runtime _ _ Hemail Hat).
Defined.

(** ** The knowledge base and the answer of the collaborator *)

Lemma knowledge_base_four :
  Forall (fun tech => len (knowledge_base_get tech) = 4%Z) (map fst knowledge_base).
Proof.
  apply Forall_forall. intros tech Htech.
  apply list_elem_of_In in Htech.
  assert (Hall : forallb (fun tech => (len (knowledge_base_get tech) =? 4)%Z)
                   (map fst knowledge_base) = true) by (vm_compute; reflexivity).
  rewrite forallb_forall in Hall. apply Hall in Htech. lia.
Qed.

Lemma matched_techs_known rt tech_stack tech :
  tech ∈ matched_techs rt tech_stack ->
  tech ∈ map fst knowledge_base /\ contains tech (lower rt tech_stack) = true.
Proof.
  unfold matched_techs. rewrite !list_elem_of_In, filter_In. tauto.
Qed.

Lemma len_flat_map_const {A B} (f : A -> list B) (c : Z) (l : list A) :
  Forall (fun x => len (f x) = c) l -> len (flat_map f l) = (len l * c)%Z.
Proof.
  induction 1 as [|x l Hx _ IH]; [done|].
  cbn [flat_map]. rewrite len_app, IH, Hx. unfold len. cbn [length]. lia.
Qed.

Lemma len_take_slice {A} (l : list A) n :
  (0 <= n)%Z -> len (slice_to l n) = Z.min n (len l).
Proof.
  intros Hn. unfold slice_to, len. destruct (Z.leb_spec 0 n); [|lia].
  rewrite length_take. lia.
Qed.

Lemma len_drop_slice {A} (l : list A) n :
  (0 <= n)%Z -> len (slice_from l n) = Z.max 0 (len l - n).
Proof.
  intros Hn. unfold slice_from, len. destruct (Z.leb_spec 0 n); [|lia].
  rewrite length_drop. lia.
Qed.

Lemma slice_to_subseteq {A} (l : list A) n : slice_to l n ⊆ l.
Proof. unfold slice_to. destruct (0 <=? n)%Z; apply subseteq_take. Qed.

Lemma slice_from_subseteq {A} (l : list A) n : slice_from l n ⊆ l.
Proof. unfold slice_from. destruct (0 <=? n)%Z; apply subseteq_drop. Qed.

Lemma Forall_within {A} (P : A -> Prop) (l1 l2 : list A) :
  l1 ⊆ l2 -> Forall P l2 -> Forall P l1.
Proof. rewrite !Forall_forall. intros Hsub Hall x Hx. by apply Hall, Hsub. Qed.

Lemma len_add_extras per_tech num techs questions :
  (1 <= per_tech <= 4)%Z ->
  Forall (fun tech => len (knowledge_base_get tech) = 4%Z) techs ->
  (len questions <= num)%Z ->
  len (add_extras per_tech num techs questions (num - len questions)) =
  Z.min num (len questions + len techs * (4 - per_tech)).
Proof.
  intros Hper Hfour. revert questions.
  induction Hfour as [|tech techs Htech _ IH]; intros questions Hlen.
  - cbn [add_extras]. unfold len at 3. cbn [length]. lia.
  - cbn [add_extras]. destruct (Z.leb_spec num (len questions)) as [Hge|Hlt].
    + pose proof (len_nonneg (tech :: techs)). nia.
    + cbv zeta.
      assert (Hextra :
        len (slice_to (slice_from (knowledge_base_get tech) per_tech)
               (num - len questions)) =
        Z.min (num - len questions) (4 - per_tech)).
      { rewrite len_take_slice, len_drop_slice, Htech by lia. lia. }
      rewrite IH by (rewrite len_app, Hextra; lia).
      rewrite len_app, Hextra.
      replace (len (tech :: techs)) with (1 + len techs)%Z
        by (unfold len; cbn [length]; lia).
      pose proof (len_nonneg techs). nia.
Qed.

Lemma add_extras_subseteq (P : str -> Prop) per_tech num techs questions remaining :
  Forall (fun tech => Forall P (knowledge_base_get tech)) techs ->
  Forall P questions ->
  Forall P (add_extras per_tech num techs questions remaining).
Proof.
  intros Htechs. revert questions remaining.
  induction Htechs as [|tech techs Htech _ IH]; intros questions remaining Hq; [done|].
  cbn [add_extras]. destruct (num <=? len questions)%Z; [done|].
  apply IH, Forall_app. split; [done|].
  eapply Forall_within; [|exact Htech].
  etrans; [apply slice_to_subseteq|apply slice_from_subseteq].
Qed.

Lemma library_questions_known (P : str -> Prop) num matched :
  Forall (fun tech => Forall P (knowledge_base_get tech)) matched ->
  Forall P (library_questions num matched).
Proof.
  intros Hm. unfold library_questions. destruct matched as [|tech matched]; [done|].
  cbv zeta.
  assert (Hfirst : Forall P (flat_map (fun tech0 => slice_to (knowledge_base_get tech0)
                     (questions_per_tech num (tech :: matched))) (tech :: matched))).
  { apply Forall_flat_map. eapply Forall_impl; [exact Hm|].
    intros t Ht. eapply Forall_within; [apply slice_to_subseteq|exact Ht]. }
  destruct (_ <? _)%Z; [|done]. by apply add_extras_subseteq.
Qed.

Lemma len_library_questions num matched :
  matched <> [] ->
  Forall (fun tech => len (knowledge_base_get tech) = 4%Z) matched ->
  (0 <= num <= 4 * len matched)%Z ->
  (num <= len (library_questions num matched))%Z.
Proof.
  intros Hne Hfour Hnum. unfold library_questions.
  destruct matched as [|tech matched]; [done|]. cbv zeta.
  set (m := tech :: matched) in *.
  assert (Hm : (1 <= len m)%Z) by (unfold len, m; cbn [length]; lia).
  assert (Hper : (1 <= questions_per_tech num m <= 4)%Z).
  { unfold questions_per_tech. split; [lia|].
    apply Z.max_lub; [lia|]. apply Z.div_le_upper_bound; lia. }
  assert (Hfirst :
    len (flat_map (fun tech0 => slice_to (knowledge_base_get tech0)
                                  (questions_per_tech num m)) m) =
    (len m * questions_per_tech num m)%Z).
  { apply len_flat_map_const. eapply Forall_impl; [exact Hfour|].
    intros t Ht. cbv beta. rewrite len_take_slice, Ht by lia. lia. }
  destruct (Z.ltb_spec
              (len (flat_map (fun tech0 => slice_to (knowledge_base_get tech0)
                                             (questions_per_tech num m)) m)) num)
    as [Hlt|Hge]; [|lia].
  rewrite len_add_extras by (done || lia). rewrite Hfirst. nia.
Qed.

(** When the tech stack names at least one technology of the knowledge base
    and at most four questions per named technology are asked for, exactly
    that many questions are returned, every one of them a question the
    knowledge base holds for a named technology, and the collaborator has no
    part in the result. The four questions of an interview are of this kind
    as soon as one keyword matches. *)
Theorem library_suffices rt llm tech_stack num :
  let matched := matched_techs rt tech_stack in
  matched <> [] ->
  (0 <= num <= 4 * len matched)%Z ->
  let questions := generate_questions rt llm tech_stack num in
  len questions = num /\
  (forall llm', generate_questions rt llm' tech_stack num = questions) /\
  forall q, q ∈ questions ->
    exists tech, tech ∈ matched /\ q ∈ knowledge_base_get tech.
Proof.
  intros matched Hne Hnum questions.
  assert (Hfour : Forall (fun tech => len (knowledge_base_get tech) = 4%Z) matched).
  { apply Forall_forall. intros tech Htech.
    apply matched_techs_known in Htech as [Htech _].
    by apply (proj1 (Forall_forall _ _) knowledge_base_four). }
  pose proof (len_library_questions num matched Hne Hfour Hnum) as Hlen.
  assert (Hrun : forall llm',
    generate_questions rt llm' tech_stack num = slice_to (library_questions num matched) num)
    by (intros llm'; by apply generate_questions_enough).
  unfold questions. rewrite Hrun. split; [|split].
  - rewrite len_take_slice by lia. lia.
  - intros llm'. by rewrite Hrun.
  - intros q Hq. apply slice_to_subseteq in Hq. revert q Hq.
    apply Forall_forall, library_questions_known.
    apply Forall_forall. intros tech Htech. apply Forall_forall. intros q Hq.
    by exists tech.
Qed.

(** Two matched keywords, four questions. *)
Lemma library_suffices_witness :
  let questions := generate_questions ascii_runtime failing (lit "Python and SQL") 4 in
  len questions = 4%Z /\
  forall q, q ∈ questions ->
    exists tech, tech ∈ matched_techs ascii_runtime (lit "Python and SQL") /\
                 q ∈ knowledge_base_get tech.
Proof.
  assert (Hmatched : matched_techs ascii_runtime (lit "Python and SQL") <> [])
    by (vm_compute; discriminate).
  assert (Hnum : (0 <= 4 <= 4 * len (matched_techs ascii_runtime (lit "Python and SQL")))%Z)
    by (vm_compute; split; discriminate).
  pose proof (library_suffices ascii_runtime failing (lit "Python and SQL") 4 Hmatched Hnum)
    as (Hlen & _ & Hfrom).
  split; [exact Hlen|exact Hfrom].
Defined.

Lemma startswith_spec p s : startswith p s = true <-> exists t, s = p ++ t.
Proof.
  revert s. induction p as [|a p IH]; intros s.
  - split; [intros _; by exists s|by destruct s].
  - destruct s as [|b s]; cbn [startswith].
    + split; [done|]. by intros [t Ht].
    + rewrite andb_true_iff, N.eqb_eq, IH. split.
      * intros [-> [t ->]]. by exists t.
      * intros [t [= -> ->]]. split; [done|]. by exists t.
Qed.

Lemma contains_spec sub s :
  contains sub s = true <-> exists pre post, s = pre ++ sub ++ post.
Proof.
  induction s as [|c s IH]; cbn [contains].
  - rewrite orb_false_r, startswith_spec. split.
    + intros [t Ht]. by exists [], t.
    + intros (pre & post & Hs). destruct pre; [|done]. by exists post.
  - rewrite orb_true_iff, startswith_spec, IH. split.
    + intros [[t Ht]|(pre & post & ->)]; [by exists [], t|by exists (c :: pre), post].
    + intros (pre & post & Hs). destruct pre as [|c' pre].
      * left. by exists post.
      * right. injection Hs as -> ->. by exists pre, post.
Qed.

Lemma contains_trans a b s :
  contains a b = true -> contains b s = true -> contains a s = true.
Proof.
  rewrite !contains_spec. intros (p1 & q1 & ->) (p2 & q2 & ->).
  exists (p2 ++ p1), (q1 ++ q2). by rewrite <- !app_assoc.
Qed.

Lemma matched_techs_elem rt tech_stack tech :
  tech ∈ matched_techs rt tech_stack <->
  tech ∈ map fst knowledge_base /\ contains tech (lower rt tech_stack) = true.
Proof. unfold matched_techs. rewrite !list_elem_of_In, filter_In. tauto. Qed.

(** Keywords are looked for as substrings, so a keyword that lies inside
    another keyword is matched whenever the longer one is: a tech stack in
    which JavaScript is found is also taken to name Java, and one in which
    MySQL or PostgreSQL is found is also taken to name SQL. *)
Theorem keyword_inside_keyword rt tech_stack :
  let matched := matched_techs rt tech_stack in
  (forall k1 k2, k1 ∈ map fst knowledge_base -> contains k1 k2 = true ->
     k2 ∈ matched -> k1 ∈ matched) /\
  (lit "javascript" ∈ matched -> lit "java" ∈ matched) /\
  (lit "mysql" ∈ matched -> lit "sql" ∈ matched) /\
  (lit "postgresql" ∈ matched -> lit "sql" ∈ matched).
Proof.
  cbv zeta.
  assert (Hgen : forall k1 k2, k1 ∈ map fst knowledge_base -> contains k1 k2 = true ->
            k2 ∈ matched_techs rt tech_stack -> k1 ∈ matched_techs rt tech_stack).
  { intros k1 k2 Hk1 Hin. rewrite !matched_techs_elem. intros [_ Hk2].
    split; [done|]. by apply (contains_trans k1 k2). }
  split; [exact Hgen|].
  split; [|split]; apply Hgen;
    solve [apply (bool_decide_unpack _); vm_compute; exact I | vm_compute; reflexivity].
Qed.

Lemma parse_line_app rt questions line :
  parse_line rt questions line = questions ++ parse_line rt [] line.
Proof.
  unfold parse_line. cbv zeta.
  repeat match goal with |- context [if ?b then _ else _] => destruct b end;
    by rewrite ?app_nil_r.
Qed.

Lemma fold_parse_line rt lines questions :
  fold_left (parse_line rt) lines questions =
  questions ++ fold_left (parse_line rt) lines [].
Proof.
  revert questions. induction lines as [|line lines IH]; intros questions.
  - by rewrite app_nil_r.
  - cbn [fold_left]. rewrite IH, (IH (parse_line rt [] line)), parse_line_app.
    by rewrite app_assoc.
Qed.

(** The answer of the collaborator is read line by line and each line on its
    own: the questions of a text are the questions of its lines, in order. A
    line that, trimmed, neither begins with digits and a dot, a closing
    parenthesis or a colon nor begins with the word question in any case
    gives none. *)
Theorem parse_questions_by_line rt :
  (forall a b,
     _parse_questions rt (a ++ [10] ++ b) = _parse_questions rt a ++ _parse_questions rt b) /\
  (forall line,
     10 ∉ line ->
     RePrefix.longest_prefix (numbered_pattern rt) (strip line) = None ->
     startswith (lit "question") (lower rt (strip line)) = false ->
     _parse_questions rt line = []).
Proof.
  split.
  - intros a b. unfold _parse_questions. cbn [app]. rewrite split_app.
    rewrite fold_left_app. by rewrite fold_parse_line.
  - intros line Hline Hnum Hword. unfold _parse_questions.
    rewrite split_none by done. cbn [fold_left]. unfold parse_line. cbv zeta.
    rewrite Hnum, Hword. by rewrite bool_decide_eq_false_2 by (by intros [? ?]).
Qed.

(** ** The stage list and the transcript *)

(** The edges of [_move_to_next_stage]: past the last stage it raises
    [IndexError], at a stage that is not in [stages] it raises [ValueError],
    in both cases leaving the state as it was; at any other stage it moves
    to the next one and returns its prompt, or a bare thanks where the next
    stage has none. *)
Theorem move_to_next_stage_edges h :
  (current_stage h = lit "complete" -> _move_to_next_stage h = (h, Raise IndexError)) /\
  (current_stage h ∉ stages -> _move_to_next_stage h = (h, Raise ValueError)) /\
  (forall next, next_stage (current_stage h) = Some next ->
     _move_to_next_stage h =
       (with_stage next h,
        Return (Some (default (lit "Thank you!") (stage_questions !! next)))) /\
     (stage_questions !! next = None <-> next = lit "questions" \/ next = lit "complete")).
Proof.
  split; [|split].
  - intros Hstage. unfold _move_to_next_stage. run_m. rewrite Hstage.
    vm_compute. reflexivity.
  - intros Hstage. unfold _move_to_next_stage. run_m.
    destruct (list_find _ stages) as [[i x]|] eqn:Hfind; [|done].
    apply list_find_Some in Hfind as (Hi & -> & _).
    destruct Hstage. by eapply list_elem_of_lookup_2.
  - intros next Hnext. split; [by apply _move_to_next_stage_run|].
    revert Hnext. unfold next_stage.
    destruct (list_find _ stages) as [[i x]|] eqn:Hfind; [|done].
    apply list_find_Some in Hfind as (Hi & _ & _). intros Hnext.
    do 10 (destruct i as [|i];
           [vm_compute in Hnext; simplify_eq;
            (split;
             [intros Hq; vm_compute in Hq; first [discriminate | tauto]
             |intros [Hq|Hq]; vm_compute in Hq; first [discriminate | reflexivity]])|]).
    done.
Qed.

Lemma quiet_ret {A} (a : A) : quiet (mret a).
Proof. done. Qed.

Lemma quiet_raise {A} e : quiet (@raise A e).
Proof. done. Qed.

Lemma quiet_gets {A} (f : HiringAssistant -> A) : quiet (gets f).
Proof. done. Qed.

Lemma quiet_bind {A B} (m : M A) (f : A -> M B) :
  quiet m -> (forall a, quiet (f a)) -> quiet (m ≫= f).
Proof.
  intros Hm Hf h. unfold mbind, M_bind. specialize (Hm h).
  destruct (m h) as [h' [a|e]]; cbn [fst] in *; [|done].
  by rewrite Hf.
Qed.

Lemma quiet_set_data k v : quiet (set_data k v).
Proof. done. Qed.

Lemma quiet_get_data k : quiet (get_data k).
Proof. intros h. unfold get_data. by destruct (candidate_data h !! k). Qed.

Lemma quiet_set_attempts k n : quiet (set_attempts k n).
Proof. done. Qed.

Lemma quiet_set_stage s : quiet (set_stage s).
Proof. done. Qed.

Lemma quiet_value_len v : quiet (value_len v).
Proof. by destruct v. Qed.

Lemma quiet_value_index v i : quiet (value_index v i).
Proof. destruct v as [s|l|n]; cbn [value_index]; [| |done]; by destruct (index _ i). Qed.

Ltac solve_quiet :=
  repeat first
    [ apply quiet_ret | apply quiet_raise | apply quiet_gets
    | apply quiet_set_data | apply quiet_get_data | apply quiet_set_attempts
    | apply quiet_set_stage | apply quiet_value_len | apply quiet_value_index
    | apply quiet_bind; [|intros ?]
    | match goal with
      | |- quiet (match ?x with _ => _ end) => destruct x
      end ].

Lemma quiet__move_to_next_stage : quiet _move_to_next_stage.
Proof. unfold _move_to_next_stage. solve_quiet. Qed.

Lemma quiet__handle_greeting message : quiet (_handle_greeting message).
Proof. unfold _handle_greeting. solve_quiet. Qed.

Lemma quiet__handle_info_collection rt message : quiet (_handle_info_collection rt message).
Proof.
  unfold _handle_info_collection. solve_quiet; apply quiet__move_to_next_stage.
Qed.

Lemma quiet__handle_techstack rt llm message : quiet (_handle_techstack rt llm message).
Proof.
  unfold _handle_techstack. destruct (validate _ _ _) as [[] e]; cbn [negb]; solve_quiet.
Qed.

Lemma quiet__generate_completion_message rt : quiet (_generate_completion_message rt).
Proof. unfold _generate_completion_message. solve_quiet. Qed.

Lemma quiet__handle_technical_questions rt message :
  quiet (_handle_technical_questions rt message).
Proof.
  unfold _handle_technical_questions. solve_quiet; apply quiet__generate_completion_message.
Qed.

Lemma quiet__handle_completion message : quiet (_handle_completion message).
Proof. unfold _handle_completion. solve_quiet. Qed.

(** Whatever the state, [process_message] only adds to the transcript: the
    message of the user and, when the call returns, the reply after it. When
    a handler raises, the message of the user is already recorded and no
    reply follows it. Earlier entries are never rewritten. *)
Theorem transcript_only_grows rt llm message h :
  conversation_history (process_message rt llm message h).1 =
  conversation_history h ++
    Message (lit "user") (Some message) ::
    match (process_message rt llm message h).2 with
    | Return reply => [Message (lit "assistant") reply]
    | Raise _ => []
    end.
Proof.
  unfold process_message. run_m.
  match goal with |- context [let (_, _) := ?f ?h0 in _] =>
    assert (Hquiet : quiet f);
    [|specialize (Hquiet h0); destruct (f h0) as [h' [reply|e]]]
  end.
  - repeat match goal with |- quiet (if ?b then _ else _) => destruct b end.
    + apply quiet__handle_greeting.
    + apply quiet__handle_info_collection.
    + apply quiet__handle_techstack.
    + apply quiet__handle_technical_questions.
    + apply quiet__handle_completion.
    + done.
  - cbn [fst snd conversation_history] in *. by rewrite Hquiet, <- app_assoc.
  - cbn [fst snd conversation_history] in *. by rewrite Hquiet.
Qed.

(** ** Sessions *)

Lemma try_save_chatbot e st :
  chatbot (try_save e st) =
  with_data (fun _ => stamped e (candidate_data (chatbot st))) (chatbot st).
Proof.
  unfold try_save, save_candidate. fold (stamped e (candidate_data (chatbot st))).
  destruct (default _ _) as [name| |]; [|done..].
  by destruct (writable e _).
Qed.

Lemma well_formed_stamped e h :
  well_formed h ->
  well_formed (with_data (fun _ => stamped e (candidate_data h)) h).
Proof.
  intros [Hfinal Hstage]. split.
  - unfold final_questions, stamped in *. cbn [with_data candidate_data].
    by rewrite !lookup_insert_ne by lit_ne.
  - cbn [with_data current_stage].
    destruct Hstage as [?|[?|[?|[(questions & answers & Hs & Hq & Ha & Hc & Hlt)|?]]]];
      [tauto..| |tauto].
    right; right; right; left. exists questions, answers.
    unfold asking, stamped. cbn [with_data current_stage candidate_data].
    by rewrite !lookup_insert_ne by lit_ne.
Qed.

Lemma well_formed_main rt llm e user_input st :
  well_formed (chatbot st) -> well_formed (chatbot (main rt llm e user_input st)).
Proof.
  intros Hwf. unfold main.
  set (st1 := if conversation_started st then st else _).
  assert (Hwf1 : well_formed (chatbot st1)).
  { unfold st1. destruct (conversation_started st); [done|]. exact Hwf. }
  clearbody st1. cbv zeta.
  destruct (conversation_ended st1); [done|].
  destruct user_input as [user_input|]; [|done].
  destruct (bool_decide (user_input = [])); [done|].
  destruct (wants_exit rt user_input).
  - unfold exit_branch. cbn [add_message chatbot].
    destruct (end_conversation (chatbot st1)) as [h' [farewell|ex]]; [|done].
    cbv zeta. cbn [add_message chatbot].
    destruct (bool_decide (candidate_data (chatbot st1) = ∅)); [done|].
    unfold ended. cbn [chatbot]. rewrite try_save_chatbot. cbn [chatbot].
    by apply well_formed_stamped.
  - unfold process_branch. cbn [add_message chatbot].
    destruct (well_formed_process rt llm user_input (chatbot st1) Hwf1)
      as (reply & h' & -> & Hwf' & _).
    cbv zeta. cbn [add_message with_chatbot chatbot].
    destruct (bool_decide (current_stage h' = lit "complete")); [|done].
    rewrite try_save_chatbot. cbn [chatbot]. by apply well_formed_stamped.
Qed.

Lemma well_formed_session rt runs st :
  well_formed (chatbot st) -> well_formed (chatbot (session_run rt runs st)).
Proof.
  revert st. induction runs as [|r runs IH]; intros st Hwf; [done|].
  unfold session_run. cbn [fold_left]. apply IH. by apply well_formed_main.
Qed.

(** In a session that started from [initialize_session_state], whatever was
    typed and saved before and whatever the collaborator and the file system
    did, the next message is processed without raising: the branch of [main]
    that shows the apology is never taken. Saving, which writes the time
    stamp and the interview id into the assistant's own data, does not
    disturb the interview. *)
Theorem session_never_apologises rt runs llm user_input :
  let st := session_run rt runs initialize_session_state in
  exists reply bot,
    process_message rt llm user_input (chatbot st) = (bot, Return (Some reply)) /\
    forall e,
      process_branch rt llm e user_input st =
        let st' := add_message (lit "assistant") (Some reply) (with_chatbot bot st) in
        if bool_decide (current_stage bot = lit "complete") then try_save e st' else st'.
Proof.
  cbv zeta.
  destruct (well_formed_process rt llm user_input
              (chatbot (session_run rt runs initialize_session_state)))
    as (reply & bot & Hrun & _).
  { apply well_formed_session. exact well_formed_new. }
  exists reply, bot. split; [done|]. intros e. unfold process_branch.
  by rewrite Hrun.
Qed.

Lemma fields_trimmed_insert k v data :
  fields_trimmed data ->
  k ∈ [lit "questions"; lit "timestamp"; lit "interview_id"] \/ trimmed v ->
  fields_trimmed (<[k := v]> data).
Proof.
  intros Hdata Hv k' v'. destruct (decide (k' = k)) as [->|Hne].
  - rewrite lookup_insert_eq. by intros [= <-].
  - rewrite lookup_insert_ne by done. apply Hdata.
Qed.

Lemma trimmed_strip message : trimmed (VStr (strip message)).
Proof. apply strip_idempotent. Qed.

Lemma trimmed_snoc l message :
  trimmed (VList l) -> trimmed (VList (l ++ [strip message])).
Proof.
  intros Hl. apply Forall_app. split; [done|].
  apply Forall_singleton, strip_idempotent.
Qed.

Lemma fields_trimmed_lookup data k l :
  fields_trimmed data -> data !! k = Some (VList l) ->
  k ∉ [lit "questions"; lit "timestamp"; lit "interview_id"] ->
  trimmed (VList l).
Proof. intros Hdata Hk Hout. by destruct (Hdata k _ Hk). Qed.

Lemma fields_trimmed_process rt llm message h :
  well_formed h ->
  fields_trimmed (candidate_data h) ->
  fields_trimmed (candidate_data (process_message rt llm message h).1).
Proof.
  intros [Hfinal [Hstage|[Hstage|[Hstage|[(questions & answers & Hask)|Hstage]]]]] Hdata.
  - rewrite process_message_greeting by done.
    cbn [fst with_history with_stage with_attempts with_data candidate_data].
    apply fields_trimmed_insert; [done|]. right. apply trimmed_strip.
  - destruct (later_field_is_info _ Hstage)
      as (Hinfo & Hkey & i & Hi & next & prompt & Hnext & Hprompt & Hlater).
    assert (Haccept :
      (validate rt (current_stage h) message).1 = true \/
      (2 <= retry_counter h (current_stage h))%Z ->
      fields_trimmed (candidate_data (process_message rt llm message h).1)).
    { intros Hok.
      rewrite (process_message_accept _ _ _ _ _ _ Hinfo Hok Hnext Hprompt).
      cbn [fst candidate_data].
      apply fields_trimmed_insert; [done|]. right. apply trimmed_strip. }
    destruct (validate_shape rt (current_stage h) message) as [Hv|[e Hv]].
    + apply Haccept. left. by rewrite Hv.
    + destruct (Z.lt_ge_cases (retry_counter h (current_stage h)) 2) as [Hlow|Hhigh].
      * by rewrite process_message_retry by (by rewrite ?Hv).
      * apply Haccept. by right.
  - destruct (Z.lt_ge_cases (len (strip message)) 3) as [Hshort|Hlong].
    + by rewrite process_message_techstack_reject by done.
    + destruct (process_message_techstack_accept rt llm message h Hstage Hlong)
        as [first_question ->].
      cbn [fst with_history questions_ready with_stage with_data candidate_data].
      apply fields_trimmed_insert; [|by right].
      apply fields_trimmed_insert; [|right; apply Forall_nil_2].
      apply fields_trimmed_insert;
        [|left; apply (bool_decide_unpack _); vm_compute; exact I].
      apply fields_trimmed_insert; [done|]. right. apply trimmed_strip.
  - pose proof Hask as (Hstage & Hq & Ha & Hc & Hlt).
    assert (Hanswers : trimmed (VList (answers ++ [strip message]))).
    { apply trimmed_snoc. eapply fields_trimmed_lookup; [exact Hdata|exact Ha|].
      apply (bool_decide_eq_false_1 _). vm_compute. reflexivity. }
    destruct (Z.lt_ge_cases (len answers + 1) (len questions)) as [Hmore|Hlast].
    + destruct (lookup_lt_is_Some_2 questions (length answers + 1)) as [q Hnext];
        [unfold len in Hmore; lia|].
      rewrite (process_message_asking_next _ _ _ _ _ _ _ Hask Hnext).
      cbn [fst with_history with_data candidate_data].
      apply fields_trimmed_insert; [|by right].
      apply fields_trimmed_insert; [done|by right].
    + assert (Heq : (len answers + 1 = len questions)%Z) by lia.
      rewrite (process_message_asking_last _ _ _ _ _ _ Hask Heq).
      cbn [fst with_history with_stage with_data candidate_data].
      apply fields_trimmed_insert; [done|by right].
  - destruct Hfinal as [remarks Hfinal].
    rewrite (process_message_remark _ _ _ _ _ Hstage Hfinal).
    cbn [fst with_history with_data candidate_data].
    apply fields_trimmed_insert; [done|]. right. apply trimmed_snoc.
    unfold final_questions in Hfinal.
    destruct (candidate_data h !! lit "final_questions") as [[| |]|] eqn:Hkey;
      simplify_eq; [|apply Forall_nil_2].
    eapply fields_trimmed_lookup; [exact Hdata|exact Hkey|].
    apply (bool_decide_eq_false_1 _). vm_compute. reflexivity.
Qed.

Lemma fields_trimmed_stamped e data :
  fields_trimmed data -> fields_trimmed (stamped e data).
Proof.
  intros Hdata. unfold stamped.
  apply fields_trimmed_insert;
    [|left; apply (bool_decide_unpack _); vm_compute; exact I].
  apply fields_trimmed_insert;
    [done|left; apply (bool_decide_unpack _); vm_compute; exact I].
Qed.

Lemma fields_trimmed_main rt llm e user_input st :
  well_formed (chatbot st) ->
  fields_trimmed (candidate_data (chatbot st)) ->
  fields_trimmed (candidate_data (chatbot (main rt llm e user_input st))).
Proof.
  intros Hwf Hdata. unfold main.
  set (st1 := if conversation_started st then st else _).
  assert (Hst1 : well_formed (chatbot st1) /\ fields_trimmed (candidate_data (chatbot st1))).
  { unfold st1. destruct (conversation_started st); [done|]. split; [exact Hwf|exact Hdata]. }
  clearbody st1. destruct Hst1 as [Hwf1 Hdata1]. cbv zeta.
  destruct (conversation_ended st1); [done|].
  destruct user_input as [user_input|]; [|done].
  destruct (bool_decide (user_input = [])); [done|].
  destruct (wants_exit rt user_input).
  - unfold exit_branch. cbn [add_message chatbot].
    destruct (end_conversation (chatbot st1)) as [h' [farewell|ex]]; [|done].
    cbv zeta. cbn [add_message chatbot].
    destruct (bool_decide (candidate_data (chatbot st1) = ∅)); [done|].
    unfold ended. cbn [chatbot]. rewrite try_save_chatbot. cbn [chatbot with_data candidate_data].
    by apply fields_trimmed_stamped.
  - unfold process_branch. cbn [add_message chatbot].
    pose proof (fields_trimmed_process rt llm user_input (chatbot st1) Hwf1 Hdata1) as Hnew.
    destruct (well_formed_process rt llm user_input (chatbot st1) Hwf1)
      as (reply & h' & Hrun & _). rewrite Hrun in Hnew |- *. cbn [fst] in Hnew.
    cbv zeta. cbn [add_message with_chatbot chatbot].
    destruct (bool_decide (current_stage h' = lit "complete")); [|done].
    rewrite try_save_chatbot. cbn [chatbot with_data candidate_data].
    by apply fields_trimmed_stamped.
Qed.

(** Whatever is typed in a session, every field the assistant has stored,
    each recorded answer and each final question is free of white space at
    both ends: nothing is stored as typed when it is padded. The generated
    questions and the two stamps of [save_candidate] are not covered. *)
Theorem stored_fields_are_trimmed rt runs :
  fields_trimmed (candidate_data (chatbot (session_run rt runs initialize_session_state))).
Proof.
  assert (Hboth : forall st,
    well_formed (chatbot st) -> fields_trimmed (candidate_data (chatbot st)) ->
    fields_trimmed (candidate_data (chatbot (session_run rt runs st)))).
  { induction runs as [|r runs IH]; intros st Hwf Hdata; [done|].
    unfold session_run. cbn [fold_left]. apply IH.
    - by apply well_formed_main.
    - by apply fields_trimmed_main. }
  apply Hboth; [exact well_formed_new|]. intros k v.
  change (candidate_data (chatbot initialize_session_state)) with (∅ : gmap str value).
  by rewrite lookup_empty.
Qed.

Lemma later_field_early s :
  s ∈ [lit "email"; lit "phone"; lit "experience"; lit "position"; lit "location"] ->
  s <> lit "questions" /\ s <> lit "complete" /\ s <> lit "answers" /\
  forall next, next_stage s = Some next ->
    next <> lit "questions" /\ next <> lit "complete".
Proof.
  intros Hs. repeat (apply elem_of_cons in Hs as [->|Hs]);
    [..|by apply elem_of_nil in Hs].
  all: split; [lit_ne|]; split; [lit_ne|]; split; [lit_ne|].
  all: intros next Hnext; vm_compute in Hnext; simplify_eq; split; lit_ne.
Qed.

Lemma interview_shape_process rt llm message h :
  well_formed h ->
  interview_shape h ->
  interview_shape (process_message rt llm message h).1 /\
  conversation_history (process_message rt llm message h).1 =
    conversation_history h ++
      [Message (lit "user") (Some message);
       Message (lit "assistant")
         match (process_message rt llm message h).2 with
         | Return reply => reply
         | Raise _ => None
         end].
Proof.
  intros [Hfinal [Hstage|[Hstage|[Hstage|[(questions & answers & Hask)|Hstage]]]]] Hshape.
  - rewrite process_message_greeting by done. split; [|done].
    destruct Hshape as [(_ & _ & Hq & Ha)|(qs & ans & _ & _ & _ & [[Hs _]|[Hs _]])];
      [|rewrite Hstage in Hs; vm_compute in Hs; discriminate..].
    left. cbn [fst with_history with_stage with_attempts with_data candidate_data
               current_stage].
    split; [lit_ne|]. split; [lit_ne|].
    by rewrite !lookup_insert_ne by lit_ne.
  - destruct (later_field_is_info _ Hstage)
      as (Hinfo & Hkey & i & Hi & next & prompt & Hnext & Hprompt & Hlater).
    destruct (later_field_early _ Hstage) as (Hs1 & Hs2 & Hs3 & Hnexts).
    destruct (Hnexts _ Hnext) as [Hn1 Hn2].
    destruct Hshape as [(_ & _ & Hq & Ha)|(qs & ans & _ & _ & _ & [[Hs _]|[Hs _]])];
      [|done..].
    assert (Haccept :
      (validate rt (current_stage h) message).1 = true \/
      (2 <= retry_counter h (current_stage h))%Z ->
      interview_shape (process_message rt llm message h).1 /\
      conversation_history (process_message rt llm message h).1 =
        conversation_history h ++
          [Message (lit "user") (Some message);
           Message (lit "assistant")
             match (process_message rt llm message h).2 with
             | Return reply => reply
             | Raise _ => None
             end]).
    { intros Hok.
      rewrite (process_message_accept _ _ _ _ _ _ Hinfo Hok Hnext Hprompt).
      split; [|done]. left. cbn [fst candidate_data current_stage].
      split; [done|]. split; [done|]. by rewrite !lookup_insert_ne by done. }
    destruct (validate_shape rt (current_stage h) message) as [Hv|[e Hv]].
    + apply Haccept. left. by rewrite Hv.
    + destruct (Z.lt_ge_cases (retry_counter h (current_stage h)) 2) as [Hlow|Hhigh].
      * rewrite process_message_retry by (by rewrite ?Hv).
        split; [|done]. left. cbn [fst candidate_data current_stage]. done.
      * apply Haccept. by right.
  - destruct (Z.lt_ge_cases (len (strip message)) 3) as [Hshort|Hlong].
    + rewrite process_message_techstack_reject by done. split; [|done].
      cbn [fst]. destruct Hshape as [Hearly|Hlate]; [by left|by right].
    + destruct (process_message_techstack_accept rt llm message h Hstage Hlong)
        as [first_question ->].
      split; [|done]. right. eexists; exists [].
      cbn [fst with_history questions_ready with_stage with_data candidate_data
               current_stage].
      split; [by rewrite !lookup_insert_ne, lookup_insert_eq by lit_ne|].
      split; [by rewrite lookup_insert_ne, lookup_insert_eq by lit_ne|].
      split; [by apply generate_questions_small|]. by left.
  - pose proof Hask as (Hstage & Hq & Ha & Hc & Hlt).
    assert (Hfour : len questions = 4%Z).
    { destruct Hshape as [(Hs & _)|(qs & ans & Hq' & _ & Hlen & _)]; [done|].
      by simplify_eq. }
    destruct (Z.lt_ge_cases (len answers + 1) (len questions)) as [Hmore|Hlast].
    + destruct (lookup_lt_is_Some_2 questions (length answers + 1)) as [q Hnext];
        [unfold len in Hmore; lia|].
      rewrite (process_message_asking_next _ _ _ _ _ _ _ Hask Hnext).
      split; [|done]. right. exists questions, (answers ++ [strip message]).
      cbn [fst with_history with_data candidate_data current_stage].
      split; [by rewrite !lookup_insert_ne by lit_ne|].
      split; [by rewrite lookup_insert_ne, lookup_insert_eq by lit_ne|].
      split; [done|]. left. split; [done|].
      rewrite len_app. change (len [strip message]) with 1%Z. lia.
    + assert (Heq : (len answers + 1 = len questions)%Z) by lia.
      rewrite (process_message_asking_last _ _ _ _ _ _ Hask Heq).
      split; [|done]. right. exists questions, (answers ++ [strip message]).
      cbn [fst with_history with_stage with_data candidate_data current_stage].
      split; [by rewrite lookup_insert_ne by lit_ne|].
      split; [by rewrite lookup_insert_eq|].
      split; [done|]. right. split; [done|].
      rewrite len_app. change (len [strip message]) with 1%Z. lia.
  - destruct Hfinal as [remarks Hfinal].
    rewrite (process_message_remark _ _ _ _ _ Hstage Hfinal). split; [|done].
    destruct Hshape as [(_ & Hs & _)|(qs & ans & Hq & Ha & Hlen & Hcase)]; [done|].
    right. exists qs, ans.
    cbn [fst with_history with_data candidate_data current_stage].
    by rewrite !lookup_insert_ne by lit_ne.
Qed.

Lemma interview_shape_run rt calls h :
  well_formed h -> interview_shape h ->
  interview_shape (run rt calls h) /\
  len (conversation_history (run rt calls h)) =
    (len (conversation_history h) + entries calls)%Z.
Proof.
  revert h. induction calls as [|c calls IH]; intros h Hwf Hshape.
  - split; [done|]. change (entries []) with 0%Z. change (run rt [] h) with h. lia.
  - rewrite run_cons.
    destruct (IH (step rt h c)) as [IH1 IH2].
    + by apply well_formed_step.
    + destruct c as [|llm message]; [exact Hshape|].
      cbn [step]. by apply interview_shape_process.
    + split; [done|]. rewrite IH2.
      destruct c as [|llm message].
      * change (entries (Start :: calls)) with (1 + entries calls)%Z.
        change (conversation_history (step rt h Start))
          with (conversation_history h ++ [Message (lit "assistant") (Some greeting)]).
        rewrite len_app. unfold len at 2. cbn [length]. lia.
      * change (entries (Process llm message :: calls)) with (2 + entries calls)%Z.
        cbn [step].
        rewrite (proj2 (interview_shape_process rt llm message h Hwf Hshape)).
        rewrite len_app. unfold len at 2. cbn [length]. lia.
Qed.

(** For an assistant that started fresh [get_conversation_summary] always
    returns, and its counts obey the course of the interview: the transcript
    has one entry for each greeting and two for each message, the questions
    asked are none or four, the answers provided never exceed them, and they
    are four exactly when the stage is complete. *)
Theorem summary_counts rt calls :
  let h := run rt calls new_HiringAssistant in
  exists s,
    get_conversation_summary h = (h, Return s) /\
    summary_candidate_data s = candidate_data h /\
    summary_current_stage s = current_stage h /\
    total_messages s = entries calls /\
    (questions_asked s = 0%Z \/ questions_asked s = 4%Z) /\
    (0 <= answers_provided s <= questions_asked s)%Z /\
    (answers_provided s = 4%Z <-> current_stage h = lit "complete").
Proof.
  cbv zeta.
  destruct (interview_shape_run rt calls new_HiringAssistant) as [Hshape Hlen].
  { exact well_formed_new. }
  { left. split; [lit_ne|]. split; [lit_ne|]. done. }
  change (len (conversation_history new_HiringAssistant)) with 0%Z in Hlen.
  revert Hshape Hlen. generalize (run rt calls new_HiringAssistant). intros h Hshape Hlen.
  unfold get_conversation_summary. run_m.
  destruct Hshape as [(Hs1 & Hs2 & -> & ->)|(qs & ans & -> & -> & Hqs & Hcase)];
    cbn [default from_option id value_len]; run_m.
  - eexists. split; [reflexivity|].
    cbn [summary_candidate_data summary_current_stage total_messages questions_asked
         answers_provided].
    change (len (@nil str)) with 0%Z.
    split; [done|]. split; [done|]. split; [lia|]. split; [by left|].
    split; [lia|]. split; [lia|done].
  - eexists. split; [reflexivity|].
    cbn [summary_candidate_data summary_current_stage total_messages questions_asked
         answers_provided].
    pose proof (len_nonneg ans).
    split; [done|]. split; [done|]. split; [lia|]. split; [by right|].
    destruct Hcase as [[Hs Hlt]|[Hs Heq]].
    + split; [lia|]. split; [lia|]. intros Hc. rewrite Hc in Hs.
      vm_compute in Hs. discriminate.
    + split; [lia|]. done.
Qed.

(** Once the interview is complete, every further message that is no exit
    keyword is answered with the fixed reply and the record is written
    again, the new remark included: to a new file when the second has
    changed since the last save, over the last file otherwise. *)
Theorem remark_is_saved_again rt llm e st user_input remarks :
  conversation_started st = true ->
  conversation_ended st = false ->
  user_input <> [] ->
  wants_exit rt user_input = false ->
  current_stage (chatbot st) = lit "complete" ->
  final_questions (chatbot st) = Some remarks ->
  name_is_text (chatbot st) ->
  let data :=
    <[lit "final_questions" := VList (remarks ++ [strip user_input])]>
      (candidate_data (chatbot st)) in
  let st' := main rt llm e (Some user_input) st in
  messages st' =
    messages st ++ [Message (lit "user") (Some user_input);
                    Message (lit "assistant") (Some completion_reply)] /\
  candidate_data (chatbot st') = stamped e data /\
  (writable e (candidate_path e (data_handler st) data) = true ->
   files (data_handler st') =
     <[candidate_path e (data_handler st) data := stamped e data]> (files (data_handler st))).
Proof.
  intros Hstarted Hopen Hinput Hexit Hstage Hfinal Hname. cbv zeta.
  unfold main. rewrite Hstarted, Hopen.
  rewrite bool_decide_eq_false_2 by done.
  unfold add_message at 1. cbn [conversation_ended]. rewrite Hopen, Hexit.
  unfold process_branch, add_message at 2. cbn [chatbot].
  rewrite (process_message_remark _ _ _ _ _ Hstage Hfinal). cbv zeta.
  unfold add_message, with_chatbot.
  cbn [chatbot messages data_handler conversation_started conversation_ended
       with_history with_data current_stage].
  rewrite Hstage. eval_bool_decide. cbv iota.
  unfold try_save.
  cbn [chatbot messages data_handler conversation_started conversation_ended
       candidate_data with_history with_data].
  rewrite save_candidate_text.
  2:{ unfold name_is_text in Hname. rewrite lookup_insert_ne by lit_ne. exact Hname. }
  destruct (writable e _) eqn:Hw;
    cbn [messages chatbot candidate_data with_data data_handler files];
    (split; [by rewrite <- app_assoc|done]).
Qed.

(** A remark typed once the interview of Jane Doe is complete. *)
Lemma remark_is_saved_again_witness :
  let e := {| now_isoformat := lit "2024-05-01T10:00:00";
              now_interview_id := lit "20240501100000";
              now_filename := lit "20240501_100000";
              writable := fun _ => true |} in
  let st := {| messages := [];
               chatbot :=
                 with_stage (lit "complete")
                   (with_data (insert (lit "name") (VStr (lit "Jane Doe")))
                      new_HiringAssistant);
               conversation_started := true;
               conversation_ended := false;
               data_handler := new_DataHandler |} in
  let st' := main ascii_runtime failing e (Some (lit "When do I hear back?")) st in
  is_Some (files (data_handler st') !! lit "data/candidates/Jane_Doe_20240501_100000.json").
Proof.
  intros e st st'.
  assert (Hinput : lit "When do I hear back?" <> []) by (vm_compute; discriminate).
  assert (Hexit : wants_exit ascii_runtime (lit "When do I hear back?") = false)
    by (vm_compute; reflexivity).
  assert (Hfinal : final_questions (chatbot st) = Some []) by (vm_compute; reflexivity).
  assert (Hname : name_is_text (chatbot st)) by (vm_compute; exact I).
  destruct (remark_is_saved_again ascii_runtime failing e st (lit "When do I hear back?") []
              eq_refl eq_refl Hinput Hexit eq_refl Hfinal Hname) as (_ & _ & Hfiles).
  refine (eq_ind_r
            (fun m : gmap str (gmap str value) =>
               is_Some (m !! lit "data/candidates/Jane_Doe_20240501_100000.json"))
            _ (Hfiles eq_refl)).
  apply (bool_decide_unpack _). vm_compute. exact I.
Defined.

(** ** Reading the questions of the collaborator *)

Lemma longest_go_sound r s pos best m :
  RePrefix.longest_go r s pos best = Some m ->
  best = Some m \/
  exists n, m = (pos + n)%nat /\ (n <= length s)%nat /\ Re.matchb r (take n s) = true.
Proof.
  revert r pos best. induction s as [|c s IH]; intros r pos best; cbn [RePrefix.longest_go].
  - destruct (Re.nullable r) eqn:Hnull; [|by left].
    intros [= <-]. right. exists 0%nat. split; [lia|]. split; [done|]. exact Hnull.
  - intros Hgo. apply IH in Hgo as [Hbest|(n & -> & Hn & Hmatch)].
    + destruct (Re.nullable r) eqn:Hnull; [|by left].
      injection Hbest as <-. right. exists 0%nat. split; [lia|].
      split; [cbn; lia|]. exact Hnull.
    + right. exists (S n). split; [lia|]. split; [cbn; lia|]. exact Hmatch.
Qed.

Lemma longest_go_some r s pos b :
  (b <= pos)%nat ->
  exists m, RePrefix.longest_go r s pos (Some b) = Some m /\ (b <= m)%nat.
Proof.
  revert r pos b. induction s as [|c s IH]; intros r pos b Hb; cbn [RePrefix.longest_go].
  - destruct (Re.nullable r); eauto.
  - destruct (Re.nullable r).
    + destruct (IH (Re.deriv c r) (S pos) pos) as (m & Hm & Hle); [lia|].
      exists m. split; [done|lia].
    + apply IH. lia.
Qed.

Lemma longest_go_max r s pos best n :
  (n <= length s)%nat -> Re.matchb r (take n s) = true ->
  exists m, RePrefix.longest_go r s pos best = Some m /\ (pos + n <= m)%nat.
Proof.
  revert r pos best n. induction s as [|c s IH]; intros r pos best n Hn Hmatch;
    cbn [RePrefix.longest_go].
  - destruct n; [|cbn in Hn; lia]. cbn in Hmatch. rewrite Hmatch.
    exists pos. split; [done|lia].
  - destruct n as [|n].
    + cbn in Hmatch. rewrite Hmatch.
      destruct (longest_go_some (Re.deriv c r) s (S pos) pos) as (m & Hm & Hle); [lia|].
      exists m. split; [done|lia].
    + cbn in Hn, Hmatch.
      destruct (IH (Re.deriv c r) (S pos)
                  (if Re.nullable r then Some pos else best) n) as (m & Hm & Hle);
        [lia|done|].
      exists m. split; [done|lia].
Qed.

Lemma sub_prefix_cases r s :
  RePrefix.sub_prefix r s = s \/
  exists m, (m <= length s)%nat /\ RePrefix.sub_prefix r s = drop m s /\
    Re.Matches r (take m s) /\
    forall n, (n <= length s)%nat -> Re.Matches r (take n s) -> (n <= m)%nat.
Proof.
  unfold RePrefix.sub_prefix, RePrefix.longest_prefix.
  destruct (RePrefix.longest_go r s 0 None) as [m|] eqn:Hgo; [|by left].
  right. exists m.
  pose proof (longest_go_sound _ _ _ _ _ Hgo) as [|(n & -> & Hn & Hm)]; [done|].
  split; [done|]. split; [done|]. split; [by apply ReFacts.matchb_spec|].
  intros k Hk Hmatch.
  apply ReFacts.matchb_spec in Hmatch.
  destruct (longest_go_max r s 0 None k Hk Hmatch) as (m' & Hm' & Hle).
  rewrite Hgo in Hm'. injection Hm' as <-. lia.
Qed.

Lemma Matches_plus_cls_snoc p w c :
  Re.Matches (RePrefix.atleast 1 (Re.Cls p)) w -> p c = true ->
  Re.Matches (RePrefix.atleast 1 (Re.Cls p)) (w ++ [c]).
Proof.
  rewrite !ReFacts.Matches_atleast_cls. intros [Hlen Hall] Hc.
  rewrite length_app, forallb_app, Hall. cbn. rewrite Hc. split; [lia|done].
Qed.

Lemma Matches_Cat_snoc r1 r2 w c :
  (forall w', Re.Matches r2 w' -> Re.Matches r2 (w' ++ [c])) ->
  Re.Matches (Re.Cat r1 r2) w -> Re.Matches (Re.Cat r1 r2) (w ++ [c]).
Proof.
  intros Hext Hw. apply ReFacts.Matches_Cat_inv in Hw as (w1 & w2 & -> & H1 & H2).
  rewrite <- app_assoc. constructor; [done|]. by apply Hext.
Qed.

Lemma number_prefix_snoc rt w c :
  isspace c = true ->
  Re.Matches (number_prefix_pattern rt) w -> Re.Matches (number_prefix_pattern rt) (w ++ [c]).
Proof.
  intros Hc. apply Matches_Cat_snoc. intros w' Hw'.
  apply Matches_plus_cls_snoc; [done|]. by rewrite Hc, orb_true_r.
Qed.

Lemma question_prefix_snoc rt w c :
  isspace c = true ->
  Re.Matches (question_prefix_pattern rt) w ->
  Re.Matches (question_prefix_pattern rt) (w ++ [c]).
Proof.
  intros Hc. do 3 (apply Matches_Cat_snoc; intros ?). intros Hw.
  apply Matches_plus_cls_snoc; [done|]. by rewrite Hc, orb_true_r.
Qed.

Lemma strip_fixed_last s :
  strip s = s -> match rev s with c :: _ => isspace c = false | [] => True end.
Proof.
  intros Hs. pose proof (ReFacts.lstrip_head (rev (lstrip s))) as Hhead.
  assert (Hrev : lstrip (rev (lstrip s)) = rev s).
  { rewrite <- Hs at 2. unfold strip, rstrip. by rewrite rev_involutive. }
  by rewrite Hrev in Hhead.
Qed.

Lemma strip_fixed s :
  match s with c :: _ => isspace c = false | [] => True end ->
  match rev s with c :: _ => isspace c = false | [] => True end ->
  strip s = s.
Proof.
  intros Hhead Hlast. unfold strip, rstrip.
  rewrite (lstrip_fixed s) by done. rewrite (lstrip_fixed (rev s)) by done.
  apply rev_involutive.
Qed.

Lemma strip_sub_prefix r s :
  (forall w c, isspace c = true -> Re.Matches r w -> Re.Matches r (w ++ [c])) ->
  strip s = s ->
  strip (RePrefix.sub_prefix r s) = RePrefix.sub_prefix r s.
Proof.
  intros Hext Hs.
  destruct (sub_prefix_cases r s) as [->|(m & Hm & -> & Hmatch & Hmax)]; [done|].
  destruct (drop m s) as [|c t] eqn:Hdrop; [done|].
  assert (Hsplit : s = take m s ++ c :: t) by (by rewrite <- Hdrop, take_drop).
  assert (Hlen : (S m <= length s)%nat).
  { apply (f_equal length) in Hsplit. rewrite length_app, length_take in Hsplit.
    cbn [length] in Hsplit. lia. }
  apply strip_fixed.
  - destruct (isspace c) eqn:Hc; [|done].
    assert (Hlong : Re.Matches r (take (S m) s)).
    { rewrite (take_S_r _ _ c).
      - by apply Hext.
      - rewrite Hsplit. rewrite lookup_app_r by (rewrite length_take; lia).
        rewrite length_take. by replace (m - m `min` length s)%nat with 0%nat by lia. }
    apply Hmax in Hlong; lia.
  - apply strip_fixed_last in Hs. rewrite Hsplit, rev_app_distr in Hs.
    cbn [rev] in *. destruct (rev t ++ [c]) eqn:Hrev; [by destruct (rev t)|].
    cbn [app] in Hs. exact Hs.
Qed.

Lemma sub_prefix_suffix r s : exists pre, s = pre ++ RePrefix.sub_prefix r s.
Proof.
  destruct (sub_prefix_cases r s) as [->|(m & _ & -> & _)]; [by exists []|].
  exists (take m s). by rewrite take_drop.
Qed.

Lemma parse_line_cases rt line :
  parse_line rt [] line = [] \/
  exists q pre,
    parse_line rt [] line = [q] /\ (15 < len q)%Z /\ strip q = q /\
    strip line = pre ++ q.
Proof.
  unfold parse_line. cbv zeta.
  destruct (_ || _); [|by left].
  set (q1 := RePrefix.sub_prefix (number_prefix_pattern rt) (strip line)).
  set (q2 := RePrefix.sub_prefix (question_prefix_pattern rt) q1).
  assert (H1 : strip q1 = q1).
  { apply strip_sub_prefix; [|apply strip_idempotent].
    intros w c. apply number_prefix_snoc. }
  assert (H2 : strip q2 = q2).
  { apply strip_sub_prefix; [|exact H1]. intros w c. apply question_prefix_snoc. }
  destruct (negb _ && (15 <? len q2)%Z) eqn:Hcond; [|by left].
  apply andb_true_iff in Hcond as [_ Hlen%Z.ltb_lt].
  right. exists q2.
  destruct (sub_prefix_suffix (number_prefix_pattern rt) (strip line)) as [p1 Hp1].
  destruct (sub_prefix_suffix (question_prefix_pattern rt) q1) as [p2 Hp2].
  exists (p1 ++ p2). rewrite H2. split; [done|]. split; [done|]. split; [done|].
  rewrite Hp1 at 1. fold q1. rewrite Hp2 at 1. fold q2. by rewrite app_assoc.
Qed.

(** Every question read from the answer of the collaborator is longer than
    15 code points, has no white space around it, and is the end of one of
    the lines of the answer, trimmed: what is cut from the front of the line
    is the number, the word question and the punctuation and white space
    after them, all of it. *)
Theorem parsed_questions_are_clean rt content q :
  q ∈ _parse_questions rt content ->
  (15 < len q)%Z /\ strip q = q /\
  exists line pre, line ∈ split 10 content /\ strip line = pre ++ q.
Proof.
  unfold _parse_questions.
  assert (Hgen : forall lines : list str,
    q ∈ fold_left (parse_line rt) lines [] ->
    (15 < len q)%Z /\ strip q = q /\
    exists line pre, line ∈ lines /\ strip line = pre ++ q).
  { induction lines as [|line lines IH] using rev_ind.
    - cbn. by intros ?%elem_of_nil.
    - rewrite fold_left_app. cbn [fold_left]. rewrite parse_line_app.
      intros [Hq|Hq]%elem_of_app.
      + destruct (IH Hq) as (Hlen & Hstrip & l & pre & Hl & Hpre).
        split; [done|]. split; [done|]. exists l, pre. split; [|done].
        apply elem_of_app. by left.
      + destruct (parse_line_cases rt line) as [Hnone|(q' & pre & Hone & Hlen & Hs & Hpre)].
        * rewrite Hnone in Hq. by apply elem_of_nil in Hq.
        * rewrite Hone in Hq. apply list_elem_of_singleton in Hq as ->.
          split; [done|]. split; [done|]. exists line, pre. split; [|done].
          apply elem_of_app. right. by apply list_elem_of_singleton. }
  apply Hgen.
Qed.

(** Three lines, of which the numbered one is long enough. *)
Lemma parsed_questions_are_clean_witness :
  let q := lit "What is a decorator in Python?" in
  (15 < len q)%Z /\ strip q = q.
Proof.
  intros q.
  assert (Hq : q ∈ _parse_questions ascii_runtime
                 (lit "Here are the questions:
1.  What is a decorator in Python?  
2) Short?"))
    by (apply (bool_decide_unpack _); vm_compute; exact I).
  destruct (parsed_questions_are_clean ascii_runtime _ q Hq) as (Hlen & Hstrip & _).
  split; [exact Hlen|exact Hstrip].
Defined.
